(** * Verification of the manifest extractor (parser.js, manifestBuilder.js)

    The program is JavaScript: every datum it touches is a JavaScript value
    (syntax-tree nodes produced by the Babel front-end, the metadata record,
    the manifest).  The development embeds those values as one inductive
    type, models property access, method calls and exceptions the way the
    language defines them, and translates the functions of
    [src/modules/parser.js] and [src/modules/manifestBuilder.js] one by
    one.  The exported functions are wrapped by [trace] of [logger.js],
    which logs the call and then returns, or rethrows, what the wrapped
    function returns or throws; the wrapper is left out. *)

From stdpp Require Import base list strings gmap pretty.
From Stdlib Require Import ZArith Lia.

Local Open Scope string_scope.
Local Open Scope Z_scope.
Local Open Scope list_scope.

(** ** JavaScript values *)

Module JS.

(** Numbers are the integers the program manipulates (lengths, counters,
    line and column numbers) together with [NaN], which arises when a
    counter is incremented by [undefined].  Objects are association lists
    in insertion order (the order [Object.entries] enumerates for keys
    that are not array indices, as all keys of the program's objects are);
    an object never holds the same key twice. *)
Unset Elimination Schemes.
Inductive value : Type :=
| VUndefined
| VNull
| VBool (b : bool)
| VNum (n : Z)
| VNaN
| VStr (s : string)
| VArr (items : list value)
| VObj (fields : list (string * value)).
Set Elimination Schemes.

Section value_induction.
Variable P : value → Prop.
Hypothesis Hundef : P VUndefined.
Hypothesis Hnull : P VNull.
Hypothesis Hbool : ∀ b, P (VBool b).
Hypothesis Hnum : ∀ n, P (VNum n).
Hypothesis Hnan : P VNaN.
Hypothesis Hstr : ∀ s, P (VStr s).
Hypothesis Harr : ∀ items, Forall P items → P (VArr items).
Hypothesis Hobj : ∀ fields, Forall (λ kv, P kv.2) fields → P (VObj fields).

Fixpoint value_ind (v : value) : P v :=
    match v with
    | VUndefined => Hundef
    | VNull => Hnull
    | VBool b => Hbool b
    | VNum n => Hnum n
    | VNaN => Hnan
    | VStr s => Hstr s
    | VArr items =>
        Harr items
          ((fix all (l : list value) : Forall P l :=
              match l with
              | [] => Forall_nil_2 P
              | x :: l' => Forall_cons_2 P x l' (value_ind x) (all l')
              end) items)
    | VObj fields =>
        Hobj fields
          ((fix all (l : list (string * value)) : Forall (λ kv, P kv.2) l :=
              match l with
              | [] => Forall_nil_2 _
              | kv :: l' => Forall_cons_2 (λ kv, P kv.2) kv l' (value_ind kv.2) (all l')
              end) fields)
    end.
End value_induction.

(** Exceptions.  [TypeError] is what the engine raises on a property read
    from [undefined]/[null] or a call of a non-function; the other
    constructors are the classes of [src/errors.js] (a [ParseError] keeps
    a message, the path and the position, and nothing else of what was
    caught) and the failure of the external parser. *)
Inductive exn : Type :=
| TypeError
| Error (message : string)
| SyntaxError (message : string) (loc : value)
| UserInputError (message : string)
| ParseError (message : string) (path : string) (position : value).

Inductive result (A : Type) : Type :=
| Ok (a : A)
| Throw (e : exn).
Arguments Ok {A} a.
Arguments Throw {A} e.

Definition bind {A B} (m : result A) (k : A → result B) : result B :=
  match m with
  | Ok a => k a
  | Throw e => Throw e
  end.

Notation "'let*' x := m 'in' k" := (bind m (λ x, k))
  (at level 10, x pattern, m at level 100, k at level 200).

(** [ns.f(x)] for a member [f] that the namespace [ns] may not bind: the
    read of a missing member gives [undefined], and calling it throws. *)
Definition call_member {A B} (f : option (A → B)) (x : A) : result B :=
  match f with Some g => Ok (g x) | None => Throw TypeError end.

Section mapM.
Context {A B : Type} (f : A → result B).
Fixpoint mapM (l : list A) : result (list B) :=
    match l with
    | [] => Ok []
    | x :: l' => let* y := f x in let* ys := mapM l' in Ok (y :: ys)
    end.
End mapM.

(** The truth value of a JavaScript value ([if (v)], [!v], [a || b]). *)
Definition truthy (v : value) : bool :=
  match v with
  | VUndefined | VNull | VNaN => false
  | VBool b => b
  | VNum n => negb (n =? 0)
  | VStr s => negb (String.eqb s "")
  | VArr _ | VObj _ => true
  end.

Definition js_or (a b : value) : value := if truthy a then a else b.

(** [v === 'lit'] against a string literal. *)
Definition str_is (lit : string) (v : value) : bool :=
  match v with VStr s => String.eqb s lit | _ => false end.

(** Own-property lookup in an object's field list. *)
Fixpoint find_field (k : string) (fs : list (string * value)) : option value :=
  match fs with
  | [] => None
  | (k', v) :: fs' => if String.eqb k' k then Some v else find_field k fs'
  end.

Definition field (k : string) (fs : list (string * value)) : value :=
  default VUndefined (find_field k fs).

(** The same lookup with the continuation applied in place, so that a
    function recursing on the looked-up child is structurally recursive. *)
Section with_field.
Context {B : Type} (k : string) (f : value → B) (d : B).
Fixpoint with_field (fs : list (string * value)) : B :=
    match fs with
    | [] => d
    | (k', v) :: fs' => if String.eqb k' k then f v else with_field fs'
    end.
End with_field.

(** [obj[k] = v]: overwrite in place when the key exists, append otherwise. *)
Fixpoint obj_set (k : string) (v : value) (fs : list (string * value))
  : list (string * value) :=
  match fs with
  | [] => [(k, v)]
  | (k', v') :: fs' =>
      if String.eqb k' k then (k', v) :: fs' else (k', v') :: obj_set k v fs'
  end.

(** [v.k] where [v] is a value the engine may or may not be able to read
    from.  A read from [undefined] or [null] throws; a missing property is
    [undefined].  Arrays and strings expose [length]; the program reads no
    index property and no inherited method through this path (method calls
    are [js_map], [js_forEach] below). *)
Definition getProp (v : value) (k : string) : result value :=
  match v with
  | VUndefined | VNull => Throw TypeError
  | VObj fs => Ok (field k fs)
  | VArr items =>
      Ok (if String.eqb k "length" then VNum (Z.of_nat (length items)) else VUndefined)
  | VStr s =>
      Ok (if String.eqb k "length" then VNum (Z.of_nat (String.length s)) else VUndefined)
  | VBool _ | VNum _ | VNaN => Ok VUndefined
  end.

(** [v.map(f)]: only arrays have a callable [map] among these values. *)
Definition js_map (f : value → result value) (v : value) : result value :=
  match v with
  | VArr items => let* ys := mapM f items in Ok (VArr ys)
  | _ => Throw TypeError
  end.

(** [String(v)], as used by template literals, [+] and [join]. *)
Section join.
Context (str : value → string) (sep : string).
Definition join_item (v : value) : string :=
    match v with VUndefined | VNull => "" | _ => str v end.
Fixpoint join_with (l : list value) : string :=
    match l with
    | [] => ""
    | [x] => join_item x
    | x :: l' => join_item x +:+ sep +:+ join_with l'
    end.
End join.

Fixpoint ToString (v : value) : string :=
  match v with
  | VUndefined => "undefined"
  | VNull => "null"
  | VBool true => "true"
  | VBool false => "false"
  | VNum n => pretty n
  | VNaN => "NaN"
  | VStr s => s
  | VArr items => join_with ToString "," items
  | VObj _ => "[object Object]"
  end.

(** [arr.join(sep)] on an array. *)
Definition js_join (sep : string) (items : list value) : string :=
  join_with ToString sep items.

(** [a + b].  Objects and arrays convert to strings; if either operand is
    then a string the result is the concatenation, otherwise the numeric
    sum, which is [NaN] as soon as one operand is [undefined] or [NaN]. *)
Definition ToNumber (v : value) : option Z :=
  match v with
  | VNum n => Some n
  | VNull => Some 0
  | VBool b => Some (if b then 1 else 0)
  | _ => None
  end.

Definition is_stringy (v : value) : bool :=
  match v with VStr _ | VArr _ | VObj _ => true | _ => false end.

Definition js_add (a b : value) : value :=
  if is_stringy a || is_stringy b then VStr (ToString a +:+ ToString b)
  else match ToNumber a, ToNumber b with
       | Some x, Some y => VNum (x + y)
       | _, _ => VNaN
       end.

End JS.

Import JS.

(** ** The Babel interface used by the extractor

    [@babel/types] and [@babel/traverse] are external.  Their type tests
    compare the [type] tag of a node; the traversal enters every node
    reachable through the child keys the library lists for each node type,
    depth first, and calls the handler registered for the node's type on
    entry.  The library's bookkeeping of scopes and bindings during the
    walk is left out: no handler of the extractor reads it. *)

Module Babel.

(** [t.isX(node)]: false on a missing node, otherwise a test of the tag. *)
Definition isType (ty : string) (node : value) : bool :=
  match node with
  | VObj fs => str_is ty (field "type" fs)
  | _ => false
  end.

(** [t.isIdentifier(node, { name })]: the tag and the listed property. *)
Definition isIdentifierNamed (name : string) (node : value) : bool :=
  match node with
  | VObj fs => str_is "Identifier" (field "type" fs) && str_is name (field "name" fs)
  | _ => false
  end.

(** [VISITOR_KEYS[node.type]]: the child keys of a node, none when the
    node has no type tag. *)
Definition child_keys (VISITOR_KEYS : string → list string)
    (fs : list (string * value)) : list string :=
  match field "type" fs with VStr ty => VISITOR_KEYS ty | _ => [] end.

Section foldM.
Context {A S : Type} (f : A → S → result S).
Fixpoint foldM (l : list A) (st : S) : result S :=
  match l with
  | [] => Ok st
  | x :: l' => let* st' := f x st in foldM l' st'
  end.
End foldM.

Section traverse.
Context {S : Type}.
(** The library's table of child keys per node type, and the handler set
    (one function dispatching on the node's type). *)
Context (VISITOR_KEYS : string → list string).
Context (enter : value → S → result S).

(** Visit one node: the handler first, then the children key by key; an
    array-valued key holds a sequence of nodes.  Values that are not nodes
    are passed over. *)
Fixpoint visit (node : value) (st : S) {struct node} : result S :=
  match node with
  | VObj fs =>
      let* st1 := enter node st in
      foldM (λ key, with_field key
                      (λ child,
                         match child with
                         | VArr items => foldM visit items
                         | _ => visit child
                         end)
                      Ok fs)
            (child_keys VISITOR_KEYS fs) st1
  | _ => Ok st
  end.

Definition visit_child (child : value) : S → result S :=
  match child with
  | VArr items => foldM visit items
  | _ => visit child
  end.

Definition visit_keys (fs : list (string * value)) (keys : list string)
  : S → result S :=
  foldM (λ key, visit_child (field key fs)) keys.

(** [traverse(ast, visitors)]: nothing for a missing tree, an error for a
    root that is neither a [File] nor a [Program], and otherwise the
    children of the root (the root itself is not entered). *)
Definition traverse (ast : value) (st : S) : result S :=
  if negb (truthy ast) then Ok st
  else match ast with
       | VObj fs =>
           if str_is "Program" (field "type" fs) || str_is "File" (field "type" fs)
           then visit_keys fs (child_keys VISITOR_KEYS fs) st
           else Throw (Error "You must pass a scope and parentPath unless traversing a Program/File")
       | _ => Throw (Error "You must pass a scope and parentPath unless traversing a Program/File")
       end.

End traverse.

(** The child keys of the node types of [@babel/types] that occur in the
    examples below; every other type is listed without children here. *)
Definition babel_VISITOR_KEYS (ty : string) : list string :=
  if String.eqb ty "File" then ["program"]
  else if String.eqb ty "Program" then ["directives"; "body"]
  else if String.eqb ty "VariableDeclaration" then ["declarations"]
  else if String.eqb ty "VariableDeclarator" then ["id"; "init"]
  else if String.eqb ty "CallExpression" then ["callee"; "arguments"; "typeParameters"; "typeArguments"]
  else if String.eqb ty "ExportNamedDeclaration" then ["declaration"; "specifiers"; "source"]
  else if String.eqb ty "ExportDefaultDeclaration" then ["declaration"]
  else if String.eqb ty "FunctionDeclaration" then ["id"; "typeParameters"; "params"; "predicate"; "returnType"; "body"]
  else if String.eqb ty "BlockStatement" then ["directives"; "body"]
  else if String.eqb ty "ReturnStatement" then ["argument"]
  else if String.eqb ty "BinaryExpression" then ["left"; "right"]
  else if String.eqb ty "ExpressionStatement" then ["expression"]
  else if String.eqb ty "ImportDeclaration" then ["specifiers"; "source"; "attributes"]
  else if String.eqb ty "ImportSpecifier" then ["imported"; "local"]
  else if String.eqb ty "ClassDeclaration" then
    ["decorators"; "id"; "typeParameters"; "superClass"; "superTypeParameters";
     "mixins"; "implements"; "body"]
  else if String.eqb ty "ClassBody" then ["body"]
  else if String.eqb ty "ClassMethod" then
    ["decorators"; "key"; "typeParameters"; "params"; "returnType"; "body"]
  else if String.eqb ty "ClassProperty" then
    ["decorators"; "variance"; "key"; "typeAnnotation"; "value"]
  else [].

(** What [import * as t from '@babel/types'] binds under the name
    [isFlowTypeAnnotation]: the package exports no function of that name,
    so the member read gives [undefined]. *)
Definition babel_isFlowTypeAnnotation : option (value → bool) := None.

End Babel.

Import Babel.

(** ** src/modules/parser.js *)

Module Parser.

(** The accumulator the handlers close over: [metadata.symbols],
    [metadata.dependencies], and whether [metadata.hasDefaultExport] has
    been assigned. *)
Record metadata : Type := Metadata {
  symbols : list value;
  dependencies : list value;
  hasDefaultExport : bool;
}.

Definition push_symbol (sym : value) (md : metadata) : metadata :=
  Metadata (symbols md ++ [sym]) (dependencies md) (hasDefaultExport md).

Definition push_dependency (dep : value) (md : metadata) : metadata :=
  Metadata (symbols md) (dependencies md ++ [dep]) (hasDefaultExport md).

(** The object [parseFile] returns. *)
Definition metadata_value (md : metadata) : value :=
  VObj ([("symbols", VArr (symbols md)); ("dependencies", VArr (dependencies md))]
        ++ (if hasDefaultExport md then [("hasDefaultExport", VBool true)] else [])).

(** [extractLocation] *)
Definition extractLocation (loc : value) : result value :=
  if negb (truthy loc) then Ok VNull
  else
    let* start := getProp loc "start" in
    let* sline := getProp start "line" in
    let* scol := getProp start "column" in
    let* end_ := getProp loc "end" in
    let* eline := getProp end_ "line" in
    let* ecol := getProp end_ "column" in
    Ok (VObj [("start", VObj [("line", sline); ("column", scol)]);
              ("end", VObj [("line", eline); ("column", ecol)])]).

Section Extractor.
(** The external collaborators: the parser ([parser.parse], from the text
    and the plugin list to a tree or a thrown error), the traversal's table
    of child keys, what the namespace [t] binds under the name
    [isFlowTypeAnnotation], if anything, and the text of the message of
    the engine's [TypeError] (one text, as the model keeps one
    [TypeError] for every place that raises one). *)
Context (parse : string → list string → result value).
Context (VISITOR_KEYS : string → list string).
Context (isFlowTypeAnnotation : option (value → bool)).
Context (typeErrorMessage : string).

Definition keyword_types : list (string * string) :=
  [("TSStringKeyword", "string"); ("TSNumberKeyword", "number");
   ("TSBooleanKeyword", "boolean"); ("TSAnyKeyword", "any");
   ("TSVoidKeyword", "void"); ("TSNullKeyword", "null");
   ("TSUndefinedKeyword", "undefined"); ("TSNeverKeyword", "never");
   ("TSUnknownKeyword", "unknown")].

Fixpoint keyword_name (table : list (string * string)) (ty : value) : option string :=
  match table with
  | [] => None
  | (tag, name) :: table' => if str_is tag ty then Some name else keyword_name table' ty
  end.

(** [tsType.typeParameters.params.map(getTSTypeName)] for a truthy
    [typeParameters], with the recursive function as a parameter. *)
Definition map_type_params (rec : value → result value) (typeParameters : value)
  : result (list value) :=
  match typeParameters with
  | VObj tfs =>
      with_field "params"
        (λ ps, match ps with VArr items => mapM rec items | _ => Throw TypeError end)
        (Throw TypeError) tfs
  | _ => Throw TypeError
  end.

Definition map_types (rec : value → result value) (types : value)
  : result (list value) :=
  match types with VArr items => mapM rec items | _ => Throw TypeError end.

(** [getTSTypeName] *)
Fixpoint getTSTypeName (tsType : value) : result value :=
  match tsType with
  | VObj fs =>
      let ty := field "type" fs in
      match keyword_name keyword_types ty with
      | Some name => Ok (VStr name)
      | None =>
          if str_is "TSArrayType" ty then
            let* elem := with_field "elementType" getTSTypeName (Ok (VStr "any")) fs in
            Ok (VStr (ToString elem +:+ "[]"))
          else if str_is "TSTypeReference" ty && isType "Identifier" (field "typeName" fs) then
            let* name := getProp (field "typeName" fs) "name" in
            with_field "typeParameters"
              (λ tparams,
                 if truthy tparams then
                   let* params := map_type_params getTSTypeName tparams in
                   Ok (VStr (ToString name +:+ "<" +:+ js_join ", " params +:+ ">"))
                 else Ok name)
              (Ok name) fs
          else if str_is "TSUnionType" ty then
            let* names := with_field "types" (map_types getTSTypeName) (Throw TypeError) fs in
            Ok (VStr (js_join " | " names))
          else if str_is "TSIntersectionType" ty then
            let* names := with_field "types" (map_types getTSTypeName) (Throw TypeError) fs in
            Ok (VStr (js_join " & " names))
          else Ok (VStr "any")
      end
  | _ => Ok (VStr "any")
  end.

(** [extractTypeAnnotation] *)
Definition extractTypeAnnotation (typeAnnotation : value) : result value :=
  if negb (truthy typeAnnotation) then Ok (VStr "any")
  else
    let* inner := getProp typeAnnotation "typeAnnotation" in
    let annotation := js_or inner typeAnnotation in
    if isType "TSTypeAnnotation" annotation then
      let* tsType := getProp annotation "typeAnnotation" in
      getTSTypeName tsType
    else
      let* flow := call_member isFlowTypeAnnotation annotation in
      if flow then Ok (VStr "any") else Ok (VStr "any").

(** [extractParamInfo] *)
Definition objectPatternProperty (prop : value) : result value :=
  if isType "ObjectProperty" prop then
    let* key := getProp prop "key" in
    let* name := (if isType "Identifier" key then getProp key "name" else Ok (VStr "computed")) in
    let* val := getProp prop "value" in
    let* ann := getProp val "typeAnnotation" in
    let* ty := extractTypeAnnotation ann in
    Ok (VObj [("name", name); ("type", ty)])
  else Ok (VObj [("name", VStr "rest")]).

Definition arrayPatternElement (element : value) : result value :=
  if truthy element && isType "Identifier" element then
    let* name := getProp element "name" in
    let* ann := getProp element "typeAnnotation" in
    let* ty := extractTypeAnnotation ann in
    Ok (VObj [("name", name); ("type", ty)])
  else Ok VNull.

Definition paramIdentifier (param : value) : result value :=
  let* name := getProp param "name" in
  let* ann := getProp param "typeAnnotation" in
  let* ty := extractTypeAnnotation ann in
  Ok (VObj [("name", name); ("type", ty)]).

Definition paramAssignmentPattern (param : value) : result value :=
  let* lhs := getProp param "left" in
  let* name := (if isType "Identifier" lhs then getProp lhs "name" else Ok (VStr "destructured")) in
  let* ann := getProp lhs "typeAnnotation" in
  let* ty := extractTypeAnnotation ann in
  Ok (VObj [("name", name); ("hasDefault", VBool true); ("type", ty)]).

Definition paramObjectPattern (param : value) : result value :=
  let* props := getProp param "properties" in
  let* properties := js_map objectPatternProperty props in
  Ok (VObj [("name", VStr "objectPattern"); ("properties", properties)]).

Definition paramArrayPattern (param : value) : result value :=
  let* elems := getProp param "elements" in
  match elems with
  | VArr items =>
      let* mapped := mapM arrayPatternElement items in
      Ok (VObj [("name", VStr "arrayPattern"); ("elements", VArr (List.filter truthy mapped))])
  | _ => Throw TypeError
  end.

Definition paramRestElement (param : value) : result value :=
  let* argument := getProp param "argument" in
  let* name := (if isType "Identifier" argument
                then let* n := getProp argument "name" in Ok (VStr ("..." +:+ ToString n))
                else Ok (VStr "...rest")) in
  let* ann := getProp param "typeAnnotation" in
  let* ty := extractTypeAnnotation ann in
  Ok (VObj [("name", name); ("type", ty)]).

Definition paramUnknown : value := VObj [("name", VStr "unknown")].

Definition extractParamInfo (param : value) : result value :=
  if isType "Identifier" param then paramIdentifier param
  else if isType "AssignmentPattern" param then paramAssignmentPattern param
  else if isType "ObjectPattern" param then paramObjectPattern param
  else if isType "ArrayPattern" param then paramArrayPattern param
  else if isType "RestElement" param then paramRestElement param
  else Ok paramUnknown.


(** *** The handlers of [parseFile] *)

Definition importSpecifier (spec : value) : result value :=
  if isType "ImportDefaultSpecifier" spec then
    let* binding := getProp spec "local" in
    let* name := getProp binding "name" in
    Ok (VObj [("type", VStr "default"); ("local", name)])
  else if isType "ImportNamespaceSpecifier" spec then
    let* binding := getProp spec "local" in
    let* name := getProp binding "name" in
    Ok (VObj [("type", VStr "namespace"); ("local", name)])
  else
    let* binding := getProp spec "local" in
    let* name := getProp binding "name" in
    let* imported := getProp spec "imported" in
    let* iname := (if truthy imported then getProp imported "name" else Ok name) in
    Ok (VObj [("type", VStr "named"); ("local", name); ("imported", iname)]).

Definition onImportDeclaration (node : value) (md : metadata) : result metadata :=
  let* src := getProp node "source" in
  let* source := getProp src "value" in
  let* specs := getProp node "specifiers" in
  let* specifiers := js_map importSpecifier specs in
  Ok (push_dependency
        (VObj [("type", VStr "import"); ("source", source); ("specifiers", specifiers)]) md).

(** [v[i]] for a value that has just answered a [length] read. *)
Definition getIndex (v : value) (i : nat) : result value :=
  match v with
  | VUndefined | VNull => Throw TypeError
  | VArr items => Ok (nth i items VUndefined)
  | VObj fs => Ok (field (pretty (Z.of_nat i)) fs)
  | VStr s => Ok (match String.get i s with
                  | Some c => VStr (String c EmptyString)
                  | None => VUndefined
                  end)
  | _ => Ok VUndefined
  end.

Definition num_is (n : Z) (v : value) : bool :=
  match v with VNum m => m =? n | _ => false end.

Definition onCallExpression (node : value) (md : metadata) : result metadata :=
  let* callee := getProp node "callee" in
  if isIdentifierNamed "require" callee then
    let* args := getProp node "arguments" in
    let* len := getProp args "length" in
    if num_is 1 len then
      let* arg0 := getIndex args 0 in
      if isType "StringLiteral" arg0 then
        let* source := getProp arg0 "value" in
        Ok (push_dependency (VObj [("type", VStr "require"); ("source", source)]) md)
      else Ok md
    else Ok md
  else Ok md.

Definition onFunctionDeclaration (node : value) (md : metadata) : result metadata :=
  let* id := getProp node "id" in
  if truthy id then
    let* name := getProp id "name" in
    let* ps := getProp node "params" in
    let* params := js_map extractParamInfo ps in
    let* rt := getProp node "returnType" in
    let* returnType := extractTypeAnnotation rt in
    let* l := getProp node "loc" in
    let* loc := extractLocation l in
    Ok (push_symbol
          (VObj [("name", name); ("type", VStr "fn"); ("params", params);
                 ("returnType", returnType); ("loc", loc)]) md)
  else Ok md.

Definition isFunctionValue (init : value) : bool :=
  isType "ArrowFunctionExpression" init || isType "FunctionExpression" init.

Definition onVariableDeclarator (node : value) (md : metadata) : result metadata :=
  let* id := getProp node "id" in
  let* init := getProp node "init" in
  if truthy id && isType "Identifier" id && truthy init then
    if isFunctionValue init then
      let* name := getProp id "name" in
      let* ps := getProp init "params" in
      let* params := js_map extractParamInfo ps in
      let* rt := getProp init "returnType" in
      let* returnType := extractTypeAnnotation rt in
      let* l := getProp node "loc" in
      let* loc := extractLocation l in
      Ok (push_symbol
            (VObj [("name", name); ("type", VStr "fn"); ("params", params);
                   ("returnType", returnType); ("loc", loc)]) md)
    else if negb (isType "ArrowFunctionExpression" init)
            && negb (isType "FunctionExpression" init) then
      let* name := getProp id "name" in
      let* l := getProp node "loc" in
      let* loc := extractLocation l in
      Ok (push_symbol (VObj [("name", name); ("type", VStr "const"); ("loc", loc)]) md)
    else Ok md
  else Ok md.

Definition memberName (key : value) : result value :=
  if isType "Identifier" key then getProp key "name"
  else if isType "StringLiteral" key then getProp key "value"
  else Ok (VStr "computed").

(** One step of [path.node.body.body.forEach]: the state is the pair of
    the arrays [classMetadata.fields] and [classMetadata.methods]. *)
Definition classMember (member : value) (acc : list value * list value)
  : result (list value * list value) :=
  if isType "ClassMethod" member then
    let* key := getProp member "key" in
    let* name := memberName key in
    let* static := getProp member "static" in
    let* kind := getProp member "kind" in
    let* ps := getProp member "params" in
    let* params := js_map extractParamInfo ps in
    let* rt := getProp member "returnType" in
    let* returnType := extractTypeAnnotation rt in
    let* l := getProp member "loc" in
    let* loc := extractLocation l in
    Ok (acc.1,
        acc.2 ++ [VObj [("name", name); ("static", static); ("kind", kind);
                        ("params", params); ("returnType", returnType); ("loc", loc)]])
  else if isType "ClassProperty" member then
    let* key := getProp member "key" in
    let* name := memberName key in
    let* static := getProp member "static" in
    let* ann := getProp member "typeAnnotation" in
    let* ty := extractTypeAnnotation ann in
    let* l := getProp member "loc" in
    let* loc := extractLocation l in
    Ok (acc.1 ++ [VObj [("name", name); ("static", static); ("type", ty); ("loc", loc)]],
        acc.2)
  else Ok acc.

(** [v.forEach(f)] with the state the callback updates. *)
Definition js_forEach {S} (f : value → S → result S) (v : value) (st : S) : result S :=
  match v with
  | VArr items => foldM f items st
  | _ => Throw TypeError
  end.

Definition onClassDeclaration (node : value) (md : metadata) : result metadata :=
  let* id := getProp node "id" in
  if truthy id then
    let* name := getProp id "name" in
    let* l := getProp node "loc" in
    let* loc := extractLocation l in
    let classMetadata :=
      [("name", name); ("type", VStr "class"); ("fields", VArr []);
       ("methods", VArr []); ("loc", loc)] in
    let* superClass := getProp node "superClass" in
    let* classMetadata :=
      (if truthy superClass && isType "Identifier" superClass
       then let* sup := getProp superClass "name" in Ok (obj_set "extends" sup classMetadata)
       else Ok classMetadata) in
    let* body := getProp node "body" in
    let* members := getProp body "body" in
    let* acc := js_forEach classMember members ([], []) in
    Ok (push_symbol
          (VObj (obj_set "methods" (VArr acc.2) (obj_set "fields" (VArr acc.1) classMetadata)))
          md)
  else Ok md.

Definition exportSpecifier (specifier : value) (md : metadata) : result metadata :=
  let* exported := getProp specifier "exported" in
  let* name := getProp exported "name" in
  let* binding := getProp specifier "local" in
  let* localName := getProp binding "name" in
  let* l := getProp specifier "loc" in
  let* loc := extractLocation l in
  Ok (push_symbol
        (VObj [("name", name); ("localName", localName); ("type", VStr "export");
               ("loc", loc)]) md).

Definition onExportNamedDeclaration (node : value) (md : metadata) : result metadata :=
  let* declaration := getProp node "declaration" in
  if truthy declaration then Ok md
  else
    let* specs := getProp node "specifiers" in
    js_forEach exportSpecifier specs md.

Definition onExportDefaultDeclaration (node : value) (md : metadata) : result metadata :=
  Ok (Metadata (symbols md) (dependencies md) true).

(** The visitor object: the handler registered for the node's type. *)
Definition handlers (node : value) (md : metadata) : result metadata :=
  if isType "ImportDeclaration" node then onImportDeclaration node md
  else if isType "CallExpression" node then onCallExpression node md
  else if isType "FunctionDeclaration" node then onFunctionDeclaration node md
  else if isType "VariableDeclarator" node then onVariableDeclarator node md
  else if isType "ClassDeclaration" node then onClassDeclaration node md
  else if isType "ExportNamedDeclaration" node then onExportNamedDeclaration node md
  else if isType "ExportDefaultDeclaration" node then onExportDefaultDeclaration node md
  else Ok md.

Definition ends_with (suffix s : string) : bool :=
  let n := String.length s in
  let m := String.length suffix in
  (m <=? n)%nat && String.eqb (String.substring (n - m) m s) suffix.

Definition plugins (filePath : string) : list string :=
  let isTS := ends_with ".ts" filePath || ends_with ".tsx" filePath in
  let isJSX := ends_with ".jsx" filePath || ends_with ".tsx" filePath in
  (if isTS then ["typescript"] else []) ++ (if isJSX then ["jsx"] else [])
  ++ ["classProperties"; "classPrivateProperties"; "decorators-legacy"].

(** [err.loc] of a caught exception. *)
Definition exn_loc (e : exn) : value :=
  match e with SyntaxError _ loc => loc | _ => VUndefined end.

(** The traversal part of [parseFile], from the tree to the accumulator. *)
Definition extract (ast : value) : result metadata :=
  traverse VISITOR_KEYS handlers ast (Metadata [] [] false).

(** [err.message] of a caught exception. *)
Definition exn_message (e : exn) : string :=
  match e with
  | TypeError => typeErrorMessage
  | Error message | SyntaxError message _ | UserInputError message
  | ParseError message _ _ => message
  end.

(** [parseFile] *)
Definition parseFile (content filePath : string) : result value :=
  match (let* ast := parse content (plugins filePath) in
         let* md := extract ast in
         Ok (metadata_value md)) with
  | Ok v => Ok v
  | Throw err =>
      Throw (ParseError ("Failed to parse " +:+ filePath +:+ ": " +:+ exn_message err)
               filePath (js_or (exn_loc err) VNull))
  end.

End Extractor.
End Parser.

Import Parser.

(** ** The trees of the two example files

    The nodes are written the way [@babel/parser] lays them out: [type],
    [start], [end], [loc], then the fields of the node type.  Both sources
    fit on line 1, so a column equals the offset. *)

Module Trees.

Definition position (offset : Z) : value :=
  VObj [("line", VNum 1); ("column", VNum offset); ("index", VNum offset)].

Definition babel_node (ty : string) (s e : Z) (rest : list (string * value)) : value :=
  VObj ([("type", VStr ty); ("start", VNum s); ("end", VNum e);
         ("loc", VObj [("start", position s); ("end", position e)])] ++ rest).

Definition identifier (name : string) (s e : Z) : value :=
  babel_node "Identifier" s e [("name", VStr name)].

Definition file (len : Z) (body : list value) : value :=
  babel_node "File" 0 len
    [("errors", VArr []);
     ("program",
       babel_node "Program" 0 len
         [("sourceType", VStr "module"); ("interpreter", VNull);
          ("body", VArr body); ("directives", VArr [])]);
     ("comments", VArr [])].

(** [const x = require('path')] *)
Definition require_path_source : string := "const x = require('path')".

Definition require_path_tree : value :=
  file 25
    [babel_node "VariableDeclaration" 0 25
       [("declarations",
          VArr [babel_node "VariableDeclarator" 6 25
                  [("id", identifier "x" 6 7);
                   ("init",
                     babel_node "CallExpression" 10 25
                       [("callee", identifier "require" 10 17);
                        ("arguments",
                          VArr [babel_node "StringLiteral" 18 24
                                  [("extra", VObj [("rawValue", VStr "path");
                                                   ("raw", VStr "'path'")]);
                                   ("value", VStr "path")]])])]]);
        ("kind", VStr "const")]].

(** [export function add(a, b) { return a + b; }] *)
Definition add_source : string := "export function add(a, b) { return a + b; }".

Definition add_tree : value :=
  file 43
    [babel_node "ExportNamedDeclaration" 0 43
       [("exportKind", VStr "value");
        ("specifiers", VArr []);
        ("source", VNull);
        ("declaration",
          babel_node "FunctionDeclaration" 7 43
            [("id", identifier "add" 16 19);
             ("generator", VBool false);
             ("async", VBool false);
             ("params", VArr [identifier "a" 20 21; identifier "b" 23 24]);
             ("body",
               babel_node "BlockStatement" 26 43
                 [("body",
                    VArr [babel_node "ReturnStatement" 28 41
                            [("argument",
                               babel_node "BinaryExpression" 35 40
                                 [("left", identifier "a" 35 36);
                                  ("operator", VStr "+");
                                  ("right", identifier "b" 39 40)])]]);
                  ("directives", VArr [])])])]].

(** [function outer() { function inner() {} }]: a declaration nested in
    the body of another. *)
Definition nested_tree : value :=
  file 41
    [babel_node "FunctionDeclaration" 0 41
       [("id", identifier "outer" 9 14);
        ("generator", VBool false);
        ("async", VBool false);
        ("params", VArr []);
        ("body",
          babel_node "BlockStatement" 17 41
            [("body",
               VArr [babel_node "FunctionDeclaration" 19 39
                       [("id", identifier "inner" 28 33);
                        ("generator", VBool false);
                        ("async", VBool false);
                        ("params", VArr []);
                        ("body",
                          babel_node "BlockStatement" 36 39
                            [("body", VArr []); ("directives", VArr [])])]]);
             ("directives", VArr [])])]].

(** [class Dog extends Animal { static count = 0; bark() {} }] *)
Definition dog_tree : value :=
  file 56
    [babel_node "ClassDeclaration" 0 56
       [("id", identifier "Dog" 6 9);
        ("superClass", identifier "Animal" 18 24);
        ("body",
          babel_node "ClassBody" 25 56
            [("body",
               VArr [babel_node "ClassProperty" 27 44
                       [("static", VBool true);
                        ("key", identifier "count" 34 39);
                        ("computed", VBool false);
                        ("value",
                          babel_node "NumericLiteral" 42 43
                            [("extra", VObj [("rawValue", VNum 0); ("raw", VStr "0")]);
                             ("value", VNum 0)])];
                     babel_node "ClassMethod" 45 54
                       [("static", VBool false);
                        ("key", identifier "bark" 45 49);
                        ("computed", VBool false);
                        ("kind", VStr "method");
                        ("id", VNull);
                        ("generator", VBool false);
                        ("async", VBool false);
                        ("params", VArr []);
                        ("body",
                          babel_node "BlockStatement" 52 54
                            [("body", VArr []); ("directives", VArr [])])]])])]].

(** [import { readFile as rf } from 'fs'] *)
Definition import_tree : value :=
  file 35
    [babel_node "ImportDeclaration" 0 35
       [("specifiers",
          VArr [babel_node "ImportSpecifier" 9 23
                  [("imported", identifier "readFile" 9 17);
                   ("local", identifier "rf" 21 23)]]);
        ("source",
          babel_node "StringLiteral" 31 35
            [("extra", VObj [("rawValue", VStr "fs"); ("raw", VStr "'fs'")]);
             ("value", VStr "fs")])]].

(** [export default function () {}]: a function declaration without a
    name. *)
Definition anonymous_default_tree : value :=
  file 29
    [babel_node "ExportDefaultDeclaration" 0 29
       [("declaration",
          babel_node "FunctionDeclaration" 15 29
            [("id", VNull);
             ("generator", VBool false);
             ("async", VBool false);
             ("params", VArr []);
             ("body",
               babel_node "BlockStatement" 27 29
                 [("body", VArr []); ("directives", VArr [])])])]].

Definition span (s e : Z) : value :=
  VObj [("start", VObj [("line", VNum 1); ("column", VNum s)]);
        ("end", VObj [("line", VNum 1); ("column", VNum e)])].

End Trees.

(** ** src/modules/manifestBuilder.js *)

Module ManifestBuilder.

Section Builder.
(** [path.basename], [path.relative] on strings, and the timestamp
    [new Date().toISOString()] of the call. *)
Context (basename : string → string).
Context (relative : string → string → string).
Context (now : string).

Definition path_basename (p : value) : result value :=
  match p with VStr s => Ok (VStr (basename s)) | _ => Throw TypeError end.

Definition path_relative (from to : value) : result value :=
  match from, to with
  | VStr a, VStr b => Ok (VStr (relative a b))
  | _, _ => Throw TypeError
  end.

(** The part of [manifest] the loop of [buildManifest] updates. *)
Record progress : Type := Progress {
  files : list value;
  totalSymbols : value;
  totalDependencies : value;
  functions : Z;
  classes : Z;
  constants : Z;
  exports : Z;
}.

(** The body of [fileManifest.symbols.forEach]. *)
Definition countSymbol (symbol : value) (p : progress) : result progress :=
  let* ty := getProp symbol "type" in
  if str_is "fn" ty then
    Ok (Progress (files p) (totalSymbols p) (totalDependencies p)
          (functions p + 1) (classes p) (constants p) (exports p))
  else if str_is "class" ty then
    Ok (Progress (files p) (totalSymbols p) (totalDependencies p)
          (functions p) (classes p + 1) (constants p) (exports p))
  else if str_is "const" ty then
    Ok (Progress (files p) (totalSymbols p) (totalDependencies p)
          (functions p) (classes p) (constants p + 1) (exports p))
  else if str_is "export" ty then
    Ok (Progress (files p) (totalSymbols p) (totalDependencies p)
          (functions p) (classes p) (constants p) (exports p + 1))
  else Ok p.

(** The body of [parsedFiles.forEach]. *)
Definition processFile (rootPath : value) (fileData : value) (p : progress)
  : result progress :=
  let* filePath := getProp fileData "filePath" in
  let* metadata := getProp fileData "metadata" in
  let* filename := path_basename filePath in
  let* relativePath := path_relative rootPath filePath in
  let* msymbols := getProp metadata "symbols" in
  let* mdependencies := getProp metadata "dependencies" in
  let* mdefault := getProp metadata "hasDefaultExport" in
  let fsymbols := js_or msymbols (VArr []) in
  let fdependencies := js_or mdependencies (VArr []) in
  let fileManifest :=
    VObj [("path", relativePath); ("filename", filename); ("symbols", fsymbols);
          ("dependencies", fdependencies);
          ("hasDefaultExport", js_or mdefault (VBool false))] in
  let* nsymbols := getProp fsymbols "length" in
  let* ndependencies := getProp fdependencies "length" in
  let p1 := Progress (files p) (js_add (totalSymbols p) nsymbols)
              (js_add (totalDependencies p) ndependencies)
              (functions p) (classes p) (constants p) (exports p) in
  let* p2 := js_forEach countSymbol fsymbols p1 in
  Ok (Progress (files p2 ++ [fileManifest]) (totalSymbols p2) (totalDependencies p2)
        (functions p2) (classes p2) (constants p2) (exports p2)).

(** [buildManifest] *)
Definition buildManifest (parsedFiles rootPath : value) : result value :=
  match parsedFiles with
  | VArr ((_ :: _) as items) =>
      let* p := foldM (processFile rootPath) items
                  (Progress [] (VNum 0) (VNum 0) 0 0 0 0) in
      Ok (VObj [("version", VStr "1.0.0");
                ("generated", VStr now);
                ("rootPath", rootPath);
                ("files", VArr (files p));
                ("stats",
                  VObj [("totalFiles", VNum (Z.of_nat (length items)));
                        ("totalSymbols", totalSymbols p);
                        ("totalDependencies", totalDependencies p);
                        ("typeStats",
                          VObj [("functions", VNum (functions p));
                                ("classes", VNum (classes p));
                                ("constants", VNum (constants p));
                                ("exports", VNum (exports p))])])])
  | _ => Throw (UserInputError "No files to process")
  end.

End Builder.

(** [simplifyParam] *)
Definition simplifyProperty (prop : value) : result value :=
  let* name := getProp prop "name" in
  let* ty := getProp prop "type" in
  Ok (VObj [("name", name); ("type", ty)]).

Definition simplifyParam (param : value) : result value :=
  if negb (truthy param) then Ok VNull
  else
    let* name := getProp param "name" in
    let* ty := getProp param "type" in
    let simplified := [("name", name); ("type", ty)] in
    let* hasDefault := getProp param "hasDefault" in
    let simplified :=
      if truthy hasDefault then obj_set "hasDefault" (VBool true) simplified
      else simplified in
    let* properties := getProp param "properties" in
    let* simplified :=
      (if str_is "objectPattern" name && truthy properties
       then let* ps := js_map simplifyProperty properties in
            Ok (obj_set "properties" ps simplified)
       else Ok simplified) in
    let* elements := getProp param "elements" in
    let* simplified :=
      (if str_is "arrayPattern" name && truthy elements
       then let* es := js_map simplifyProperty elements in
            Ok (obj_set "elements" es simplified)
       else Ok simplified) in
    Ok (VObj simplified).

(** [symbol.params ? symbol.params.map(simplifyParam) : []] *)
Definition simplifyParams (params : value) : result value :=
  if truthy params then js_map simplifyParam params else Ok (VArr []).

Definition simplifyField (fld : value) : result value :=
  let* name := getProp fld "name" in
  let* ty := getProp fld "type" in
  let* static := getProp fld "static" in
  Ok (VObj [("name", name); ("type", ty); ("static", static)]).

Definition simplifyMethod (method : value) : result value :=
  let* name := getProp method "name" in
  let* kind := getProp method "kind" in
  let* static := getProp method "static" in
  let* ps := getProp method "params" in
  let* params := simplifyParams ps in
  let* returnType := getProp method "returnType" in
  Ok (VObj [("name", name); ("kind", kind); ("static", static);
            ("params", params); ("returnType", returnType)]).

(** [simplifySymbol] *)
Definition simplifySymbol (symbol : value) : result value :=
  let* name := getProp symbol "name" in
  let* ty := getProp symbol "type" in
  let simplified := [("name", name); ("type", ty)] in
  if str_is "fn" ty then
    let* ps := getProp symbol "params" in
    let* params := simplifyParams ps in
    let* returnType := getProp symbol "returnType" in
    Ok (VObj (obj_set "returnType" returnType (obj_set "params" params simplified)))
  else if str_is "class" ty then
    let* fs := getProp symbol "fields" in
    let* fields := (if truthy fs then js_map simplifyField fs else Ok (VArr [])) in
    let simplified := obj_set "fields" fields simplified in
    let* ms := getProp symbol "methods" in
    let* methods := (if truthy ms then js_map simplifyMethod ms else Ok (VArr [])) in
    let simplified := obj_set "methods" methods simplified in
    let* ext := getProp symbol "extends" in
    Ok (VObj (if truthy ext then obj_set "extends" ext simplified else simplified))
  else if str_is "export" ty then
    let* localName := getProp symbol "localName" in
    Ok (VObj (obj_set "localName" localName simplified))
  else Ok (VObj simplified).

Definition simplifyFile (file : value) : result value :=
  let* path := getProp file "path" in
  let* syms := getProp file "symbols" in
  let* symbols := js_map simplifySymbol syms in
  let* dependencies := getProp file "dependencies" in
  let* hasDefaultExport := getProp file "hasDefaultExport" in
  Ok (VObj [("path", path); ("symbols", symbols); ("dependencies", dependencies);
            ("hasDefaultExport", hasDefaultExport)]).

(** [optimizeForLLM] *)
Definition optimizeForLLM (manifest : value) : result value :=
  let* version := getProp manifest "version" in
  let* fs := getProp manifest "files" in
  let* files := js_map simplifyFile fs in
  Ok (VObj [("version", version); ("files", files)]).

(** *** [optimizeManifest] *)

(** The two locals the closures share: the [stringTable] array and the
    [stringMap] from a string to its index. *)
Record interner : Type := Interner {
  stringTable : list string;
  stringMap : gmap string nat;
}.

Definition ref (index : value) : value := VObj [("$ref", index)].

(** [internString] on a string argument (the only way it is called that
    reaches the table; any other value is returned as it is). *)
Definition internString (str : value) (st : interner) : value * interner :=
  match str with
  | VStr s =>
      let st1 :=
        if bool_decide (is_Some (stringMap st !! s)) then st
        else
          let index := length (stringTable st) in
          Interner (stringTable st ++ [s]) (<[s := index]> (stringMap st)) in
      (ref (match stringMap st1 !! s with
            | Some i => VNum (Z.of_nat i)
            | None => VUndefined
            end), st1)
  | _ => (str, st)
  end.

Definition excluded (key : string) : bool :=
  String.eqb key "version" || String.eqb key "generated" || String.eqb key "rootPath".

Definition is_string (v : value) : bool :=
  match v with VStr _ => true | _ => false end.

Section processObject.
Context (rec : value → interner → value * interner).

(** [obj.map(item => processObject(item))] *)
Fixpoint process_items (items : list value) (st : interner)
  : list value * interner :=
  match items with
  | [] => ([], st)
  | item :: items' =>
      let '(r, st1) := rec item st in
      let '(rs, st2) := process_items items' st1 in
      (r :: rs, st2)
  end.

(** The loop over [Object.entries(obj)], filling [result]. *)
Fixpoint process_entries (entries : list (string * value))
    (result : list (string * value)) (st : interner)
  : list (string * value) * interner :=
  match entries with
  | [] => (result, st)
  | (key, v) :: entries' =>
      if excluded key then process_entries entries' (obj_set key v result) st
      else if is_string v then
        let '(r, st1) := internString v st in
        process_entries entries' (obj_set key r result) st1
      else
        let '(r, st1) := rec v st in
        process_entries entries' (obj_set key r result) st1
  end.
End processObject.

Fixpoint processObject (obj : value) (st : interner) : value * interner :=
  match obj with
  | VArr items =>
      let '(items', st') := process_items processObject items st in
      (VArr items', st')
  | VObj entries =>
      let '(result, st') := process_entries processObject entries [] st in
      (VObj result, st')
  | _ => (obj, st)
  end.

(** The own enumerable properties [{...v}] copies. *)
Fixpoint indexed (i : nat) (items : list value) : list (string * value) :=
  match items with
  | [] => []
  | x :: items' => (pretty (Z.of_nat i), x) :: indexed (S i) items'
  end.

Fixpoint characters (s : string) : list value :=
  match s with
  | EmptyString => []
  | String c s' => VStr (String c EmptyString) :: characters s'
  end.

Definition spread (v : value) : list (string * value) :=
  match v with
  | VObj fs => fs
  | VArr items => indexed 0 items
  | VStr s => indexed 0 (characters s)
  | _ => []
  end.

Definition optimizeManifest (manifest : value) : value :=
  let '(optimized, st) := processObject manifest (Interner [] ∅) in
  VObj (obj_set "stringTable" (VArr (VStr <$> stringTable st)) (spread optimized)).

End ManifestBuilder.


(** ** src/modules/cli.js

    [process.argv.slice(2)] is the list of argument strings; the [config]
    object is its field list, in the order the literal and the later
    assignments create the keys. *)

Module Cli.

Import JS.

(** [arg.startsWith('-')] *)
Definition startsWith_dash (arg : string) : bool := String.prefix "-" arg.

Definition is_flag (long short arg : string) : bool :=
  String.eqb arg long || String.eqb arg short.

Definition usage_error : exn :=
  UserInputError
    "Source path is required. Usage: node extract-manifest.js <source-folder> [--out <file>] [--compress]".

Definition missing_out_error : exn :=
  UserInputError "Missing output file path after --out option".

Definition unknown_option_error (arg : string) : exn :=
  UserInputError ("Unknown option: " +:+ arg).

Definition replay_config : value := VObj [("replayMode", VBool true)].

Section Cli.
(** [path.resolve] on a string. *)
Context (resolve : string → string).

Definition path_resolve (p : value) : result value :=
  match p with VStr s => Ok (VStr (resolve s)) | _ => Throw TypeError end.

(** The [for] loop over [args]: [--out] takes the next argument with it. *)
Fixpoint scan (args : list string) (config : list (string * value))
  : result (list (string * value)) :=
  match args with
  | [] => Ok config
  | arg :: rest =>
      if is_flag "--out" "-o" arg then
        match rest with
        | [] => Throw missing_out_error
        | out :: rest' => scan rest' (obj_set "outputPath" (VStr out) config)
        end
      else if is_flag "--compress" "-c" arg then
        scan rest (obj_set "compress" (VBool true) config)
      else if startsWith_dash arg then Throw (unknown_option_error arg)
      else if negb (truthy (field "sourcePath" config)) then
        scan rest (obj_set "sourcePath" (VStr arg) config)
      else scan rest config
  end.

Definition default_output (config : list (string * value)) : list (string * value) :=
  if negb (truthy (field "outputPath" config))
  then obj_set "outputPath" (VStr "project.manifest.json") config
  else config.

(** [parseCliArguments] of src/modules/cli.js *)
Definition parseCliArguments (args : list string) : result value :=
  if existsb (String.eqb "--replay-errors") args then Ok replay_config
  else
    let* config := scan args [("replayMode", VBool false); ("sourcePath", VNull);
                              ("outputPath", VNull); ("compress", VBool false)] in
    if negb (truthy (field "sourcePath" config)) then Throw usage_error
    else
      let* resolved := path_resolve (field "sourcePath" config) in
      let config := obj_set "sourcePath" resolved config in
      Ok (VObj (default_output config)).

End Cli.
End Cli.

(** ** The cli.js with the format options

    The later version of the module, with [--full-format] and [--help]. *)

Module CliFormat.

Import JS Cli.

Section Cli.
Context (resolve : string → string).

Fixpoint scan (args : list string) (config : list (string * value))
  : result (list (string * value)) :=
  match args with
  | [] => Ok config
  | arg :: rest =>
      if is_flag "--out" "-o" arg then
        match rest with
        | [] => Throw missing_out_error
        | out :: rest' => scan rest' (obj_set "outputPath" (VStr out) config)
        end
      else if is_flag "--compress" "-c" arg then
        scan rest (obj_set "compress" (VBool true) config)
      else if is_flag "--full-format" "-f" arg then
        scan rest (obj_set "llmOptimized" (VBool false)
                     (obj_set "fullFormat" (VBool true) config))
      else if is_flag "--help" "-h" arg then
        scan rest (obj_set "help" (VBool true) config)
      else if startsWith_dash arg then Throw (unknown_option_error arg)
      else if negb (truthy (field "sourcePath" config)) then
        scan rest (obj_set "sourcePath" (VStr arg) config)
      else scan rest config
  end.

Definition resolve_source (config : list (string * value))
  : result (list (string * value)) :=
  if truthy (field "sourcePath" config) then
    let* resolved := path_resolve resolve (field "sourcePath" config) in
    Ok (obj_set "sourcePath" resolved config)
  else Ok config.

Definition initial_config : list (string * value) :=
  [("replayMode", VBool false); ("sourcePath", VNull); ("outputPath", VNull);
   ("compress", VBool false); ("llmOptimized", VBool true); ("fullFormat", VBool false)].

(** [parseCliArguments] *)
Definition parseCliArguments (args : list string) : result value :=
  if existsb (String.eqb "--replay-errors") args then Ok replay_config
  else
    let* config := scan args initial_config in
    if negb (truthy (field "sourcePath" config)) && negb (truthy (field "help" config))
    then Throw usage_error
    else
      let* config := resolve_source config in
      Ok (VObj (default_output config)).

End Cli.
End CliFormat.

(** ** src/index.js

    The body of [main], from the configuration to the call of
    [writeManifest].  The file system is behind [findSourceFiles],
    [readFile] and [writeManifest]; what they throw is a
    [FileSystemError], which the rest of the program never throws.  The
    log lines and the console output are left out. *)

Module Index.

Import JS Parser ManifestBuilder.

Inductive failure : Type :=
| FileSystemError (message path : string)
| Raised (e : exn).

Inductive attempt (A : Type) : Type :=
| Done (a : A)
| Failed (f : failure).
Arguments Done {A} a.
Arguments Failed {A} f.

Definition attempt_bind {A B} (m : attempt A) (k : A → attempt B) : attempt B :=
  match m with Done a => k a | Failed f => Failed f end.

Definition lift {A} (m : result A) : attempt A :=
  match m with Ok a => Done a | Throw e => Failed (Raised e) end.

Notation "'let+' x ':=' m 'in' k" := (attempt_bind m (λ x, k))
  (at level 10, x name, m at level 10, k at level 200, only parsing).

Section foldA.
Context {X S : Type} (f : X → S → attempt S).
Fixpoint foldA (l : list X) (st : S) : attempt S :=
    match l with
    | [] => Done st
    | x :: l' => let+ st' := f x st in foldA l' st'
    end.
End foldA.

(** What a run of [main] that handled no error has done. *)
Inductive outcome : Type :=
| UsagePrinted
| ManifestWritten (outputPath : string).

Section Main.
Context (parse : string → list string → result value).
Context (VISITOR_KEYS : string → list string).
Context (isFlowTypeAnnotation : option (value → bool)).
Context (typeErrorMessage : string).
Context (basename : string → string).
Context (relative : string → string → string).
Context (now : string).
Context (findSourceFiles : value → attempt (list string)).
Context (readFile : string → attempt string).
Context (writeManifest : value → value → value → attempt string).

(** One round of [for (const filePath of filePaths)]. *)
Definition processPath (filePath : string) (processedFiles : list value)
  : attempt (list value) :=
  let+ content := readFile filePath in
  let+ metadata :=
    lift (parseFile parse VISITOR_KEYS isFlowTypeAnnotation typeErrorMessage
            content filePath) in
  Done (processedFiles ++ [VObj [("filePath", VStr filePath); ("metadata", metadata)]]).

(** The two optional passes over the manifest. *)
Definition finalManifest (config manifest : value) : result value :=
  let* llmOptimized := getProp config "llmOptimized" in
  let* final := (if truthy llmOptimized then optimizeForLLM manifest else Ok manifest) in
  let* compress := getProp config "compress" in
  Ok (if truthy compress then optimizeManifest final else final).

(** The [try] block of [main], after [parseCliArguments]. *)
Definition run (config : value) : attempt outcome :=
  let+ help := lift (getProp config "help") in
  if truthy help then Done UsagePrinted
  else
    let+ sourcePath := lift (getProp config "sourcePath") in
    let+ filePaths := findSourceFiles sourcePath in
    let+ processedFiles := foldA processPath filePaths [] in
    let+ manifest := lift (buildManifest basename relative now (VArr processedFiles) sourcePath) in
    let+ final := lift (finalManifest config manifest) in
    let+ outputPath := lift (getProp config "outputPath") in
    let+ compress := lift (getProp config "compress") in
    let+ written := writeManifest final outputPath compress in
    Done (ManifestWritten written).

End Main.
End Index.
Import ManifestBuilder.

(** * Notions used in the statements *)

Module Notions.
Import Trees.

(** A property read that answers [undefined] where the engine would
    throw; used to name parts of a value in statements. *)
Definition prop (v : value) (k : string) : value :=
  match getProp v k with Ok x => x | Throw _ => VUndefined end.

Definition nullish (v : value) : bool :=
  match v with VUndefined | VNull => true | _ => false end.

(** The number of constructors of a value, for induction on everything a
    function may reach below a node. *)
Fixpoint weight (v : value) : nat :=
  match v with
  | VArr items => S (foldr (λ x n, weight x + n)%nat 0%nat items)
  | VObj fs => S (foldr (λ kv n, weight kv.2 + n)%nat 0%nat fs)
  | _ => 0%nat
  end.

(** *** The nodes a traversal enters, and the function Symbols *)

Section Entered.
Context (VISITOR_KEYS : string → list string).

(** The nodes entered from a node on, the node first, then the nodes
    under each of its child keys in the order of the table. *)
Fixpoint nodes_from (node : value) : list value :=
  match node with
  | VObj fs =>
      node ::
      flat_map
        (λ key, with_field key
                  (λ child,
                     match child with
                     | VArr items => flat_map nodes_from items
                     | _ => nodes_from child
                     end)
                  [] fs)
        (child_keys VISITOR_KEYS fs)
  | _ => []
  end.

Definition nodes_under (child : value) : list value :=
  match child with
  | VArr items => flat_map nodes_from items
  | _ => nodes_from child
  end.

(** The nodes entered by the traversal of a whole tree: everything below
    the root, at any depth. *)
Definition entered (ast : value) : list value :=
  match ast with
  | VObj fs => flat_map (λ key, nodes_under (field key fs)) (child_keys VISITOR_KEYS fs)
  | _ => []
  end.
End Entered.

(** A function declaration with a name; a variable binding of an
    identifier to an arrow or function expression. *)
Definition declares_function (node : value) : bool :=
  isType "FunctionDeclaration" node && truthy (prop node "id").

Definition binds_function (node : value) : bool :=
  isType "VariableDeclarator" node
  && truthy (prop node "id") && isType "Identifier" (prop node "id")
  && truthy (prop node "init") && isFunctionValue (prop node "init").

Definition function_source (node : value) : bool :=
  declares_function node || binds_function node.

Definition declared_name (node : value) : value :=
  prop (prop node "id") "name".

Definition is_function_symbol (sym : value) : bool :=
  str_is "fn" (prop sym "type").

(** The names of the function Symbols of a symbol sequence, in order. *)
Definition function_names (syms : list value) : list value :=
  (λ sym, prop sym "name") <$> List.filter is_function_symbol syms.

Definition fnames (md : metadata) : list value := function_names (symbols md).

(** What the entry of one node adds to the function names. *)
Definition emitted (node : value) : list value :=
  if function_source node then [declared_name node] else [].

(** The statements of the program body, an export declaration standing
    for the declaration it wraps, and the names of the named function
    declarations among them. *)
Definition top_level_statements (ast : value) : list value :=
  match prop (prop ast "program") "body" with
  | VArr items => items
  | _ => []
  end.

Definition unwrap_export (stmt : value) : value :=
  if isType "ExportNamedDeclaration" stmt || isType "ExportDefaultDeclaration" stmt
  then prop stmt "declaration"
  else stmt.

Definition top_level_function_names (ast : value) : list value :=
  declared_name <$> List.filter declares_function (unwrap_export <$> top_level_statements ast).

(** The metadata of [function outer() { function inner() {} }]. *)
Definition nested_metadata : metadata :=
  Metadata
    [VObj [("name", VStr "outer"); ("type", VStr "fn"); ("params", VArr []);
           ("returnType", VStr "any"); ("loc", span 0 41)];
     VObj [("name", VStr "inner"); ("type", VStr "fn"); ("params", VArr []);
           ("returnType", VStr "any"); ("loc", span 19 39)]]
    [] false.

(** *** Well-formed type nodes

    What the front-end guarantees of the type nodes [getTSTypeName] reads:
    a union or intersection type carries its [types] array, type
    parameters carry their [params] array, a referenced type name is a
    string. *)
Definition all_wf (ok : value → bool) (v : value) : bool :=
  match v with VArr items => forallb ok items | _ => false end.

Fixpoint wf_tstype (tsType : value) : bool :=
  match tsType with
  | VObj fs =>
      let ty := field "type" fs in
      if str_is "TSArrayType" ty then with_field "elementType" wf_tstype true fs
      else if str_is "TSTypeReference" ty && isType "Identifier" (field "typeName" fs) then
        is_string (prop (field "typeName" fs) "name")
        && with_field "typeParameters"
             (λ tparams,
                if truthy tparams then
                  match tparams with
                  | VObj tfs => with_field "params" (all_wf wf_tstype) false tfs
                  | _ => false
                  end
                else true)
             true fs
      else if str_is "TSUnionType" ty || str_is "TSIntersectionType" ty then
        with_field "types" (all_wf wf_tstype) false fs
      else true
  | _ => true
  end.

(** The type shapes [getTSTypeName] has a case for. *)
Definition recognized_tstype (tsType : value) : bool :=
  match tsType with
  | VObj fs =>
      let ty := field "type" fs in
      bool_decide (is_Some (keyword_name keyword_types ty))
      || str_is "TSArrayType" ty
      || (str_is "TSTypeReference" ty && isType "Identifier" (field "typeName" fs))
      || str_is "TSUnionType" ty
      || str_is "TSIntersectionType" ty
  | _ => false
  end.

Definition record_fields (v : value) : list string :=
  match v with VObj fs => fs.*1 | _ => [] end.

(** A node given by its type tag and fields, without its position. *)
Definition ts_node (ty : string) (rest : list (string * value)) : value :=
  VObj (("type", VStr ty) :: rest).

(** The type node of [string | number[]]. *)
Definition union_type : value :=
  ts_node "TSUnionType"
    [("types",
       VArr [ts_node "TSStringKeyword" [];
             ts_node "TSArrayType" [("elementType", ts_node "TSNumberKeyword" [])]])].

(** The file [function f(x: string) {}] as the front-end returns it with
    the typescript plugin: the annotation [: string] of the parameter, the
    parameter, and the tree. *)
Definition typed_source : string := "function f(x: string) {}".

Definition string_annotation : value :=
  babel_node "TSTypeAnnotation" 12 20
    [("typeAnnotation", babel_node "TSStringKeyword" 14 20 [])].

Definition typed_param : value :=
  babel_node "Identifier" 11 20
    [("name", VStr "x"); ("typeAnnotation", string_annotation)].

Definition typed_tree : value :=
  file 24
    [babel_node "FunctionDeclaration" 0 24
       [("id", identifier "f" 9 10);
        ("generator", VBool false);
        ("async", VBool false);
        ("params", VArr [typed_param]);
        ("body",
          babel_node "BlockStatement" 22 24
            [("body", VArr []); ("directives", VArr [])])]].

(** The text of the engine's [TypeError] for the call of a member the
    namespace does not bind. *)
Definition not_a_function : string := "t.isFlowTypeAnnotation is not a function".

(** The records named in the two examples. *)
Definition require_dependency : value :=
  VObj [("type", VStr "require"); ("source", VStr "path")].

Definition x_constant : value :=
  VObj [("name", VStr "x"); ("type", VStr "const"); ("loc", span 6 25)].

Definition add_params : value :=
  VArr [VObj [("name", VStr "a"); ("type", VStr "any")];
        VObj [("name", VStr "b"); ("type", VStr "any")]].

Definition add_symbol : value :=
  VObj [("name", VStr "add"); ("type", VStr "fn"); ("params", add_params);
        ("returnType", VStr "any"); ("loc", span 7 43)].

(** *** File results and manifest totals *)

(** The length of a sequence-valued field, and the sum of the lengths of
    the field [key] over the FileManifests of a manifest. *)
Definition seq_length (v : value) : Z :=
  match v with VArr items => Z.of_nat (length items) | _ => 0 end.

Fixpoint sum_lengths (key : string) (fileManifests : list value) : Z :=
  match fileManifests with
  | [] => 0
  | f :: rest => seq_length (prop f key) + sum_lengths key rest
  end.

(** A sequence, or a falsy value the builder replaces by the empty one. *)
Definition seq_or_absent (elem_ok : value → bool) (v : value) : bool :=
  match v with
  | VArr items => forallb elem_ok items
  | _ => negb (truthy v)
  end.

(** A file result [{filePath, metadata}]: the path is a string, the
    metadata an object whose [symbols] and [dependencies] are sequences
    when present, no symbol being [null] or [undefined]. *)
Definition valid_file_result (fileData : value) : bool :=
  match fileData with
  | VObj fs =>
      is_string (field "filePath" fs)
      && match field "metadata" fs with
         | VObj ms =>
             seq_or_absent (λ sym, negb (nullish sym)) (field "symbols" ms)
             && seq_or_absent (λ _, true) (field "dependencies" ms)
         | _ => false
         end
  | _ => false
  end.

(** Two file results: one with two symbols and a dependency, one whose
    metadata has no [dependencies] at all. *)
Definition sample_file_results : list value :=
  [VObj [("filePath", VStr "/repo/a.js");
         ("metadata",
           VObj [("symbols",
                   VArr [VObj [("name", VStr "f"); ("type", VStr "fn")];
                         VObj [("name", VStr "c"); ("type", VStr "const")]]);
                 ("dependencies", VArr [require_dependency])])];
   VObj [("filePath", VStr "/repo/b.js");
         ("metadata",
           VObj [("symbols", VArr [VObj [("name", VStr "K"); ("type", VStr "class")]]);
                 ("hasDefaultExport", VBool true)])]].

(** *** String interning *)

(** What every object of the program satisfies, at any depth: its keys
    are pairwise distinct, and none is ["__proto__"] (an assignment to
    which creates no property). *)
Fixpoint js_value (v : value) : bool :=
  match v with
  | VArr items => forallb js_value items
  | VObj fs =>
      bool_decide (NoDup fs.*1)
      && forallb (λ kv, negb (String.eqb kv.1 "__proto__") && js_value kv.2) fs
  | _ => true
  end.

(** No object inside the value has the key [k]. *)
Fixpoint no_key (k : string) (v : value) : bool :=
  match v with
  | VArr items => forallb (no_key k) items
  | VObj fs => forallb (λ kv, negb (String.eqb kv.1 k) && no_key k kv.2) fs
  | _ => true
  end.

(** An object without a [stringTable] field of its own. *)
Definition interning_input (manifest : value) : bool :=
  match manifest with
  | VObj fs => js_value manifest && bool_decide (find_field "stringTable" fs = None)
  | _ => false
  end.

(** A manifest, as far as interning is concerned: an object without a
    [stringTable] field, no object of which has a [$ref] field (the
    fields of the data model are a fixed set of names, none of them
    [$ref] or [stringTable]). *)
Definition manifest_shaped (manifest : value) : bool :=
  interning_input manifest && no_key "$ref" manifest.

(** What one entry of an object becomes, and the entries of an object
    mapped in order with the table threaded through: the loop of
    [processObject] when no key repeats. *)
Definition entry_value (rec : value → interner → value * interner)
    (key : string) (v : value) (st : interner) : value * interner :=
  if excluded key then (v, st)
  else if is_string v then internString v st
  else rec v st.

Fixpoint map_entries (rec : value → interner → value * interner)
    (entries : list (string * value)) (st : interner)
  : list (string * value) * interner :=
  match entries with
  | [] => ([], st)
  | (key, v) :: entries' =>
      let '(r, st1) := entry_value rec key v st in
      let '(out, st2) := map_entries rec entries' st1 in
      ((key, r) :: out, st2)
  end.

(** The decoding of the round-trip law: every object [{$ref: i}] is
    replaced by the [i]-th entry of the table, everything else is kept. *)
Definition is_ref (v : value) : option nat :=
  match v with
  | VObj [(k, VNum i)] =>
      if String.eqb k "$ref" && (0 <=? i) then Some (Z.to_nat i) else None
  | _ => None
  end.

Fixpoint decode (table : list string) (v : value) : value :=
  match v with
  | VArr items => VArr (map (decode table) items)
  | VObj fs =>
      match is_ref v with
      | Some i => match table !! i with Some s => VStr s | None => v end
      | None => VObj (map (λ kv, (kv.1, decode table kv.2)) fs)
      end
  | _ => v
  end.

(** The table agrees with the map: a string is mapped to an index exactly
    when the table holds it there. *)
Definition consistent (st : interner) : Prop :=
  ∀ s i, stringMap st !! s = Some i ↔ stringTable st !! i = Some s.

(** The invariant of one run of [processObject]: the table only grows,
    stays consistent with the map, and decoding the output against any
    extension of the final table gives the input back. *)
Definition decodes (v : value) : Prop :=
  ∀ st r st',
    js_value v = true → no_key "$ref" v = true → consistent st →
    processObject v st = (r, st') →
    consistent st'
    ∧ stringTable st `prefix_of` stringTable st'
    ∧ ∀ table, stringTable st' `prefix_of` table → decode table r = v.

Definition strings_of (v : value) : list string :=
  match v with
  | VArr items => flat_map (λ x, match x with VStr s => [s] | _ => [] end) items
  | _ => []
  end.

Definition without_field (k : string) (fs : list (string * value))
  : list (string * value) :=
  List.filter (λ kv, negb (String.eqb kv.1 k)) fs.

(** Decoding the output of [optimizeManifest] against its own
    [stringTable]. *)
Definition restore (optimized : value) : value :=
  match optimized with
  | VObj fs =>
      decode (strings_of (field "stringTable" fs)) (VObj (without_field "stringTable" fs))
  | _ => optimized
  end.

(** The value without the fields named [version], [generated] or
    [rootPath], at every depth. *)
Section strip.
Context (rec : value → value).
Fixpoint strip_fields (fs : list (string * value)) : list (string * value) :=
  match fs with
  | [] => []
  | (k, v) :: fs' =>
      if excluded k then strip_fields fs' else (k, rec v) :: strip_fields fs'
  end.
End strip.

Fixpoint strip (v : value) : value :=
  match v with
  | VArr items => VArr (map strip items)
  | VObj fs => VObj (strip_fields strip fs)
  | _ => v
  end.

(** Positions inside a value: a field of an object or an item of an
    array, at any depth. *)
Inductive step : Type :=
| Key (k : string)
| Index (i : nat).

Fixpoint at_path (p : list step) (v : value) : option value :=
  match p, v with
  | [], _ => Some v
  | Key k :: p', VObj fs =>
      match find_field k fs with Some child => at_path p' child | None => None end
  | Index i :: p', VArr items =>
      match items !! i with Some child => at_path p' child | None => None end
  | _, _ => None
  end.

(** A manifest with repeated strings, an excluded key at the top and one
    inside a file entry. *)
Definition sample_manifest : value :=
  VObj [("version", VStr "1.0.0");
        ("rootPath", VStr "/repo");
        ("files",
          VArr [VObj [("path", VStr "a.js");
                      ("version", VStr "a.js");
                      ("symbols",
                        VArr [VObj [("name", VStr "a.js"); ("type", VStr "fn");
                                    ("loc", VNull)];
                              VObj [("name", VStr "g"); ("type", VStr "fn");
                                    ("line", VNum 3)]])]])].

(** The FileManifest holds the two sequences of its file result: the
    metadata's [symbols] and [dependencies], an absent (falsy) one being the
    empty sequence. *)
Definition holds_sequences (fileData fileManifest : value) : Prop :=
  ∃ symbols dependencies,
    prop fileManifest "symbols" = VArr symbols
    ∧ prop fileManifest "dependencies" = VArr dependencies
    ∧ js_or (prop (prop fileData "metadata") "symbols") (VArr []) = VArr symbols
    ∧ js_or (prop (prop fileData "metadata") "dependencies") (VArr []) = VArr dependencies.

(** The two totals of the loop of [buildManifest] agree with the files
    collected so far. *)
Definition totals_hold (p : progress) : Prop :=
  totalSymbols p = VNum (sum_lengths "symbols" (files p))
  ∧ totalDependencies p = VNum (sum_lengths "dependencies" (files p)).

(** [manifest.stats.<name>] *)
Definition stat (manifest : value) (name : string) : value :=
  prop (prop manifest "stats") name.

End Notions.

(** * Further notions: what the entry of a node contributes *)

Module Views.
Import Trees Notions.

(** The kind and the name of the Symbols the entry of a node adds: a
    named function declaration, an identifier binding with an initializer
    (a function when the initializer is an arrow or function expression, a
    constant otherwise), a named class declaration, and one export per
    specifier of a named export that wraps no declaration. *)
Definition declared (node : value) : list (value * value) :=
  if isType "FunctionDeclaration" node then
    if truthy (prop node "id") then [(VStr "fn", declared_name node)] else []
  else if isType "VariableDeclarator" node then
    if truthy (prop node "id") && isType "Identifier" (prop node "id")
       && truthy (prop node "init")
    then [(VStr (if isFunctionValue (prop node "init") then "fn" else "const"),
           declared_name node)]
    else []
  else if isType "ClassDeclaration" node then
    if truthy (prop node "id") then [(VStr "class", declared_name node)] else []
  else if isType "ExportNamedDeclaration" node then
    if truthy (prop node "declaration") then []
    else match prop node "specifiers" with
         | VArr specs =>
             (λ spec, (VStr "export", prop (prop spec "exported") "name")) <$> specs
         | _ => []
         end
  else [].

(** [node.arguments[0]] *)
Definition first_argument (node : value) : value :=
  match getIndex (prop node "arguments") 0 with Ok v => v | Throw _ => VUndefined end.

(** A call of the identifier [require] with exactly one argument, a
    string literal. *)
Definition is_require_call (node : value) : bool :=
  isType "CallExpression" node
  && isIdentifierNamed "require" (prop node "callee")
  && num_is 1 (prop (prop node "arguments") "length")
  && isType "StringLiteral" (first_argument node).

(** The kind and the source of the Dependency the entry of a node adds. *)
Definition referenced (node : value) : list (value * value) :=
  if isType "ImportDeclaration" node
  then [(VStr "import", prop (prop node "source") "value")]
  else if is_require_call node
  then [(VStr "require", prop (first_argument node) "value")]
  else [].

(** The three things read off the accumulator: kind and name of each
    Symbol, kind and source of each Dependency, the default-export flag. *)
Definition symbol_view (md : metadata) : list (value * value) :=
  (λ sym, (prop sym "type", prop sym "name")) <$> symbols md.

Definition dependency_view (md : metadata) : list (value * value) :=
  (λ dep, (prop dep "type", prop dep "source")) <$> dependencies md.

Definition view (md : metadata)
  : list (value * value) * list (value * value) * bool :=
  (symbol_view md, dependency_view md, hasDefaultExport md).

Definition enter_view (t : list (value * value) * list (value * value) * bool)
    (node : value) : list (value * value) * list (value * value) * bool :=
  (t.1.1 ++ declared node, t.1.2 ++ referenced node,
   t.2 || isType "ExportDefaultDeclaration" node).

(** The [loc] of a node of the example trees. *)
Definition babel_loc (s e : Z) : value :=
  VObj [("start", position s); ("end", position e)].

(** The name recorded for a class member: the identifier, the string
    literal, or "computed". *)
Definition member_name (member : value) : value :=
  let key := prop member "key" in
  if isType "Identifier" key then prop key "name"
  else if isType "StringLiteral" key then prop key "value"
  else VStr "computed".

Definition names_of (records : list value) : list value :=
  (λ r, prop r "name") <$> records.

(** The superclass recorded for a class: the name of a plain identifier,
    nothing for any other expression. *)
Definition superclass_name (node : value) : value :=
  if isType "Identifier" (prop node "superClass")
  then prop (prop node "superClass") "name"
  else VUndefined.

(** The pattern [[a, , [b], c]]: an identifier, a hole, a nested pattern,
    an identifier. *)
Definition array_pattern_param : value :=
  ts_node "ArrayPattern"
    [("elements",
       VArr [ts_node "Identifier" [("name", VStr "a")];
             VNull;
             ts_node "ArrayPattern"
               [("elements", VArr [ts_node "Identifier" [("name", VStr "b")]])];
             ts_node "Identifier" [("name", VStr "c")]])].

Definition array_pattern_record : value :=
  VObj [("name", VStr "arrayPattern");
        ("elements",
          VArr [VObj [("name", VStr "a"); ("type", VStr "any")];
                VObj [("name", VStr "c"); ("type", VStr "any")]])].

(** The class Symbol of [class Dog extends Animal { static count = 0; bark() {} }]
    and the class declaration node of its tree. *)
Definition dog_symbol : value :=
  VObj [("name", VStr "Dog"); ("type", VStr "class");
        ("fields",
          VArr [VObj [("name", VStr "count"); ("static", VBool true);
                      ("type", VStr "any"); ("loc", span 27 44)]]);
        ("methods",
          VArr [VObj [("name", VStr "bark"); ("static", VBool false);
                      ("kind", VStr "method"); ("params", VArr []);
                      ("returnType", VStr "any"); ("loc", span 45 54)]]);
        ("loc", span 0 56);
        ("extends", VStr "Animal")].

Definition dog_declaration : value :=
  match top_level_statements dog_tree with
  | [node] => node
  | _ => VUndefined
  end.

(** The accumulator of [const x = require('path')]. *)
Definition require_path_metadata : metadata :=
  Metadata [x_constant] [require_dependency] false.

(** *** Views of an import *)

Definition specifier_kind (spec : value) : string :=
  if isType "ImportDefaultSpecifier" spec then "default"
  else if isType "ImportNamespaceSpecifier" spec then "namespace"
  else "named".

(** The record of a specifier: its kind, its local name, and for a named
    one the imported name, which is the local name when the specifier has
    no [imported]. *)
Definition same_specifier (spec record : value) : Prop :=
  prop record "type" = VStr (specifier_kind spec)
  ∧ prop record "local" = prop (prop spec "local") "name"
  ∧ prop record "imported"
    = (if String.eqb (specifier_kind spec) "named"
       then if truthy (prop spec "imported")
            then prop (prop spec "imported") "name"
            else prop (prop spec "local") "name"
       else VUndefined).

(** The Dependency of [import { readFile as rf } from 'fs'] and the
    import declaration node of its tree. *)
Definition readFile_import : value :=
  VObj [("type", VStr "import"); ("source", VStr "fs");
        ("specifiers",
          VArr [VObj [("type", VStr "named"); ("local", VStr "rf");
                      ("imported", VStr "readFile")]])].

Definition import_declaration : value :=
  match top_level_statements import_tree with
  | [node] => node
  | _ => VUndefined
  end.

(** *** Views of a manifest *)


(** The symbols of a FileManifest. *)
Definition symbols_of (file : value) : list value :=
  match prop file "symbols" with VArr syms => syms | _ => [] end.

(** How many Symbols of the FileManifests carry the tag. *)
Definition has_tag (tag : string) (sym : value) : bool :=
  str_is tag (prop sym "type").

Fixpoint count_tagged (tag : string) (fileManifests : list value) : Z :=
  match fileManifests with
  | [] => 0
  | f :: rest =>
      Z.of_nat (length (List.filter (has_tag tag) (symbols_of f)))
      + count_tagged tag rest
  end.

(** [manifest.stats.typeStats.<name>] *)
Definition typeStat (manifest : value) (name : string) : value :=
  prop (prop (prop manifest "stats") "typeStats") name.

(** The four counters of the loop of [buildManifest] agree with the files
    collected so far. *)
Definition counts_hold (p : progress) : Prop :=
  functions p = count_tagged "fn" (files p)
  ∧ classes p = count_tagged "class" (files p)
  ∧ constants p = count_tagged "const" (files p)
  ∧ exports p = count_tagged "export" (files p).

(** The FileManifest [buildManifest] makes of one file result. *)
Definition fileManifest_of (basename : string → string)
    (relative : string → string → string) (root : string) (fileData : value) : value :=
  let metadata := prop fileData "metadata" in
  VObj [("path", match prop fileData "filePath" with
                 | VStr p => VStr (relative root p)
                 | _ => VUndefined
                 end);
        ("filename", match prop fileData "filePath" with
                     | VStr p => VStr (basename p)
                     | _ => VUndefined
                     end);
        ("symbols", js_or (prop metadata "symbols") (VArr []));
        ("dependencies", js_or (prop metadata "dependencies") (VArr []));
        ("hasDefaultExport", js_or (prop metadata "hasDefaultExport") (VBool false))].

(** *** Views of an LLM-optimized manifest *)

Definition items_of (v : value) : list value :=
  match v with VArr items => items | _ => [] end.

(** The keys of the simplified form of a Symbol. *)
Definition symbol_keys (sym : value) : list string :=
  let ty := prop sym "type" in
  if str_is "fn" ty then ["name"; "type"; "params"; "returnType"]
  else if str_is "class" ty then
    if truthy (prop sym "extends")
    then ["name"; "type"; "fields"; "methods"; "extends"]
    else ["name"; "type"; "fields"; "methods"]
  else if str_is "export" ty then ["name"; "type"; "localName"]
  else ["name"; "type"].

(** A simplified Symbol keeps the name and the tag. *)
Definition same_symbol (sym out : value) : Prop :=
  prop out "name" = prop sym "name" ∧ prop out "type" = prop sym "type".

(** A simplified file keeps the path, the dependencies, the default-export
    flag, and the Symbols one for one. *)
Definition same_file (file out : value) : Prop :=
  record_fields out = ["path"; "symbols"; "dependencies"; "hasDefaultExport"]
  ∧ prop out "path" = prop file "path"
  ∧ prop out "dependencies" = prop file "dependencies"
  ∧ prop out "hasDefaultExport" = prop file "hasDefaultExport"
  ∧ Forall2 same_symbol (items_of (prop file "symbols")) (items_of (prop out "symbols")).

(** What [optimizeForLLM] needs to read a manifest through: no [null] or
    [undefined] where it reads a property, an array (or, where the code
    tests for it, a falsy value) where it calls [map]. *)
Definition present (v : value) : bool := negb (nullish v).

Definition param_ok (param : value) : bool :=
  negb (truthy param)
  || (seq_or_absent present (prop param "properties")
      && seq_or_absent present (prop param "elements")).

Definition params_ok (params : value) : bool := seq_or_absent param_ok params.

Definition method_ok (method : value) : bool :=
  present method && params_ok (prop method "params").

Definition symbol_ok (sym : value) : bool :=
  present sym && params_ok (prop sym "params")
  && seq_or_absent present (prop sym "fields")
  && seq_or_absent method_ok (prop sym "methods").

Definition file_ok (file : value) : bool :=
  present file
  && match prop file "symbols" with VArr syms => forallb symbol_ok syms | _ => false end.

Definition manifest_ok (manifest : value) : bool :=
  present manifest
  && match prop manifest "files" with VArr fs => forallb file_ok fs | _ => false end.

(** The file result [main] makes of a path and the metadata of its file. *)
Definition file_result (filePath : string) (metadata : value) : value :=
  VObj [("filePath", VStr filePath); ("metadata", metadata)].

(** The file results the loop of [main] collects: the metadata is that of
    a successful extraction. *)
Definition extracted (keys : string → list string) (isFlow : option (value → bool))
    (fileData : value) : Prop :=
  ∃ filePath ast md,
    extract keys isFlow ast = Ok md ∧ fileData = file_result filePath (metadata_value md).

Section Rounds.
Import Index.
Context (parse : string → list string → result value).
Context (keys : string → list string) (isFlow : option (value → bool)).
Context (text : string).
Context (readFile : string → attempt string).

(** The file is read and parsed. *)
Definition goes_through (filePath : string) : Prop :=
  ∃ content metadata,
    readFile filePath = Done content
    ∧ parseFile parse keys isFlow text content filePath = Ok metadata.

(** The file cannot be read, or cannot be parsed. *)
Definition breaks_with (f : failure) (filePath : string) : Prop :=
  readFile filePath = Failed f
  ∨ ∃ content e,
      readFile filePath = Done content
      ∧ parseFile parse keys isFlow text content filePath = Throw e
      ∧ f = Raised e.
End Rounds.

(** A project of one file, [add.js], and a front-end that knows its tree;
    an empty project; a project whose second file is not JavaScript. *)
Definition add_metadata : metadata := Metadata [add_symbol] [] false.

Definition add_front_end (content : string) (plugins : list string) : result value :=
  if String.eqb content add_source then Ok add_tree
  else Throw (SyntaxError "Unexpected token (1:0)"
                (VObj [("line", VNum 1); ("column", VNum 0)])).

Definition add_config : list (string * value) :=
  [("replayMode", VBool false); ("sourcePath", VStr "/repo");
   ("outputPath", VStr "project.manifest.json"); ("compress", VBool true);
   ("llmOptimized", VBool true); ("fullFormat", VBool false)].

Definition add_project (sourcePath : value) : Index.attempt (list string) :=
  Index.Done ["/repo/add.js"].

Definition empty_project (sourcePath : value) : Index.attempt (list string) :=
  Index.Done [].

Definition mixed_project (sourcePath : value) : Index.attempt (list string) :=
  Index.Done ["/repo/add.js"; "/repo/notes.js"; "/repo/zzz.js"].

Definition disk (filePath : string) : Index.attempt string :=
  if String.eqb filePath "/repo/add.js" then Index.Done add_source
  else if String.eqb filePath "/repo/notes.js" then Index.Done "not javascript {"
  else Index.Failed (Index.FileSystemError "Could not read file: ENOENT" filePath).

Definition write_anywhere (data outputPath compress : value) : Index.attempt string :=
  match outputPath with
  | VStr p => Index.Done (if truthy compress then p +:+ ".gz" else p)
  | _ => Index.Done "project.manifest.json"
  end.

(** *** Views of the string table *)

(** The strings [processObject] hands to [internString], in the order it
    meets them: the strings held by a field whose key is not excluded, at
    any depth.  A string that is an array element, and the value itself when
    it is a string, are not among them. *)
Definition string_held (v : value) : list string :=
  match v with VStr s => [s] | _ => [] end.

Fixpoint interned (v : value) : list string :=
  match v with
  | VArr items => flat_map interned items
  | VObj fs =>
      flat_map (λ kv, if excluded kv.1 then []
                      else if is_string kv.2 then string_held kv.2
                      else interned kv.2) fs
  | _ => []
  end.

(** Appending a string that is not yet in the table. *)
Definition add_string (table : list string) (s : string) : list string :=
  if bool_decide (s ∈ table) then table else table ++ [s].

(** What one run of [processObject] does to the table. *)
Definition tabled (v : value) : Prop :=
  ∀ st, consistent st →
    consistent (processObject v st).2
    ∧ stringTable (processObject v st).2 = foldl add_string (stringTable st) (interned v).

(** *** Views of the command line *)

(** The arguments the loop looks at as options or positionals: all but
    the values of [--out]. *)
Fixpoint words (args : list string) : list string :=
  match args with
  | [] => []
  | arg :: rest =>
      if Cli.is_flag "--out" "-o" arg then
        arg :: match rest with [] => [] | _ :: rest' => words rest' end
      else arg :: words rest
  end.

(** The values of [--out], in order. *)
Fixpoint outputs (args : list string) : list string :=
  match args with
  | [] => []
  | arg :: rest =>
      if Cli.is_flag "--out" "-o" arg then
        match rest with [] => [] | out :: rest' => out :: outputs rest' end
      else outputs rest
  end.

Definition positionals (args : list string) : list string :=
  List.filter (λ arg, negb (Cli.startsWith_dash arg)) (words args).

Definition nonempty (s : string) : bool := negb (String.eqb s "").

(** The source path read off the arguments: the first positional that is
    not the empty string, resolved. *)
Definition source_of (resolve : string → string) (args : list string) : value :=
  match List.filter nonempty (positionals args) with
  | s :: _ => VStr (resolve s)
  | [] => match positionals args with [] => VNull | _ :: _ => VStr "" end
  end.

(** The output path read off the arguments: the value of the last [--out],
    unless there is none or it is the empty string. *)
Definition output_of (args : list string) : string :=
  match last (outputs args) with
  | Some out => if nonempty out then out else "project.manifest.json"
  | None => "project.manifest.json"
  end.

Definition has_flag (long short : string) (args : list string) : bool :=
  existsb (Cli.is_flag long short) (words args).

(** The state of [config.sourcePath] after the positionals. *)
Definition pick_source (current : value) (arg : string) : value :=
  if truthy current then current else VStr arg.

(** The configuration of the later cli.js, made of the one of
    src/modules/cli.js. *)
Definition with_format_defaults (config : value) : value :=
  match config with
  | VObj fs =>
      if bool_decide (fs.*1 = ["replayMode"]) then config
      else VObj (fs ++ [("llmOptimized", VBool true); ("fullFormat", VBool false)])
  | _ => config
  end.

(** A command line whose [--out] is followed by what looks like an
    option, and a [path.resolve] for a working directory [/work]. *)
Definition sample_args : list string := ["./src"; "--out"; "--compress"; "-f"; "lib"].

Definition resolve_in_work (p : string) : string := "/work/" +:+ p.

(** The computation returns, or throws [e]. *)
Definition fails_only_with {A} (e : exn) (m : result A) : Prop :=
  match m with Ok _ => True | Throw e' => e' = e end.

Definition symbol_tag (tag : value) : bool :=
  str_is "fn" tag || str_is "class" tag || str_is "const" tag || str_is "export" tag.

Definition dependency_tag (tag : value) : bool :=
  str_is "import" tag || str_is "require" tag.

(** Every symbol of every FileManifest carries one of the four tags. *)
Definition all_tagged (fileManifests : list value) : Prop :=
  Forall (λ f, Forall (λ s, symbol_tag (prop s "type") = true) (symbols_of f)) fileManifests.

End Views.

(** * Basic facts about the embedding *)

Module Facts.
Import Notions.

Lemma bind_ok {A B} (m : result A) (k : A → result B) b :
  bind m k = Ok b → ∃ a, m = Ok a ∧ k a = Ok b.
Proof. destruct m as [a|e]; simpl; [eauto | discriminate]. Qed.

Lemma getProp_obj fs k : getProp (VObj fs) k = Ok (field k fs).
Proof. reflexivity. Qed.

(** Invert the hypotheses [... = Ok y] through binds and conditionals. *)
Ltac ok_inv :=
  repeat match goal with
  | H : bind _ _ = Ok _ |- _ =>
      let x := fresh "x" in
      let Hx := fresh "Hx" in
      apply bind_ok in H as (x & Hx & H)
  | H : Ok _ = Ok _ |- _ => injection H as H
  | H : Throw _ = Ok _ |- _ => discriminate H
  | H : (if ?c then _ else _) = Ok _ |- _ =>
      let Hc := fresh "Hc" in
      destruct c eqn:Hc
  | H : (_ && _) = true |- _ => apply andb_true_iff in H as [? ?]
  end.

Lemma with_field_field {B} k (f : value → B) d fs :
  d = f VUndefined → with_field k f d fs = f (field k fs).
Proof.
  intros ->. unfold field.
  induction fs as [|[k' v] fs IH]; simpl; [reflexivity|].
  destruct (String.eqb k' k); [reflexivity | exact IH].
Qed.

Lemma field_size k fs : (weight (field k fs) < weight (VObj fs))%nat.
Proof.
  unfold field. induction fs as [|[k' w] fs IH]; simpl in *; [lia|].
  destruct (String.eqb k' k); simpl; lia.
Qed.

Lemma item_size v items :
  v ∈ items → (weight v < weight (VArr items))%nat.
Proof.
  induction 1 as [v l | v w l _ IH]; simpl in *; lia.
Qed.

Lemma value_size_ind (P : value → Prop) :
  (∀ v, (∀ w, (weight w < weight v)%nat → P w) → P v) → ∀ v, P v.
Proof.
  intros step.
  assert (∀ n v, (weight v < n)%nat → P v) as Hall.
  { induction n as [|n IH]; intros v Hv; [lia|].
    apply step. intros w Hw. apply IH. lia. }
  intros v. apply (Hall (S (weight v))). lia.
Qed.

Lemma getProp_truthy v k : truthy v = true → getProp v k = Ok (prop v k).
Proof.
  unfold prop. destruct v; try discriminate; reflexivity.
Qed.

Lemma isType_node ty v : isType ty v = true → ∃ fs, v = VObj fs.
Proof. destruct v; try discriminate. eauto. Qed.

Lemma getProp_present v k : nullish v = false → getProp v k = Ok (prop v k).
Proof. unfold prop. destruct v; try discriminate; reflexivity. Qed.

Lemma prop_node fs k : prop (VObj fs) k = field k fs.
Proof. reflexivity. Qed.

Lemma mapM_total {A B} (f : A → result B) (ok : A → bool) l :
  (∀ x, ok x = true → ∃ y, f x = Ok y) →
  forallb ok l = true → ∃ ys, mapM f l = Ok ys.
Proof.
  intros Hf. induction l as [|x l IH]; simpl; intros Hok; [eauto|].
  apply andb_true_iff in Hok as [Hx Hl].
  destruct (Hf x Hx) as (y & ->). destruct (IH Hl) as (ys & ->). simpl. eauto.
Qed.

Lemma str_is_excl a b v :
  str_is a v = true → String.eqb a b = false → str_is b v = false.
Proof.
  destruct v; try discriminate. simpl. intros Ha Hab.
  apply String.eqb_eq in Ha. subst. exact Hab.
Qed.

Lemma isType_excl a b v :
  isType a v = true → String.eqb a b = false → isType b v = false.
Proof.
  destruct v; try reflexivity. simpl. apply str_is_excl.
Qed.

Lemma foldM_ext {A S} (f g : A → S → result S) l st :
  (∀ x st, f x st = g x st) → foldM f l st = foldM g l st.
Proof.
  intros Hfg. revert st. induction l as [|x l IH]; intros st; simpl; [reflexivity|].
  rewrite Hfg. destruct (g x st); simpl; [apply IH | reflexivity].
Qed.

Lemma flat_map_flat_map {A B C} (f : A → list B) (g : B → list C) l :
  flat_map g (flat_map f l) = flat_map (λ x, flat_map g (f x)) l.
Proof.
  induction l as [|x l IH]; simpl; [reflexivity|].
  rewrite flat_map_app, IH. reflexivity.
Qed.

End Facts.

(** * Properties of the extractor *)

Module ParserSpec.
Import Trees Notions Facts.

(** [parseFile] is the traversal wrapped by the front-end call and the
    conversion of any exception into a [ParseError]. *)
Lemma parseFile_of_tree parse keys isFlow text content filePath ast :
  parse content (plugins filePath) = Ok ast →
  parseFile parse keys isFlow text content filePath =
    match extract keys isFlow ast with
    | Ok md => Ok (metadata_value md)
    | Throw err =>
        Throw (ParseError ("Failed to parse " +:+ filePath +:+ ": " +:+ exn_message text err)
                 filePath (js_or (exn_loc err) VNull))
    end.
Proof.
  intros Hparse. unfold parseFile. rewrite Hparse. simpl.
  destruct (extract keys isFlow ast); reflexivity.
Qed.

Example plugins_by_extension :
  plugins "src/view.tsx" =
    ["typescript"; "jsx"; "classProperties"; "classPrivateProperties"; "decorators-legacy"]
  ∧ plugins "src/index.js" =
    ["classProperties"; "classPrivateProperties"; "decorators-legacy"]
  ∧ plugins "src/types.ts" =
    ["typescript"; "classProperties"; "classPrivateProperties"; "decorators-legacy"].
Proof. repeat split. Qed.

(** A failure of the front-end becomes a [ParseError] that carries the
    message and the position the front-end reported, and the file path. *)
Lemma parseFile_of_syntax_error parse keys isFlow text content filePath message loc :
  parse content (plugins filePath) = Throw (SyntaxError message loc) →
  parseFile parse keys isFlow text content filePath =
    Throw (ParseError ("Failed to parse " +:+ filePath +:+ ": " +:+ message)
             filePath (js_or loc VNull)).
Proof.
  intros Hparse. unfold parseFile. rewrite Hparse. reflexivity.
Qed.

(** The two other examples of the specification, and a declaration without
    a name, run through the handlers. *)
Example class_with_static_field_and_method isFlow :
  extract babel_VISITOR_KEYS isFlow dog_tree =
    Ok (Metadata
          [VObj [("name", VStr "Dog"); ("type", VStr "class");
                 ("fields",
                   VArr [VObj [("name", VStr "count"); ("static", VBool true);
                               ("type", VStr "any"); ("loc", span 27 44)]]);
                 ("methods",
                   VArr [VObj [("name", VStr "bark"); ("static", VBool false);
                               ("kind", VStr "method"); ("params", VArr []);
                               ("returnType", VStr "any"); ("loc", span 45 54)]]);
                 ("loc", span 0 56);
                 ("extends", VStr "Animal")]]
          [] false).
Proof. reflexivity. Qed.

Example renamed_import isFlow :
  extract babel_VISITOR_KEYS isFlow import_tree =
    Ok (Metadata []
          [VObj [("type", VStr "import"); ("source", VStr "fs");
                 ("specifiers",
                   VArr [VObj [("type", VStr "named"); ("local", VStr "rf");
                               ("imported", VStr "readFile")]])]]
          false).
Proof. reflexivity. Qed.

Example anonymous_default_export isFlow :
  extract babel_VISITOR_KEYS isFlow anonymous_default_tree = Ok (Metadata [] [] true).
Proof. reflexivity. Qed.

(** C1, as the code has it: for the file [const x = require('path')]
    extraction emits exactly one require Dependency with source "path",
    and exactly one Symbol, the constant Symbol of the binding [x]
    (type tag "const"). *)
Theorem require_binding_dependency_and_constant parse isFlow text filePath :
  parse require_path_source (plugins filePath) = Ok require_path_tree →
  parseFile parse babel_VISITOR_KEYS isFlow text require_path_source filePath =
    Ok (VObj [("symbols", VArr [x_constant]);
              ("dependencies", VArr [require_dependency])]).
Proof.
  intros Hparse. rewrite (parseFile_of_tree _ _ _ _ _ _ _ Hparse). reflexivity.
Qed.

Lemma require_binding_dependency_and_constant_witness :
  parseFile (λ _ _, Ok require_path_tree) babel_VISITOR_KEYS babel_isFlowTypeAnnotation
    not_a_function require_path_source "index.js" =
    Ok (VObj [("symbols", VArr [x_constant]);
              ("dependencies", VArr [require_dependency])]).
Proof.
  apply (require_binding_dependency_and_constant
           (λ _ _, Ok require_path_tree) babel_isFlowTypeAnnotation not_a_function
           "index.js").
  reflexivity.
Defined.

(** C1 as stated fails: the extraction of [const x = require('path')]
    does not leave the binding [x] without a Symbol. *)
Lemma require_binding_without_symbol_refuted :
  ¬ (∃ md, extract babel_VISITOR_KEYS babel_isFlowTypeAnnotation require_path_tree = Ok md
           ∧ dependencies md = [require_dependency]
           ∧ Forall (λ sym, getProp sym "name" ≠ Ok (VStr "x")) (symbols md)).
Proof.
  intros (md & Hmd & _ & Hnone).
  vm_compute in Hmd. injection Hmd as <-.
  apply Forall_inv in Hnone. apply Hnone. reflexivity.
Qed.

(** C2, as the code has it: the file
    [export function add(a, b) { return a + b; }] yields exactly one
    Symbol, named "add", with type tag "fn", params
    [{name:"a",type:"any"}, {name:"b",type:"any"}] in that order,
    returnType "any" (and its source span). *)
Theorem exported_add_symbol parse isFlow text filePath :
  parse add_source (plugins filePath) = Ok add_tree →
  parseFile parse babel_VISITOR_KEYS isFlow text add_source filePath =
    Ok (VObj [("symbols", VArr [add_symbol]); ("dependencies", VArr [])]).
Proof.
  intros Hparse. rewrite (parseFile_of_tree _ _ _ _ _ _ _ Hparse). reflexivity.
Qed.

Lemma exported_add_symbol_witness :
  parseFile (λ _ _, Ok add_tree) babel_VISITOR_KEYS babel_isFlowTypeAnnotation
    not_a_function add_source "math.js" =
    Ok (VObj [("symbols", VArr [add_symbol]); ("dependencies", VArr [])]).
Proof.
  apply (exported_add_symbol (λ _ _, Ok add_tree) babel_isFlowTypeAnnotation
           not_a_function "math.js").
  reflexivity.
Defined.

(** C2 as stated fails: the one Symbol of that file does not carry the
    type tag "function". *)
Lemma exported_add_function_tag_refuted :
  ¬ (∃ md sym, extract babel_VISITOR_KEYS babel_isFlowTypeAnnotation add_tree = Ok md
               ∧ symbols md = [sym]
               ∧ getProp sym "name" = Ok (VStr "add")
               ∧ getProp sym "type" = Ok (VStr "function")
               ∧ getProp sym "params" = Ok add_params
               ∧ getProp sym "returnType" = Ok (VStr "any")).
Proof.
  intros (md & sym & Hmd & Hsyms & _ & Hty & _).
  vm_compute in Hmd. injection Hmd as <-.
  injection Hsyms as <-. vm_compute in Hty. discriminate Hty.
Qed.

(** *** Type annotation resolution *)

(** [getTSTypeName] on a node, with the property reads written as in the
    source. *)
Lemma getTSTypeName_node fs :
  getTSTypeName (VObj fs) =
    let ty := field "type" fs in
    match keyword_name keyword_types ty with
    | Some name => Ok (VStr name)
    | None =>
        if str_is "TSArrayType" ty then
          let* elem := getTSTypeName (field "elementType" fs) in
          Ok (VStr (ToString elem +:+ "[]"))
        else if str_is "TSTypeReference" ty && isType "Identifier" (field "typeName" fs) then
          let* name := getProp (field "typeName" fs) "name" in
          if truthy (field "typeParameters" fs) then
            let* ps := getProp (field "typeParameters" fs) "params" in
            let* params := map_types getTSTypeName ps in
            Ok (VStr (ToString name +:+ "<" +:+ js_join ", " params +:+ ">"))
          else Ok name
        else if str_is "TSUnionType" ty then
          let* names := map_types getTSTypeName (field "types" fs) in
          Ok (VStr (js_join " | " names))
        else if str_is "TSIntersectionType" ty then
          let* names := map_types getTSTypeName (field "types" fs) in
          Ok (VStr (js_join " & " names))
        else Ok (VStr "any")
    end.
Proof.
  cbn [getTSTypeName]. cbv zeta.
  destruct (keyword_name keyword_types (field "type" fs)); [reflexivity|].
  rewrite (with_field_field "elementType") by reflexivity.
  rewrite !(with_field_field "types") by reflexivity.
  destruct (str_is "TSArrayType" (field "type" fs)); [reflexivity|].
  destruct (str_is "TSTypeReference" (field "type" fs)
            && isType "Identifier" (field "typeName" fs)); [|reflexivity].
  destruct (getProp (field "typeName" fs) "name") as [name|e]; [|reflexivity].
  cbn [bind]. rewrite (with_field_field "typeParameters") by reflexivity.
  destruct (truthy (field "typeParameters" fs)) eqn:Htruthy; [|reflexivity].
  unfold map_type_params.
  destruct (field "typeParameters" fs) as [| | | | |s|items|tfs];
    try discriminate Htruthy; try reflexivity.
  rewrite (with_field_field "params") by reflexivity. reflexivity.
Qed.

Lemma wf_tstype_node fs :
  wf_tstype (VObj fs) =
    let ty := field "type" fs in
    if str_is "TSArrayType" ty then wf_tstype (field "elementType" fs)
    else if str_is "TSTypeReference" ty && isType "Identifier" (field "typeName" fs) then
      is_string (prop (field "typeName" fs) "name")
      && (if truthy (field "typeParameters" fs)
          then all_wf wf_tstype (prop (field "typeParameters" fs) "params")
          else true)
    else if str_is "TSUnionType" ty || str_is "TSIntersectionType" ty then
      all_wf wf_tstype (field "types" fs)
    else true.
Proof.
  cbn [wf_tstype]. cbv zeta.
  rewrite (with_field_field "elementType") by reflexivity.
  rewrite (with_field_field "types") by reflexivity.
  rewrite (with_field_field "typeParameters") by reflexivity.
  destruct (field "typeParameters" fs) as [| | | | |s|items|tfs]; try reflexivity.
  rewrite (with_field_field "params") by reflexivity. reflexivity.
Qed.

Lemma mapM_names (f : value → result value) (ok : value → bool) items :
  (∀ x, x ∈ items → ok x = true → ∃ s, f x = Ok (VStr s)) →
  forallb ok items = true →
  ∃ names, mapM f items = Ok names.
Proof.
  induction items as [|x items IH]; intros Hf Hok; simpl.
  - eauto.
  - simpl in Hok. apply andb_true_iff in Hok as [Hx Hrest].
    destruct (Hf x) as (s & ->); [left | exact Hx |].
    simpl. destruct IH as (names & ->); [|exact Hrest|simpl; eauto].
    intros y Hy. apply Hf. right. exact Hy.
Qed.

Lemma map_types_names (P : value → Prop) v :
  (∀ x, P x → wf_tstype x = true → ∃ s, getTSTypeName x = Ok (VStr s)) →
  (∀ x items, v = VArr items → x ∈ items → P x) →
  all_wf wf_tstype v = true →
  ∃ names, map_types getTSTypeName v = Ok names.
Proof.
  intros IH Hsub Hall.
  destruct v as [| | | | | |items|]; try discriminate Hall.
  apply (mapM_names _ wf_tstype); [|exact Hall].
  intros x Hx. apply IH. eapply Hsub; [reflexivity | exact Hx].
Qed.

Lemma getTSTypeName_wf tsType :
  wf_tstype tsType = true → ∃ s, getTSTypeName tsType = Ok (VStr s).
Proof.
  induction tsType as [t IH] using value_size_ind. intros Hwf.
  destruct t as [| | | | | | |fs]; try (simpl; eauto; fail).
  rewrite getTSTypeName_node. rewrite wf_tstype_node in Hwf. cbv zeta in *.
  destruct (keyword_name keyword_types (field "type" fs)); [eauto|].
  destruct (str_is "TSArrayType" (field "type" fs)).
  { destruct (IH (field "elementType" fs)) as (s & ->);
      [apply field_size | exact Hwf | simpl; eauto]. }
  destruct (str_is "TSTypeReference" (field "type" fs)
            && isType "Identifier" (field "typeName" fs)) eqn:Href.
  { apply andb_true_iff in Hwf as [Hname Hparams].
    apply andb_true_iff in Href as [_ Hid].
    destruct (field "typeName" fs) as [| | | | | | |nfs]; try discriminate Hid.
    unfold prop in Hname. cbn [getProp bind] in *.
    destruct (field "name" nfs) as [| | | | |name| |]; try discriminate Hname.
    pose proof (field_size "typeParameters" fs) as Hsize.
    destruct (truthy (field "typeParameters" fs)) eqn:Htruthy; [|eauto].
    unfold prop in Hparams.
    destruct (getProp (field "typeParameters" fs) "params") as [ps|] eqn:Hps;
      [|discriminate Hparams].
    cbn [bind].
    destruct (map_types_names
                (λ x, (weight x < weight (field "typeParameters" fs))%nat) ps)
      as (names & ->); [| |exact Hparams|simpl; eauto].
    - intros x Hx. apply IH. lia.
    - intros x items -> Hx.
      destruct (field "typeParameters" fs) as [| | | | |s|its|tfs];
        try discriminate Htruthy; cbn in Hps; try discriminate Hps.
      injection Hps as Hps. apply item_size in Hx. rewrite <- Hps in Hx.
      pose proof (field_size "params" tfs). lia. }
  assert (all_wf wf_tstype (field "types" fs) = true →
          ∃ names, map_types getTSTypeName (field "types" fs) = Ok names) as Htypes.
  { apply (map_types_names (λ x, (weight x < weight (VObj fs))%nat)).
    - intros x Hx. apply IH, Hx.
    - intros x items Hitems Hx. apply item_size in Hx. rewrite <- Hitems in Hx.
      pose proof (field_size "types" fs). lia. }
  destruct (str_is "TSUnionType" (field "type" fs)).
  { destruct (Htypes Hwf) as (names & ->). simpl. eauto. }
  destruct (str_is "TSIntersectionType" (field "type" fs)).
  { destruct (Htypes Hwf) as (names & ->). simpl. eauto. }
  eauto.
Qed.

Lemma getTSTypeName_unrecognized tsType :
  recognized_tstype tsType = false → getTSTypeName tsType = Ok (VStr "any").
Proof.
  destruct tsType as [| | | | | | |fs]; try reflexivity.
  rewrite getTSTypeName_node. cbn [recognized_tstype]. cbv zeta. intros H.
  repeat (apply orb_false_iff in H as [H ?]).
  destruct (keyword_name keyword_types (field "type" fs)) eqn:Hk.
  { rewrite bool_decide_eq_false in H. exfalso. apply H. eauto. }
  repeat match goal with H : ?c = false |- context [if ?c then _ else _] =>
    rewrite H end.
  reflexivity.
Qed.

Section Resolution.
Context (isFlow : option (value → bool)).

Lemma extractTypeAnnotation_absent a :
  truthy a = false → extractTypeAnnotation isFlow a = Ok (VStr "any").
Proof. intros H. unfold extractTypeAnnotation. rewrite H. reflexivity. Qed.

(** The resolver on an annotation that is there: it looks one level down
    ([typeAnnotation.typeAnnotation || typeAnnotation]); a node tagged
    [TSTypeAnnotation] there is resolved by [getTSTypeName], and for any
    other node the answer depends on the call of [t.isFlowTypeAnnotation]. *)
Lemma extractTypeAnnotation_present a :
  truthy a = true →
  extractTypeAnnotation isFlow a =
    let annotation := js_or (prop a "typeAnnotation") a in
    if isType "TSTypeAnnotation" annotation
    then getTSTypeName (prop annotation "typeAnnotation")
    else match isFlow with
         | Some _ => Ok (VStr "any")
         | None => Throw TypeError
         end.
Proof.
  intros Ha. unfold extractTypeAnnotation. rewrite Ha. cbn [negb].
  rewrite (getProp_truthy a) by exact Ha. cbn [bind]. cbv zeta.
  destruct (isType "TSTypeAnnotation" (js_or (prop a "typeAnnotation") a)) eqn:Hann.
  - rewrite getProp_truthy; [reflexivity|].
    destruct (js_or (prop a "typeAnnotation") a); try discriminate Hann. reflexivity.
  - destruct isFlow as [f|]; cbn [call_member bind]; [|reflexivity].
    destruct (f _); reflexivity.
Qed.
End Resolution.

(** With the namespace as it is, the resolver throws on every annotation
    whose inner node is not itself tagged [TSTypeAnnotation]; the
    front-end puts the type node there. *)
Lemma extractTypeAnnotation_raises a :
  truthy a = true →
  isType "TSTypeAnnotation" (js_or (prop a "typeAnnotation") a) = false →
  extractTypeAnnotation babel_isFlowTypeAnnotation a = Throw TypeError.
Proof.
  intros Ha Hann. rewrite extractTypeAnnotation_present by exact Ha.
  cbv zeta. rewrite Hann. reflexivity.
Qed.

(** C9: type annotation resolution is not total.  On the annotation the
    front-end attaches to the parameter of [function f(x: string) {}] the
    resolver answers neither "string" nor "any" but throws a [TypeError]:
    the node one level down is the type node, which is not tagged
    [TSTypeAnnotation], so the resolver goes on to call
    [t.isFlowTypeAnnotation], which the namespace does not bind. *)
Theorem string_annotation_raises :
  extractTypeAnnotation babel_isFlowTypeAnnotation string_annotation = Throw TypeError.
Proof. apply extractTypeAnnotation_raises; reflexivity. Qed.

(** *** Parameter classification *)

(** C8: the parameter classifier is not total.  The parameter
    [x: string] is an identifier, the first of the five shapes, and the
    classifier throws a [TypeError] on it instead of returning a record:
    the record's [type] is the resolution of the annotation, which
    throws. *)
Theorem annotated_parameter_raises :
  isType "Identifier" typed_param = true
  ∧ extractParamInfo babel_isFlowTypeAnnotation typed_param = Throw TypeError.
Proof. split; reflexivity. Qed.

(** The file of that parameter is not extracted at all: the handler of
    the function declaration throws, and [parseFile] turns that into a
    [ParseError]. *)
Example typed_file_is_rejected parse text :
  parse typed_source (plugins "f.ts") = Ok typed_tree →
  parseFile parse babel_VISITOR_KEYS babel_isFlowTypeAnnotation text typed_source "f.ts"
  = Throw (ParseError ("Failed to parse f.ts: " +:+ text) "f.ts" VNull).
Proof.
  intros Hparse. rewrite (parseFile_of_tree _ _ _ _ _ _ _ Hparse). reflexivity.
Qed.

(** *** Function Symbols and the nodes of the tree *)

Lemma function_names_snoc syms sym :
  function_names (syms ++ [sym]) =
    function_names syms ++ (if is_function_symbol sym then [prop sym "name"] else []).
Proof.
  unfold function_names. rewrite List.filter_app, fmap_app. simpl.
  destruct (is_function_symbol sym); reflexivity.
Qed.

Section Handlers.
Context (isFlow : option (value → bool)).

Lemma exportSpecifiers_fnames items : ∀ md md',
  foldM (exportSpecifier) items md = Ok md' → fnames md' = fnames md.
Proof.
  induction items as [|x items IH]; simpl; intros md md' H.
  - injection H as <-. reflexivity.
  - apply bind_ok in H as (md1 & H1 & H). rewrite (IH _ _ H).
    unfold exportSpecifier in H1. ok_inv. subst md1.
    unfold fnames. simpl. rewrite function_names_snoc. simpl. apply app_nil_r.
Qed.

Lemma handlers_fnames node md md' :
  handlers isFlow node md = Ok md' → fnames md' = fnames md ++ emitted node.
Proof.
  unfold handlers, emitted, function_source, declares_function, binds_function.
  destruct (isType "ImportDeclaration" node) eqn:T1.
  { rewrite (isType_excl _ "FunctionDeclaration" _ T1) by reflexivity.
    rewrite (isType_excl _ "VariableDeclarator" _ T1) by reflexivity.
    unfold onImportDeclaration. intros H. ok_inv. subst md'.
    simpl. symmetry. apply app_nil_r. }
  destruct (isType "CallExpression" node) eqn:T2.
  { rewrite (isType_excl _ "FunctionDeclaration" _ T2) by reflexivity.
    rewrite (isType_excl _ "VariableDeclarator" _ T2) by reflexivity.
    unfold onCallExpression. intros H. ok_inv; subst md'; simpl;
      symmetry; apply app_nil_r. }
  destruct (isType "FunctionDeclaration" node) eqn:T3.
  { rewrite (isType_excl _ "VariableDeclarator" _ T3) by reflexivity.
    destruct (isType_node _ _ T3) as (fs & ->).
    unfold onFunctionDeclaration, declared_name. rewrite !prop_node.
    cbn [getProp bind andb orb]. intros H.
    destruct (truthy (field "id" fs)) eqn:Hid.
    - ok_inv. subst md'. unfold fnames. simpl symbols.
      rewrite function_names_snoc. simpl.
      rewrite (getProp_truthy _ _ Hid) in Hx. injection Hx as <-. reflexivity.
    - injection H as <-. simpl. symmetry. apply app_nil_r. }
  cbn [andb orb].
  destruct (isType "VariableDeclarator" node) eqn:T4.
  { destruct (isType_node _ _ T4) as (fs & ->).
    unfold onVariableDeclarator, declared_name. rewrite !prop_node.
    cbn [getProp bind andb]. intros H.
    destruct (truthy (field "id" fs) && isType "Identifier" (field "id" fs)
              && truthy (field "init" fs)) eqn:Hcond.
    - apply andb_true_iff in Hcond as [Hcond Hinit].
      apply andb_true_iff in Hcond as [Hid Hident].
      cbn [andb].
      destruct (isFunctionValue (field "init" fs)) eqn:Hfun.
      + ok_inv. subst md'. unfold fnames. simpl symbols.
        rewrite function_names_snoc. simpl.
        rewrite (getProp_truthy _ _ Hid) in Hx. injection Hx as <-. reflexivity.
      + unfold isFunctionValue in Hfun. apply orb_false_iff in Hfun as [Ha Hf].
        rewrite Ha, Hf in H. cbn [negb andb] in H. ok_inv. subst md'. unfold fnames. simpl symbols.
        rewrite function_names_snoc. simpl. reflexivity.
    - injection H as <-. cbn [andb]. symmetry. apply app_nil_r. }
  cbn [andb]. intros H. rewrite app_nil_r. revert H.
  destruct (isType "ClassDeclaration" node) eqn:T5.
  { unfold onClassDeclaration. intros H. ok_inv; subst; try reflexivity.
    all: unfold fnames; simpl symbols; rewrite function_names_snoc; simpl.
    all: rewrite app_nil_r; reflexivity. }
  destruct (isType "ExportNamedDeclaration" node) eqn:T6.
  { unfold onExportNamedDeclaration. intros H. ok_inv; [subst; reflexivity|].
    unfold js_forEach in H. destruct x0; try discriminate H.
    apply (exportSpecifiers_fnames _ _ _ H). }
  destruct (isType "ExportDefaultDeclaration" node) eqn:T7.
  { intros [= <-]. reflexivity. }
  intros [= <-]. reflexivity.
Qed.
End Handlers.

Lemma flat_map_emitted nodes :
  flat_map emitted nodes = declared_name <$> List.filter function_source nodes.
Proof.
  induction nodes as [|n nodes IH]; simpl; [reflexivity|].
  unfold emitted at 1. destruct (function_source n); simpl; rewrite IH; reflexivity.
Qed.

Lemma foldM_emits {A} (f : A → metadata → result metadata) (E : A → list value) l :
  (∀ x, x ∈ l → ∀ md md', f x md = Ok md' → fnames md' = fnames md ++ E x) →
  ∀ md md', foldM f l md = Ok md' → fnames md' = fnames md ++ flat_map E l.
Proof.
  induction l as [|x l IH]; intros Hf md md' H; simpl in *.
  - injection H as <-. symmetry. apply app_nil_r.
  - apply bind_ok in H as (md1 & H1 & H).
    rewrite (IH (λ y Hy, Hf y (list_elem_of_further _ _ _ Hy)) _ _ H).
    rewrite (Hf x (list_elem_of_here _ _) _ _ H1). rewrite app_assoc. reflexivity.
Qed.

Section Traversal.
Context (keys : string → list string) (isFlow : option (value → bool)).

Lemma visit_node {S} (enter : value → S → result S) fs st :
  visit keys enter (VObj fs) st =
    let* st1 := enter (VObj fs) st in
    visit_keys keys enter fs (child_keys keys fs) st1.
Proof.
  cbn [visit]. destruct (enter (VObj fs) st) as [st1|e]; [|reflexivity].
  cbn [bind]. unfold visit_keys. apply foldM_ext. intros key st'.
  rewrite with_field_field by reflexivity. reflexivity.
Qed.

Lemma nodes_from_node fs :
  nodes_from keys (VObj fs) =
    VObj fs :: flat_map (λ key, nodes_under keys (field key fs)) (child_keys keys fs).
Proof.
  cbn [nodes_from]. f_equal. apply flat_map_ext. intros key.
  rewrite with_field_field by reflexivity. reflexivity.
Qed.

Lemma visit_fnames node : ∀ md md',
  visit keys (handlers isFlow) node md = Ok md' →
  fnames md' = fnames md ++ flat_map emitted (nodes_from keys node).
Proof.
  induction node as [node IH] using value_size_ind. intros md md' H.
  destruct node as [| | | | | | |fs];
    try (injection H as <-; symmetry; apply app_nil_r).
  rewrite visit_node in H. rewrite nodes_from_node.
  apply bind_ok in H as (md1 & Henter & H).
  apply handlers_fnames in Henter.
  cbn [flat_map]. rewrite flat_map_flat_map.
  apply (foldM_emits _ (λ key, flat_map emitted (nodes_under keys (field key fs)))) in H.
  - rewrite H, Henter, <- app_assoc. reflexivity.
  - clear md md1 md' H Henter. intros key _ md md' H.
    pose proof (field_size key fs) as Hsize.
    destruct (field key fs) as [| | | | | |items|cfs] eqn:Hchild;
      try (injection H as <-; symmetry; apply app_nil_r).
    + cbn [visit_child nodes_under] in *. rewrite flat_map_flat_map.
      apply (foldM_emits _ (λ x, flat_map emitted (nodes_from keys x))) in H;
        [exact H|].
      intros x Hx. apply IH. apply item_size in Hx. lia.
    + cbn [visit_child nodes_under] in *. apply IH; [lia | exact H].
Qed.

(** C3, as the code has it: on every tree whose extraction succeeds, the
    function Symbols are, in traversal order, those of the named function
    declarations entered at any depth (top level or nested inside
    functions and blocks) and of the identifier bindings to an arrow or
    function expression; a function declaration without a name yields no
    Symbol. *)
Theorem function_symbols_of_entered_nodes ast md :
  extract keys isFlow ast = Ok md →
  function_names (symbols md) =
    declared_name <$> List.filter function_source (entered keys ast).
Proof.
  unfold extract, traverse. intros H.
  destruct (truthy ast) eqn:Hast; cbn [negb] in H.
  2:{ injection H as <-. destruct ast; try discriminate Hast; reflexivity. }
  destruct ast as [| | | | | | |fs]; try discriminate H.
  destruct (str_is "Program" (field "type" fs) || str_is "File" (field "type" fs));
    [|discriminate H].
  rewrite <- flat_map_emitted. unfold entered. rewrite flat_map_flat_map.
  unfold visit_keys in H.
  apply (foldM_emits _ (λ key, flat_map emitted (nodes_under keys (field key fs)))) in H;
    [exact H|].
  intros key _ md1 md2 Hk.
  destruct (field key fs) as [| | | | | |items|cfs] eqn:Hchild;
    try (injection Hk as <-; symmetry; apply app_nil_r).
  - cbn [visit_child nodes_under] in *. rewrite flat_map_flat_map.
    apply (foldM_emits _ (λ x, flat_map emitted (nodes_from keys x))) in Hk;
      [exact Hk|].
    intros x _. apply visit_fnames.
  - cbn [visit_child nodes_under] in *. apply visit_fnames, Hk.
Qed.
End Traversal.

Lemma function_symbols_of_entered_nodes_witness :
  function_names (symbols nested_metadata) =
    declared_name <$> List.filter function_source (entered babel_VISITOR_KEYS nested_tree).
Proof.
  apply (function_symbols_of_entered_nodes babel_VISITOR_KEYS babel_isFlowTypeAnnotation).
  reflexivity.
Defined.

(** C3 as stated fails: the declaration nested in the body of [outer]
    yields a function Symbol, so the function Symbols are not those of the
    top-level declarations alone. *)
Lemma nested_declaration_symbol_refuted :
  ¬ (∀ md, extract babel_VISITOR_KEYS babel_isFlowTypeAnnotation nested_tree = Ok md →
           function_names (symbols md) = top_level_function_names nested_tree).
Proof.
  intros H. specialize (H nested_metadata eq_refl).
  vm_compute in H. discriminate H.
Qed.

End ParserSpec.

(** * Properties of the manifest builder *)

Module ManifestSpec.
Import Notions Facts.

(** C7: [buildManifest] rejects an input that is not an array, or is the
    empty array, by throwing [UserInputError]; no manifest is produced. *)
Theorem buildManifest_rejects_empty basename relative now parsedFiles rootPath :
  parsedFiles = VArr [] ∨ (∀ items, parsedFiles ≠ VArr items) →
  buildManifest basename relative now parsedFiles rootPath =
    Throw (UserInputError "No files to process").
Proof.
  intros [-> | Hnot]; [reflexivity |].
  destruct parsedFiles as [| | | | | | items |]; try reflexivity.
  exfalso. apply (Hnot items). reflexivity.
Qed.

Lemma buildManifest_rejects_empty_witness :
  buildManifest (λ s, s) (λ _ s, s) "2024-01-01T00:00:00.000Z" (VArr []) (VStr "/repo") =
    Throw (UserInputError "No files to process").
Proof.
  apply (buildManifest_rejects_empty (λ s, s) (λ _ s, s)).
  left. reflexivity.
Defined.

(** Two runs of the builder and the optimizers on small inputs. *)
Example buildManifest_sample :
  buildManifest (λ p, String.substring 6 4 p) (λ _ p, String.substring 6 4 p)
    "2024-01-01T00:00:00.000Z" (VArr sample_file_results) (VStr "/repo") =
    Ok (VObj
          [("version", VStr "1.0.0");
           ("generated", VStr "2024-01-01T00:00:00.000Z");
           ("rootPath", VStr "/repo");
           ("files",
             VArr [VObj [("path", VStr "a.js"); ("filename", VStr "a.js");
                         ("symbols",
                           VArr [VObj [("name", VStr "f"); ("type", VStr "fn")];
                                 VObj [("name", VStr "c"); ("type", VStr "const")]]);
                         ("dependencies", VArr [require_dependency]);
                         ("hasDefaultExport", VBool false)];
                   VObj [("path", VStr "b.js"); ("filename", VStr "b.js");
                         ("symbols",
                           VArr [VObj [("name", VStr "K"); ("type", VStr "class")]]);
                         ("dependencies", VArr []);
                         ("hasDefaultExport", VBool true)]]);
           ("stats",
             VObj [("totalFiles", VNum 2); ("totalSymbols", VNum 3);
                   ("totalDependencies", VNum 1);
                   ("typeStats",
                     VObj [("functions", VNum 1); ("classes", VNum 1);
                           ("constants", VNum 1); ("exports", VNum 0)])])]).
Proof. reflexivity. Qed.

Example optimizeManifest_sample :
  optimizeManifest sample_manifest =
    VObj [("version", VStr "1.0.0");
          ("rootPath", VStr "/repo");
          ("files",
            VArr [VObj [("path", ref (VNum 0));
                        ("version", VStr "a.js");
                        ("symbols",
                          VArr [VObj [("name", ref (VNum 0)); ("type", ref (VNum 1));
                                      ("loc", VNull)];
                                VObj [("name", ref (VNum 2)); ("type", ref (VNum 1));
                                      ("line", VNum 3)]])]]);
          ("stringTable", VArr [VStr "a.js"; VStr "fn"; VStr "g"])].
Proof. reflexivity. Qed.

Example optimizeForLLM_sample :
  optimizeForLLM
    (VObj [("version", VStr "1.0.0");
           ("generated", VStr "2024-01-01T00:00:00.000Z");
           ("rootPath", VStr "/repo");
           ("files",
             VArr [VObj [("path", VStr "math.js"); ("filename", VStr "math.js");
                         ("symbols", VArr [add_symbol; x_constant]);
                         ("dependencies", VArr [require_dependency]);
                         ("hasDefaultExport", VBool false)]]);
           ("stats", VObj [("totalFiles", VNum 1)])]) =
    Ok (VObj [("version", VStr "1.0.0");
              ("files",
                VArr [VObj [("path", VStr "math.js");
                            ("symbols",
                              VArr [VObj [("name", VStr "add"); ("type", VStr "fn");
                                          ("params", add_params);
                                          ("returnType", VStr "any")];
                                    VObj [("name", VStr "x"); ("type", VStr "const")]]);
                            ("dependencies", VArr [require_dependency]);
                            ("hasDefaultExport", VBool false)]])]).
Proof. reflexivity. Qed.

(** *** Roll-up statistics *)

Section Totals.
Context (basename : string → string) (relative : string → string → string) (now : string).

Lemma sum_lengths_snoc key fl f :
  sum_lengths key (fl ++ [f]) = sum_lengths key fl + seq_length (prop f key).
Proof. induction fl as [|g fl IH]; simpl; [lia | rewrite IH; lia]. Qed.

(** Counting the kinds leaves the files and the two totals alone, and
    succeeds when no symbol is [null] or [undefined]. *)
Lemma countSymbol_frame syms : ∀ p,
  forallb (λ sym, negb (nullish sym)) syms = true →
  ∃ p', foldM countSymbol syms p = Ok p'
        ∧ files p' = files p
        ∧ totalSymbols p' = totalSymbols p
        ∧ totalDependencies p' = totalDependencies p.
Proof.
  induction syms as [|sym syms IH]; intros p Hok; simpl.
  - eauto.
  - simpl in Hok. apply andb_true_iff in Hok as [Hsym Hrest].
    assert (∃ p1, countSymbol sym p = Ok p1 ∧ files p1 = files p
                  ∧ totalSymbols p1 = totalSymbols p
                  ∧ totalDependencies p1 = totalDependencies p) as (p1 & -> & E1 & E2 & E3).
    { unfold countSymbol.
      destruct sym; try discriminate Hsym; simpl;
        repeat match goal with |- context [if ?c then _ else _] => destruct c end;
        eauto. }
    simpl. destruct (IH p1 Hrest) as (p' & -> & F1 & F2 & F3).
    exists p'. repeat split; congruence.
Qed.

Lemma seq_or_absent_default ok v :
  seq_or_absent ok v = true →
  ∃ items, js_or v (VArr []) = VArr items ∧ forallb ok items = true.
Proof.
  unfold js_or. destruct v; simpl; intros H;
    try (apply negb_true_iff in H; rewrite H); try discriminate H; eauto.
Qed.

Lemma processFile_totals root fileData p :
  valid_file_result fileData = true →
  totals_hold p →
  ∃ p', processFile basename relative (VStr root) fileData p = Ok p'
        ∧ totals_hold p' ∧ length (files p') = S (length (files p))
        ∧ ∃ f, files p' = files p ++ [f] ∧ holds_sequences fileData f.
Proof.
  intros Hvalid [Hs Hd].
  destruct fileData as [| | | | | | |fs]; try discriminate Hvalid.
  simpl in Hvalid. apply andb_true_iff in Hvalid as [Hpath Hmeta].
  destruct (field "metadata" fs) as [| | | | | | |ms] eqn:Hm; try discriminate Hmeta.
  apply andb_true_iff in Hmeta as [Hsyms Hdeps].
  unfold processFile. rewrite !getProp_obj, Hm. cbn [bind].
  destruct (field "filePath" fs) as [| | | | |path| |]; try discriminate Hpath.
  cbn [path_basename path_relative bind]. rewrite !getProp_obj. cbn [bind].
  set (syms := field "symbols" ms) in *.
  set (deps := field "dependencies" ms) in *.
  destruct (seq_or_absent_default _ _ Hsyms) as (symbols & Esyms & Hall).
  destruct (seq_or_absent_default _ _ Hdeps) as (dependencies & Edeps & _).
  rewrite Esyms, Edeps.
  cbn [getProp String.eqb Ascii.eqb Bool.eqb bind js_forEach].
  rewrite Hs, Hd. cbn [js_add is_stringy orb ToNumber].
  edestruct (countSymbol_frame symbols) as (p2 & -> & F1 & F2 & F3); [exact Hall|].
  cbn [bind]. eexists. split; [reflexivity|].
  unfold totals_hold. cbn [files totalSymbols totalDependencies] in *.
  rewrite F1, F2, F3. split; [split|split].
  - rewrite sum_lengths_snoc. reflexivity.
  - rewrite sum_lengths_snoc. reflexivity.
  - rewrite length_app. simpl. lia.
  - eexists. split; [reflexivity|]. exists symbols, dependencies.
    rewrite !prop_node, Hm, !prop_node. fold syms deps. auto.
Qed.

Lemma processFiles_totals root items : ∀ p,
  forallb valid_file_result items = true →
  totals_hold p →
  ∃ p', foldM (processFile basename relative (VStr root)) items p = Ok p'
        ∧ totals_hold p'
        ∧ length (files p') = (length (files p) + length items)%nat
        ∧ ∃ fl, files p' = files p ++ fl ∧ Forall2 holds_sequences items fl.
Proof.
  induction items as [|fd items IH]; intros p Hvalid Hp; simpl.
  - exists p. split; [reflexivity|]. split; [exact Hp|]. split; [lia|].
    exists []. rewrite app_nil_r. split; [reflexivity | constructor].
  - simpl in Hvalid. apply andb_true_iff in Hvalid as [Hfd Hrest].
    destruct (processFile_totals root fd p Hfd Hp)
      as (p1 & -> & Hp1 & Hlen1 & f & Hf & Hholds).
    simpl. destruct (IH p1 Hrest Hp1) as (p' & -> & Hp' & Hlen' & fl & Hfl & Hall).
    exists p'. split; [reflexivity|]. split; [exact Hp'|]. split; [lia|].
    exists (f :: fl). rewrite Hfl, Hf, <- app_assoc.
    split; [reflexivity | constructor; assumption].
Qed.

End Totals.

(** C4: for every non-empty sequence of file results, [buildManifest]
    returns a manifest with one FileManifest per file result, in order,
    each holding the [symbols] and the [dependencies] sequence of its file
    result; [stats.totalSymbols] is the sum of the lengths of the
    FileManifests' [symbols] sequences and [stats.totalDependencies] the sum
    of the lengths of their [dependencies] sequences. *)
Theorem buildManifest_totals basename relative now parsedFiles root :
  parsedFiles ≠ [] →
  forallb valid_file_result parsedFiles = true →
  ∃ manifest fileManifests,
    buildManifest basename relative now (VArr parsedFiles) (VStr root) = Ok manifest
    ∧ prop manifest "files" = VArr fileManifests
    ∧ length fileManifests = length parsedFiles
    ∧ Forall2 holds_sequences parsedFiles fileManifests
    ∧ stat manifest "totalSymbols" = VNum (sum_lengths "symbols" fileManifests)
    ∧ stat manifest "totalDependencies" = VNum (sum_lengths "dependencies" fileManifests).
Proof.
  intros Hne Hvalid.
  destruct parsedFiles as [|fd rest]; [congruence|].
  unfold buildManifest.
  destruct (processFiles_totals basename relative root (fd :: rest)
              (Progress [] (VNum 0) (VNum 0) 0 0 0 0) Hvalid)
    as (p & Hp & [Hs Hd] & Hlen & fl & Hfl & Hall); [split; reflexivity|].
  cbn [files app] in Hfl. rewrite <- Hfl in Hall.
  eexists. exists (files p). rewrite Hp. cbn [bind].
  split; [reflexivity|].
  repeat split; [exact Hlen | exact Hall | exact Hs | exact Hd].
Qed.

Lemma buildManifest_totals_witness :
  ∃ manifest fileManifests,
    buildManifest (λ s, s) (λ _ s, s) "2024-01-01T00:00:00.000Z"
      (VArr sample_file_results) (VStr "/repo") = Ok manifest
    ∧ prop manifest "files" = VArr fileManifests
    ∧ length fileManifests = length sample_file_results
    ∧ Forall2 holds_sequences sample_file_results fileManifests
    ∧ stat manifest "totalSymbols" = VNum (sum_lengths "symbols" fileManifests)
    ∧ stat manifest "totalDependencies" = VNum (sum_lengths "dependencies" fileManifests).
Proof.
  apply (buildManifest_totals (λ s, s) (λ _ s, s)); [discriminate | reflexivity].
Defined.

(** *** Idempotence of the LLM projection *)

Lemma mapM_fixed {A} (f : A → result A) l l' :
  (∀ x y, f x = Ok y → f y = Ok y) →
  mapM f l = Ok l' → mapM f l' = Ok l'.
Proof.
  intros Hf. revert l'. induction l as [|x l IH]; intros l' H; simpl in H.
  - injection H as <-. reflexivity.
  - apply bind_ok in H as (y & Hy & H). apply bind_ok in H as (ys & Hys & H).
    injection H as <-. simpl. rewrite (Hf _ _ Hy). simpl.
    rewrite (IH _ Hys). reflexivity.
Qed.

Lemma js_map_fixed f v w :
  (∀ x y, f x = Ok y → f y = Ok y) →
  js_map f v = Ok w → ∃ l, w = VArr l ∧ mapM f l = Ok l.
Proof.
  intros Hf H. destruct v; simpl in H; try discriminate.
  apply bind_ok in H as (ys & Hys & H). injection H as <-.
  exists ys. split; [reflexivity|]. apply (mapM_fixed _ _ _ Hf Hys).
Qed.

Ltac fixed_map lem :=
  repeat match goal with
  | H : js_map _ _ = Ok _ |- _ =>
      apply (js_map_fixed _ _ _ lem) in H as (? & -> & H)
  end.

Ltac settle :=
  cbn;
  repeat (match goal with
          | H : str_is _ _ = _ |- _ => rewrite H
          | H : mapM _ _ = _ |- _ => rewrite H
          | H : truthy _ = _ |- _ => rewrite H
          | |- context [_ && false] => rewrite andb_false_r
          end; cbn);
  try reflexivity.

Lemma simplifyProperty_fixed p q :
  simplifyProperty p = Ok q → simplifyProperty q = Ok q.
Proof.
  unfold simplifyProperty. intros H. ok_inv. subst q. reflexivity.
Qed.

Lemma simplifyParam_fixed p q :
  simplifyParam p = Ok q → simplifyParam q = Ok q.
Proof.
  unfold simplifyParam. intros H.
  destruct (truthy p) eqn:Hp; simpl in H.
  2:{ injection H as <-. reflexivity. }
  ok_inv; fixed_map simplifyProperty_fixed; subst.
  all: match goal with
       | H : getProp _ "hasDefault" = Ok ?d |- _ => destruct (truthy d) eqn:?
       end; settle.
Qed.

Lemma simplifyParams_fixed v w :
  simplifyParams v = Ok w → simplifyParams w = Ok w.
Proof.
  unfold simplifyParams. intros H.
  ok_inv; fixed_map simplifyParam_fixed; subst; settle.
Qed.

Lemma simplifyField_fixed f g :
  simplifyField f = Ok g → simplifyField g = Ok g.
Proof.
  unfold simplifyField. intros H. ok_inv. subst g. reflexivity.
Qed.

Lemma simplifyMethod_fixed m n :
  simplifyMethod m = Ok n → simplifyMethod n = Ok n.
Proof.
  unfold simplifyMethod. intros H. ok_inv. subst n. cbn.
  erewrite simplifyParams_fixed by eassumption. reflexivity.
Qed.

Lemma simplifySymbol_fixed s t :
  simplifySymbol s = Ok t → simplifySymbol t = Ok t.
Proof.
  unfold simplifySymbol. intros H.
  ok_inv; fixed_map simplifyField_fixed; fixed_map simplifyMethod_fixed; subst.
  all: try match goal with
         | H : getProp _ "extends" = Ok ?e |- _ => destruct (truthy e) eqn:?
         end.
  all: settle.
  all: erewrite simplifyParams_fixed by eassumption; reflexivity.
Qed.

Lemma simplifyFile_fixed f g :
  simplifyFile f = Ok g → simplifyFile g = Ok g.
Proof.
  unfold simplifyFile. intros H.
  ok_inv; fixed_map simplifySymbol_fixed; subst; settle.
Qed.

(** C6: the LLM simplification is idempotent.  Running [optimizeForLLM]
    on its own output returns that output unchanged; when the first run
    throws, so does the composition, with the same exception. *)
Theorem optimizeForLLM_idempotent manifest :
  (let* simplified := optimizeForLLM manifest in optimizeForLLM simplified)
  = optimizeForLLM manifest.
Proof.
  destruct (optimizeForLLM manifest) as [simplified|e] eqn:H; [|reflexivity].
  simpl. unfold optimizeForLLM in *.
  ok_inv; fixed_map simplifyFile_fixed; subst; settle.
Qed.

(** *** String interning *)

Lemma String_eqb_false k k' : k ≠ k' → String.eqb k k' = false.
Proof. intros H. apply String.eqb_neq, H. Qed.

Lemma obj_set_fresh k v fs : k ∉ fs.*1 → obj_set k v fs = fs ++ [(k, v)].
Proof.
  induction fs as [|[k' v'] fs IH]; simpl; intros Hk; [reflexivity|].
  apply not_elem_of_cons in Hk as [Hne Hk].
  rewrite String_eqb_false by congruence. rewrite IH by exact Hk. reflexivity.
Qed.

Section Entries.
Context (rec : value → interner → value * interner).

Lemma process_entries_cons key v entries acc st :
  process_entries rec ((key, v) :: entries) acc st =
    let '(r, st1) := entry_value rec key v st in
    process_entries rec entries (obj_set key r acc) st1.
Proof.
  cbn [process_entries]. unfold entry_value.
  destruct (excluded key); [reflexivity|].
  destruct (is_string v); reflexivity.
Qed.

Lemma process_entries_map entries : ∀ acc st,
  NoDup (acc.*1 ++ entries.*1) →
  process_entries rec entries acc st =
    let '(out, st') := map_entries rec entries st in (acc ++ out, st').
Proof.
  induction entries as [|[key v] entries IH]; intros acc st Hnd.
  - simpl. rewrite app_nil_r. reflexivity.
  - rewrite process_entries_cons. cbn [map_entries].
    destruct (entry_value rec key v st) as [r st1].
    cbn [fmap list_fmap fst] in Hnd.
    apply NoDup_app in Hnd as (Hacc & Hdisj & Hent).
    apply NoDup_cons in Hent as [Hkey Hent].
    assert (key ∉ acc.*1) as Hfresh.
    { intros Hin. apply (Hdisj _ Hin). left. }
    rewrite obj_set_fresh by exact Hfresh. rewrite IH.
    + destruct (map_entries rec entries st1) as [out st2].
      rewrite <- app_assoc. reflexivity.
    + rewrite fmap_app. cbn [fmap list_fmap fst]. apply NoDup_app.
      split; [|split].
      * apply NoDup_app. split; [exact Hacc|]. split; [|apply NoDup_singleton].
        intros x Hx Hx'. apply list_elem_of_singleton in Hx'. subst. auto.
      * intros x Hx Hx'. apply elem_of_app in Hx as [Hx|Hx].
        -- apply (Hdisj _ Hx). right. exact Hx'.
        -- apply list_elem_of_singleton in Hx. subst. auto.
      * exact Hent.
Qed.

Lemma process_entries_state entries : ∀ acc st,
  (process_entries rec entries acc st).2 = (map_entries rec entries st).2.
Proof.
  induction entries as [|[key v] entries IH]; intros acc st; [reflexivity|].
  rewrite process_entries_cons. cbn [map_entries].
  destruct (entry_value rec key v st) as [r st1]. rewrite IH.
  destruct (map_entries rec entries st1); reflexivity.
Qed.
End Entries.

Lemma processObject_obj fs st :
  NoDup fs.*1 →
  processObject (VObj fs) st =
    let '(out, st') := map_entries processObject fs st in (VObj out, st').
Proof.
  intros Hnd. cbn [processObject].
  rewrite process_entries_map by exact Hnd.
  destruct (map_entries processObject fs st); reflexivity.
Qed.


(** The table does not depend on the fields with an excluded key. *)
Lemma is_string_strip v : is_string (strip v) = is_string v.
Proof. destruct v; reflexivity. Qed.

Lemma strip_string v : is_string v = true → strip v = v.
Proof. destruct v; try discriminate; reflexivity. Qed.

Lemma processObject_strip_state v : ∀ st,
  (processObject v st).2 = (processObject (strip v) st).2.
Proof.
  induction v as [| | | | | |items IH|fs IH] using value_ind; intros st;
    try reflexivity.
  - cbn [processObject strip].
    assert (∀ st, (process_items processObject items st).2
                  = (process_items processObject (map strip items) st).2) as H.
    { clear st. induction IH as [|x items Hx _ IHitems]; intros st; [reflexivity|].
      cbn [process_items map]. specialize (Hx st).
      destruct (processObject x st) as [r st1].
      destruct (processObject (strip x) st) as [r' st1']. simpl in Hx. subst st1'.
      specialize (IHitems st1).
      destruct (process_items processObject items st1).
      destruct (process_items processObject (map strip items) st1).
      exact IHitems. }
    specialize (H st).
    destruct (process_items processObject items st).
    destruct (process_items processObject (map strip items) st). exact H.
  - cbn [processObject strip].
    assert (∀ st, (map_entries processObject fs st).2
                  = (map_entries processObject (strip_fields strip fs) st).2) as H.
    { clear st. induction IH as [|[key v] fs Hv _ IHfs]; intros st; [reflexivity|].
      cbn [map_entries strip_fields]. unfold entry_value.
      destruct (excluded key) eqn:Hex.
      - specialize (IHfs st). destruct (map_entries processObject fs st). exact IHfs.
      - cbn [map_entries]. unfold entry_value. rewrite Hex, is_string_strip.
        destruct (is_string v) eqn:Hs.
        + rewrite (strip_string v Hs).
          destruct (internString v st) as [r st1]. specialize (IHfs st1).
          destruct (map_entries processObject fs st1).
          destruct (map_entries processObject (strip_fields strip fs) st1).
          exact IHfs.
        + simpl in Hv. specialize (Hv st).
          destruct (processObject v st) as [r st1].
          destruct (processObject (strip v) st) as [r' st1']. simpl in Hv. subst st1'.
          specialize (IHfs st1).
          destruct (map_entries processObject fs st1).
          destruct (map_entries processObject (strip_fields strip fs) st1).
          exact IHfs. }
    specialize (H st). rewrite <- !process_entries_state with (acc := []) in H.
    destruct (process_entries processObject fs [] st).
    destruct (process_entries processObject (strip_fields strip fs) [] st).
    exact H.
Qed.

(** An excluded key reads the same before and after. *)
Lemma map_entries_excluded rec key fs : ∀ st,
  excluded key = true →
  find_field key (map_entries rec fs st).1 = find_field key fs.
Proof.
  induction fs as [|[k v] fs IH]; intros st Hex; [reflexivity|].
  cbn [map_entries]. destruct (entry_value rec k v st) as [r st1] eqn:Hr.
  specialize (IH st1 Hex). destruct (map_entries rec fs st1) as [out st2].
  cbn [fst find_field] in *. destruct (String.eqb k key) eqn:Hk; [|exact IH].
  apply String.eqb_eq in Hk. subst k. unfold entry_value in Hr.
  rewrite Hex in Hr. injection Hr as <- _. reflexivity.
Qed.

(** What a field of the output is, in terms of the field of the input. *)
Lemma map_entries_field rec key fs : ∀ st child,
  find_field key fs = Some child →
  ∃ st1, find_field key (map_entries rec fs st).1
         = Some (entry_value rec key child st1).1.
Proof.
  induction fs as [|[k v] fs IH]; intros st child Hfind; [discriminate|].
  cbn [map_entries]. destruct (entry_value rec k v st) as [r st1] eqn:Hr.
  cbn [find_field] in Hfind.
  destruct (String.eqb k key) eqn:Hk.
  - injection Hfind as ->. apply String.eqb_eq in Hk. subst k.
    exists st. destruct (map_entries rec fs st1). cbn [fst find_field].
    rewrite String.eqb_refl, Hr. reflexivity.
  - destruct (IH st1 child Hfind) as (st2 & Hst2). exists st2.
    destruct (map_entries rec fs st1). cbn [fst find_field] in *.
    rewrite Hk. exact Hst2.
Qed.

Lemma process_items_lookup items : ∀ st i x,
  items !! i = Some x →
  ∃ st1, (process_items processObject items st).1 !! i
         = Some (processObject x st1).1.
Proof.
  induction items as [|y items IH]; intros st i x Hi; [discriminate|].
  cbn [process_items]. destruct (processObject y st) as [r st1] eqn:Hr.
  destruct i as [|i].
  - injection Hi as ->. exists st.
    destruct (process_items processObject items st1). rewrite Hr. reflexivity.
  - destruct (IH st1 i x Hi) as (st2 & Hst2). exists st2.
    destruct (process_items processObject items st1). exact Hst2.
Qed.

Lemma at_path_snoc p : ∀ v fs key val,
  at_path p v = Some (VObj fs) → find_field key fs = Some val →
  at_path (p ++ [Key key]) v = Some val.
Proof.
  induction p as [|s p IH]; intros v fs key val Hp Hk.
  - injection Hp as ->. simpl. rewrite Hk. reflexivity.
  - destruct s as [k|i]; destruct v; try discriminate Hp; cbn [at_path app] in *.
    + destruct (find_field k fields); [|discriminate Hp]. eapply IH; eassumption.
    + destruct (items !! i); [|discriminate Hp]. eapply IH; eassumption.
Qed.

Lemma js_value_field k fs child :
  js_value (VObj fs) = true → find_field k fs = Some child → js_value child = true.
Proof.
  cbn [js_value]. intros H Hk. apply andb_true_iff in H as [_ H].
  induction fs as [|[k' v] fs IH]; [discriminate|].
  cbn [forallb find_field] in *. apply andb_true_iff in H as [Hv H].
  destruct (String.eqb k' k).
  - injection Hk as <-. apply andb_true_iff in Hv as [_ Hv]. exact Hv.
  - apply IH; assumption.
Qed.

Lemma js_value_item items i x :
  js_value (VArr items) = true → items !! i = Some x → js_value x = true.
Proof.
  cbn [js_value]. rewrite forallb_forall. intros H Hi. apply H.
  apply list_elem_of_In. eapply list_elem_of_lookup_2, Hi.
Qed.

Lemma js_value_keys fs : js_value (VObj fs) = true → NoDup fs.*1.
Proof.
  cbn [js_value]. intros H. apply andb_true_iff in H as [H _].
  apply bool_decide_eq_true in H. exact H.
Qed.

Lemma excluded_verbatim p : ∀ v st fs key val,
  js_value v = true →
  at_path p v = Some (VObj fs) →
  excluded key = true →
  find_field key fs = Some val →
  at_path (p ++ [Key key]) (processObject v st).1 = Some val.
Proof.
  induction p as [|s p IH]; intros v st fs key val Hjs Hp Hex Hk.
  - injection Hp as ->. rewrite processObject_obj by (apply js_value_keys, Hjs).
    pose proof (map_entries_excluded processObject key fs st Hex) as Hout.
    destruct (map_entries processObject fs st) as [out st']. cbn [fst] in *.
    simpl. rewrite Hout, Hk. reflexivity.
  - destruct s as [k|i]; destruct v as [| | | | | |items|fs0]; try discriminate Hp;
      cbn [at_path] in Hp.
    + destruct (find_field k fs0) as [child|] eqn:Hchild; [|discriminate Hp].
      rewrite processObject_obj by (apply js_value_keys, Hjs).
      destruct (map_entries_field processObject k fs0 st child Hchild) as (st1 & Hout).
      destruct (map_entries processObject fs0 st) as [out st']. cbn [fst] in *.
      cbn [app at_path]. rewrite Hout. unfold entry_value.
      destruct (excluded k).
      { eapply at_path_snoc; eassumption. }
      destruct (is_string child) eqn:Hs.
      { destruct child; try discriminate Hs. destruct p as [|[?|?] ?]; discriminate Hp. }
      apply (IH child st1 fs key val); try assumption.
      eapply js_value_field; eassumption.
    + destruct (items !! i) as [child|] eqn:Hchild; [|discriminate Hp].
      cbn [processObject].
      destruct (process_items_lookup items st i child Hchild) as (st1 & Hout).
      destruct (process_items processObject items st) as [out st']. cbn [fst] in *.
      cbn [app at_path]. rewrite Hout.
      apply (IH child st1 fs key val); try assumption.
      eapply js_value_item; eassumption.
Qed.


(** *** The table and the references into it *)

Lemma consistent_empty : consistent (Interner [] ∅).
Proof.
  unfold consistent. intros s i. cbn [stringMap stringTable].
  rewrite lookup_empty. split; discriminate.
Qed.

Lemma internString_spec s st r st' :
  consistent st →
  internString (VStr s) st = (r, st') →
  consistent st'
  ∧ stringTable st `prefix_of` stringTable st'
  ∧ ∃ i, r = ref (VNum (Z.of_nat i)) ∧ stringTable st' !! i = Some s.
Proof.
  intros Hc. cbn [internString].
  destruct (bool_decide (is_Some (stringMap st !! s))) eqn:Hhas.
  - apply bool_decide_eq_true in Hhas as [i Hi]. rewrite Hi. intros [= <- <-].
    split; [exact Hc|]. split; [reflexivity|].
    exists i. split; [reflexivity|]. apply Hc, Hi.
  - apply bool_decide_eq_false in Hhas. cbn [stringMap stringTable].
    rewrite lookup_insert_eq. intros [= <- <-]. cbn [stringTable].
    assert (stringMap st !! s = None) as Hnone.
    { destruct (stringMap st !! s) eqn:E; [|reflexivity]. exfalso. apply Hhas. eauto. }
    split; [|split].
    + intros s' i'. cbn [stringMap stringTable].
      destruct (decide (s = s')) as [<-|Hne].
      * rewrite lookup_insert_eq. split.
        -- intros [= <-]. apply list_lookup_middle. reflexivity.
        -- intros Hi'. f_equal.
           destruct (decide (i' < length (stringTable st))%nat) as [Hlt|Hge].
           ++ rewrite lookup_app_l in Hi' by exact Hlt. apply Hc in Hi'. congruence.
           ++ apply lookup_lt_Some in Hi'. rewrite length_app in Hi'. simpl in Hi'. lia.
      * rewrite lookup_insert_ne by exact Hne. split.
        -- intros Hi'. apply Hc in Hi'.
           rewrite lookup_app_l; [exact Hi'|]. eapply lookup_lt_Some, Hi'.
        -- intros Hi'. apply Hc.
           destruct (decide (i' < length (stringTable st))%nat) as [Hlt|Hge].
           ++ rewrite lookup_app_l in Hi' by exact Hlt. exact Hi'.
           ++ pose proof (lookup_lt_Some _ _ _ Hi') as Hlen.
              rewrite length_app in Hlen. simpl in Hlen.
              assert (i' = length (stringTable st)) as -> by lia.
              rewrite list_lookup_middle in Hi' by reflexivity. congruence.
    + apply prefix_app_r. reflexivity.
    + exists (length (stringTable st)). split; [reflexivity|].
      apply list_lookup_middle. reflexivity.
Qed.

Lemma is_ref_keys fs : "$ref" ∉ fs.*1 → is_ref (VObj fs) = None.
Proof.
  destruct fs as [|[k v] fs]; [reflexivity|].
  cbn [fmap list_fmap fst]. intros H. apply not_elem_of_cons in H as [H _].
  cbn [is_ref]. destruct v, fs; try reflexivity.
  rewrite String_eqb_false by congruence. reflexivity.
Qed.

Lemma no_key_keys k fs : no_key k (VObj fs) = true → k ∉ fs.*1.
Proof.
  cbn [no_key]. induction fs as [|[k' v] fs IH]; intros H.
  - apply not_elem_of_nil.
  - cbn [forallb fst] in H. apply andb_true_iff in H as [Hk H].
    apply andb_true_iff in Hk as [Hk _]. apply negb_true_iff, String.eqb_neq in Hk.
    cbn [fmap list_fmap fst]. apply not_elem_of_cons. split; [congruence | apply IH, H].
Qed.

Lemma decode_plain table v : no_key "$ref" v = true → decode table v = v.
Proof.
  induction v as [| | | | | |items IH|fs IH] using value_ind; intros Hno;
    try reflexivity.
  - cbn [decode]. f_equal. cbn [no_key] in Hno.
    induction IH as [|x items Hx _ IHitems]; [reflexivity|].
    cbn [forallb map] in *. apply andb_true_iff in Hno as [Hnx Hno].
    rewrite Hx by exact Hnx. rewrite IHitems by exact Hno. reflexivity.
  - cbn [decode]. rewrite (is_ref_keys fs (no_key_keys _ _ Hno)). f_equal.
    cbn [no_key] in Hno.
    induction IH as [|[k v] fs Hv _ IHfs]; [reflexivity|].
    cbn [forallb map] in *. apply andb_true_iff in Hno as [Hnv Hno].
    apply andb_true_iff in Hnv as [_ Hnv]. cbn [fst snd] in *.
    rewrite Hv by exact Hnv. rewrite IHfs by exact Hno. reflexivity.
Qed.

Lemma decode_ref table i s :
  table !! i = Some s → decode table (ref (VNum (Z.of_nat i))) = VStr s.
Proof.
  intros Hi. unfold ref. cbn [decode is_ref]. 
  replace (String.eqb "$ref" "$ref") with true by reflexivity.
  replace (0 <=? Z.of_nat i) with true by (symmetry; apply Z.leb_le; lia).
  cbn [andb]. rewrite Nat2Z.id, Hi. reflexivity.
Qed.

Lemma map_entries_decodes fs :
  Forall (λ kv, decodes kv.2) fs →
  ∀ st out st',
    forallb (λ kv, negb (String.eqb kv.1 "__proto__") && js_value kv.2) fs = true →
    forallb (λ kv, negb (String.eqb kv.1 "$ref") && no_key "$ref" kv.2) fs = true →
    consistent st →
    map_entries processObject fs st = (out, st') →
    consistent st'
    ∧ stringTable st `prefix_of` stringTable st'
    ∧ out.*1 = fs.*1
    ∧ ∀ table, stringTable st' `prefix_of` table →
        map (λ kv, (kv.1, decode table kv.2)) out = fs.
Proof.
  induction 1 as [|[key v] fs Hv _ IH]; intros st out st' Hjs Hno Hc Hrun.
  - injection Hrun as <- <-.
    split; [exact Hc|]. split; [reflexivity|]. split; [reflexivity|]. reflexivity.
  - cbn [map_entries forallb fst snd] in *.
    apply andb_true_iff in Hjs as [Hjv Hjs]. apply andb_true_iff in Hjv as [_ Hjv].
    apply andb_true_iff in Hno as [Hnv Hno]. apply andb_true_iff in Hnv as [_ Hnv].
    destruct (entry_value processObject key v st) as [r st1] eqn:Hentry.
    destruct (map_entries processObject fs st1) as [out1 st2] eqn:Hrest.
    injection Hrun as <- <-.
    assert (consistent st1
            ∧ stringTable st `prefix_of` stringTable st1
            ∧ ∀ table, stringTable st1 `prefix_of` table → decode table r = v)
      as (Hc1 & Hp1 & Hd1).
    { unfold entry_value in Hentry. destruct (excluded key).
      - injection Hentry as <- <-. split; [exact Hc|]. split; [reflexivity|].
        intros table _. apply decode_plain, Hnv.
      - destruct (is_string v) eqn:Hs.
        + destruct v; try discriminate Hs.
          destruct (internString_spec _ _ _ _ Hc Hentry) as (Hc1 & Hp1 & i & -> & Hi).
          split; [exact Hc1|]. split; [exact Hp1|].
          intros table Hpre. apply decode_ref.
          eapply prefix_lookup_Some; eassumption.
        + apply (Hv st r st1 Hjv Hnv Hc Hentry). }
    destruct (IH st1 out1 st2 Hjs Hno Hc1 Hrest) as (Hc2 & Hp2 & Hkeys & Hd2).
    split; [exact Hc2|]. split; [etrans; eassumption|].
    split; [cbn; f_equal; exact Hkeys|].
    intros table Hpre. cbn [map fst snd]. rewrite Hd2 by exact Hpre.
    rewrite Hd1; [reflexivity|]. etrans; eassumption.
Qed.

Lemma processObject_decodes v : decodes v.
Proof.
  induction v as [| | | | | |items IH|fs IH] using value_ind;
    intros st r st' Hjs Hno Hc Hrun;
    try (injection Hrun as <- <-;
         split; [exact Hc|]; split; [reflexivity|]; reflexivity).
  - cbn [processObject] in Hrun.
    destruct (process_items processObject items st) as [out st1] eqn:Hitems.
    injection Hrun as <- <-. cbn [js_value no_key] in *.
    assert (consistent st1 ∧ stringTable st `prefix_of` stringTable st1
            ∧ ∀ table, stringTable st1 `prefix_of` table → map (decode table) out = items)
      as (Hc1 & Hp1 & Hd1).
    { clear -IH Hjs Hno Hc Hitems. revert st out st1 Hjs Hno Hc Hitems.
      induction IH as [|x items Hx _ IHitems]; intros st out st1 Hjs Hno Hc Hitems.
      - injection Hitems as <- <-.
        split; [exact Hc|]. split; [reflexivity|]. reflexivity.
      - cbn [process_items forallb] in *.
        apply andb_true_iff in Hjs as [Hjx Hjs].
        apply andb_true_iff in Hno as [Hnx Hno].
        destruct (processObject x st) as [r st2] eqn:Hr.
        destruct (process_items processObject items st2) as [rs st3] eqn:Hrs.
        injection Hitems as <- <-.
        destruct (Hx st r st2 Hjx Hnx Hc Hr) as (Hc2 & Hp2 & Hd2).
        destruct (IHitems st2 rs st3 Hjs Hno Hc2 Hrs) as (Hc3 & Hp3 & Hd3).
        split; [exact Hc3|]. split; [etrans; eassumption|].
        intros table Hpre. cbn [map]. rewrite Hd3 by exact Hpre.
        rewrite Hd2; [reflexivity|]. etrans; eassumption. }
    split; [exact Hc1|]. split; [exact Hp1|].
    intros table Hpre. cbn [decode]. rewrite Hd1 by exact Hpre. reflexivity.
  - rewrite processObject_obj in Hrun by (apply js_value_keys, Hjs).
    destruct (map_entries processObject fs st) as [out st1] eqn:Hentries.
    injection Hrun as <- <-.
    pose proof Hjs as Hjs'. cbn [js_value] in Hjs'.
    apply andb_true_iff in Hjs' as [_ Hjs'].
    pose proof Hno as Hno'. cbn [no_key] in Hno'.
    destruct (map_entries_decodes fs IH st out st1 Hjs' Hno' Hc Hentries)
      as (Hc1 & Hp1 & Hkeys & Hd1).
    split; [exact Hc1|]. split; [exact Hp1|].
    intros table Hpre. cbn [decode].
    rewrite is_ref_keys by (rewrite Hkeys; apply no_key_keys, Hno).
    rewrite Hd1 by exact Hpre. reflexivity.
Qed.

Lemma find_field_None k fs : find_field k fs = None ↔ k ∉ fs.*1.
Proof.
  induction fs as [|[k' v] fs IH]; cbn [find_field fmap list_fmap fst].
  - split; [intros _; apply not_elem_of_nil | reflexivity].
  - rewrite not_elem_of_cons. destruct (String.eqb k' k) eqn:Hk.
    + apply String.eqb_eq in Hk. split; [discriminate | intros [H _]; congruence].
    + apply String.eqb_neq in Hk. rewrite IH. split; [split; [congruence|assumption]|tauto].
Qed.

Lemma find_field_app_l k l l' v :
  find_field k l = Some v → find_field k (l ++ l') = Some v.
Proof.
  induction l as [|[k' w] l IH]; [discriminate|]. cbn [find_field app].
  destruct (String.eqb k' k); [trivial | exact IH].
Qed.

Lemma find_field_app_r k l l' :
  find_field k l = None → find_field k (l ++ l') = find_field k l'.
Proof.
  induction l as [|[k' w] l IH]; [reflexivity|]. cbn [find_field app].
  destruct (String.eqb k' k); [discriminate | exact IH].
Qed.

Lemma map_entries_keys rec fs : ∀ st, (map_entries rec fs st).1.*1 = fs.*1.
Proof.
  induction fs as [|[k v] fs IH]; intros st; [reflexivity|].
  cbn [map_entries]. destruct (entry_value rec k v st) as [r st1].
  specialize (IH st1). destruct (map_entries rec fs st1).
  cbn in *. f_equal. exact IH.
Qed.

Lemma strings_of_table table : strings_of (VArr (VStr <$> table)) = table.
Proof.
  cbn [strings_of]. induction table as [|s table IH]; [reflexivity|].
  cbn. f_equal. exact IH.
Qed.

Lemma without_field_absent k fs :
  find_field k fs = None → without_field k fs = fs.
Proof.
  induction fs as [|[k' v] fs IH]; [reflexivity|]. cbn [find_field without_field List.filter fst].
  destruct (String.eqb k' k); [discriminate|]. cbn [negb]. intros H.
  f_equal. apply IH, H.
Qed.

Lemma without_field_last k v fs :
  find_field k fs = None → without_field k (fs ++ [(k, v)]) = fs.
Proof.
  intros H. unfold without_field. rewrite List.filter_app.
  fold (without_field k fs). rewrite without_field_absent by exact H.
  cbn. rewrite String.eqb_refl. cbn. apply app_nil_r.
Qed.

(** [optimizeManifest] on an object without a [stringTable] of its own. *)
Lemma optimizeManifest_obj fs :
  interning_input (VObj fs) = true →
  ∃ out st,
    map_entries processObject fs (Interner [] ∅) = (out, st)
    ∧ find_field "stringTable" out = None
    ∧ optimizeManifest (VObj fs)
      = VObj (out ++ [("stringTable", VArr (VStr <$> stringTable st))]).
Proof.
  cbn [interning_input]. intros H. apply andb_true_iff in H as [Hjs Hst].
  apply bool_decide_eq_true in Hst.
  unfold optimizeManifest. rewrite processObject_obj by (apply js_value_keys, Hjs).
  pose proof (map_entries_keys processObject fs (Interner [] ∅)) as Hkeys.
  destruct (map_entries processObject fs (Interner [] ∅)) as [out st].
  cbn [fst] in Hkeys. exists out, st. split; [reflexivity|].
  assert (find_field "stringTable" out = None) as Hout.
  { apply find_field_None. rewrite Hkeys. apply find_field_None, Hst. }
  split; [exact Hout|]. cbn [spread].
  rewrite obj_set_fresh by (apply find_field_None, Hout). reflexivity.
Qed.

(** C5: for every manifest, replacing each [{$ref: i}] of the output of
    [optimizeManifest] by the [i]-th entry of the produced [stringTable]
    gives the input manifest back exactly, and the fields [version],
    [generated] and [rootPath] of the manifest are carried through
    untouched. *)
Theorem interning_round_trip manifest :
  manifest_shaped manifest = true →
  restore (optimizeManifest manifest) = manifest
  ∧ ∀ key, excluded key = true →
      prop (optimizeManifest manifest) key = prop manifest key.
Proof.
  unfold manifest_shaped. intros H. apply andb_true_iff in H as [Hin Hno].
  destruct manifest as [| | | | | | |fs]; try discriminate Hin.
  destruct (optimizeManifest_obj fs Hin) as (out & st & Hrun & Hout & ->).
  cbn [interning_input] in Hin. apply andb_true_iff in Hin as [Hjs Hst].
  apply bool_decide_eq_true in Hst.
  split.
  - cbn [restore]. unfold field. rewrite find_field_app_r by exact Hout.
    cbn [find_field]. rewrite String.eqb_refl. cbn [default from_option id].
    rewrite strings_of_table, without_field_last by exact Hout.
    destruct (processObject_decodes (VObj fs) (Interner [] ∅) (VObj out) st)
      as (_ & _ & Hdecode); [exact Hjs | exact Hno | apply consistent_empty | |].
    + rewrite processObject_obj by (apply js_value_keys, Hjs). rewrite Hrun. reflexivity.
    + apply Hdecode. reflexivity.
  - intros key Hex. rewrite !prop_node. unfold field.
    pose proof (map_entries_excluded processObject key fs (Interner [] ∅) Hex) as Hk.
    rewrite Hrun in Hk. cbn [fst] in Hk.
    destruct (find_field key fs) as [val|] eqn:Hfs.
    + rewrite (find_field_app_l _ _ _ _ Hk). reflexivity.
    + rewrite find_field_app_r by exact Hk. cbn [find_field].
      replace (String.eqb "stringTable" key) with false; [reflexivity|].
      symmetry. apply String.eqb_neq. intros <-. discriminate Hex.
Qed.

Lemma interning_round_trip_witness :
  restore (optimizeManifest sample_manifest) = sample_manifest
  ∧ ∀ key, excluded key = true →
      prop (optimizeManifest sample_manifest) key = prop sample_manifest key.
Proof.
  apply (interning_round_trip sample_manifest). reflexivity.
Defined.

(** C10: the exclusion of [version], [generated] and [rootPath] is by key
    name at every nesting depth.  For every object found at any position
    inside the manifest, a field with one of the three names reads in the
    output, at the same position, exactly what it held in the input; and
    the string table is the one the manifest without those fields
    produces, so their values are never interned. *)
Theorem excluded_keys_at_every_depth manifest :
  interning_input manifest = true →
  (∀ p fs key val,
     at_path p manifest = Some (VObj fs) →
     excluded key = true →
     find_field key fs = Some val →
     at_path (p ++ [Key key]) (optimizeManifest manifest) = Some val)
  ∧ prop (optimizeManifest manifest) "stringTable"
    = prop (optimizeManifest (strip manifest)) "stringTable".
Proof.
  intros Hin. split.
  - intros p fs key val Hp Hex Hk.
    destruct manifest as [| | | | | | |fs0]; try discriminate Hin.
    destruct (optimizeManifest_obj fs0 Hin) as (out & st & Hrun & Hout & ->).
    cbn [interning_input] in Hin. apply andb_true_iff in Hin as [Hjs _].
    pose proof (excluded_verbatim p (VObj fs0) (Interner [] ∅) fs key val Hjs Hp Hex Hk)
      as Hverb.
    rewrite processObject_obj in Hverb by (apply js_value_keys, Hjs).
    rewrite Hrun in Hverb. cbn [fst] in Hverb.
    destruct (p ++ [Key key]) as [|[k|i] q] eqn:Hq.
    + destruct p; discriminate Hq.
    + cbn [at_path] in *.
      destruct (find_field k out) as [child|] eqn:Hchild; [|discriminate Hverb].
      rewrite (find_field_app_l _ _ _ _ Hchild). exact Hverb.
    + discriminate Hverb.
  - unfold optimizeManifest.
    pose proof (processObject_strip_state manifest (Interner [] ∅)) as Hstate.
    destruct (processObject manifest (Interner [] ∅)) as [r st].
    destruct (processObject (strip manifest) (Interner [] ∅)) as [r' st'].
    cbn [snd] in Hstate. subst st'. rewrite !prop_node. unfold field.
    assert (∀ v fs, find_field "stringTable" (obj_set "stringTable" v fs) = Some v) as Hset.
    { intros v fs. induction fs as [|[k w] fs IH]; cbn [obj_set find_field].
      - rewrite String.eqb_refl. reflexivity.
      - destruct (String.eqb k "stringTable") eqn:Hk; cbn [find_field]; rewrite Hk;
          [reflexivity | exact IH]. }
    rewrite !Hset. reflexivity.
Qed.

Lemma excluded_keys_at_every_depth_witness :
  (∀ p fs key val,
     at_path p sample_manifest = Some (VObj fs) →
     excluded key = true →
     find_field key fs = Some val →
     at_path (p ++ [Key key]) (optimizeManifest sample_manifest) = Some val)
  ∧ prop (optimizeManifest sample_manifest) "stringTable"
    = prop (optimizeManifest (strip sample_manifest)) "stringTable".
Proof.
  apply (excluded_keys_at_every_depth sample_manifest). reflexivity.
Defined.

End ManifestSpec.

(** * Further properties of the extractor *)

Module ParserMore.
Import Trees Notions Views Facts ParserSpec.

Lemma foldl_flat_map {A B T} (F : T → B → T) (f : A → list B) l : ∀ t,
  foldl F t (flat_map f l) = foldl (λ t x, foldl F t (f x)) t l.
Proof.
  induction l as [|x l IH]; intros t; simpl; [reflexivity|].
  rewrite foldl_app. apply IH.
Qed.

Lemma foldM_fold {X S T} (f : X → S → result S) (G : S → T) (F : T → X → T) l :
  (∀ x, x ∈ l → ∀ st st', f x st = Ok st' → G st' = F (G st) x) →
  ∀ st st', foldM f l st = Ok st' → G st' = foldl F (G st) l.
Proof.
  induction l as [|x l IH]; intros Hf st st' H; simpl in *.
  - injection H as <-. reflexivity.
  - apply bind_ok in H as (st1 & H1 & H).
    rewrite (IH (λ y Hy, Hf y (list_elem_of_further _ _ _ Hy)) _ _ H).
    rewrite (Hf x (list_elem_of_here _ _) _ _ H1). reflexivity.
Qed.

Section Fold.
Context {S T : Type} (keys : string → list string).
Context (enter : value → S → result S) (G : S → T) (A : T → value → T).
Hypothesis enter_step : ∀ node st st', enter node st = Ok st' → G st' = A (G st) node.

Lemma visit_fold node : ∀ st st',
  visit keys enter node st = Ok st' → G st' = foldl A (G st) (nodes_from keys node).
Proof.
  induction node as [node IH] using value_size_ind. intros st st' H.
  destruct node as [| | | | | | |fs]; try (injection H as <-; reflexivity).
  rewrite visit_node in H. rewrite nodes_from_node.
  apply bind_ok in H as (st1 & Henter & H).
  apply enter_step in Henter. cbn [foldl]. rewrite foldl_flat_map, <- Henter.
  apply (foldM_fold _ G (λ t key, foldl A t (nodes_under keys (field key fs)))) in H;
    [exact H|].
  clear st st1 st' H Henter. intros key _ st st' H.
  pose proof (field_size key fs) as Hsize.
  destruct (field key fs) as [| | | | | |items|cfs] eqn:Hchild;
    try (injection H as <-; reflexivity).
  - cbn [visit_child nodes_under] in *. rewrite foldl_flat_map.
    apply (foldM_fold _ G (λ t x, foldl A t (nodes_from keys x))) in H; [exact H|].
    intros x Hx. apply IH. apply item_size in Hx. lia.
  - cbn [visit_child nodes_under] in *. apply IH; [lia | exact H].
Qed.

Lemma traverse_fold ast st st' :
  traverse keys enter ast st = Ok st' → G st' = foldl A (G st) (entered keys ast).
Proof.
  unfold traverse. intros H.
  destruct (truthy ast) eqn:Hast; cbn [negb] in H.
  2:{ injection H as <-. destruct ast; try discriminate Hast; reflexivity. }
  destruct ast as [| | | | | | |fs]; try discriminate H.
  destruct (str_is "Program" (field "type" fs) || str_is "File" (field "type" fs));
    [|discriminate H].
  unfold entered. rewrite foldl_flat_map. unfold visit_keys in H.
  apply (foldM_fold _ G (λ t key, foldl A t (nodes_under keys (field key fs)))) in H;
    [exact H|].
  intros key _ st1 st2 Hk.
  destruct (field key fs) as [| | | | | |items|cfs] eqn:Hchild;
    try (injection Hk as <-; reflexivity).
  - cbn [visit_child nodes_under] in *. rewrite foldl_flat_map.
    apply (foldM_fold _ G (λ t x, foldl A t (nodes_from keys x))) in Hk; [exact Hk|].
    intros x _. apply visit_fold.
  - cbn [visit_child nodes_under] in *. apply visit_fold, Hk.
Qed.
End Fold.

Lemma mapM_Forall2 {A B} (f : A → result B) l : ∀ l',
  mapM f l = Ok l' → Forall2 (λ x y, f x = Ok y) l l'.
Proof.
  induction l as [|x l IH]; intros l' H; cbn [mapM] in H.
  - injection H as <-. constructor.
  - apply bind_ok in H as (y & Hy & H). apply bind_ok in H as (ys & Hys & H).
    injection H as <-. constructor; auto.
Qed.

Lemma js_map_Forall2 f v out :
  js_map f v = Ok out →
  ∃ items items', v = VArr items ∧ out = VArr items'
                  ∧ Forall2 (λ x y, f x = Ok y) items items'.
Proof.
  destruct v; try discriminate. cbn [js_map]. intros H.
  apply bind_ok in H as (ys & Hys & H). injection H as <-.
  do 2 eexists. split; [reflexivity|]. split; [reflexivity|].
  apply mapM_Forall2, Hys.
Qed.

Lemma prop_ok v k x : getProp v k = Ok x → prop v k = x.
Proof. unfold prop. intros ->. reflexivity. Qed.

Lemma symbol_view_push sym md :
  symbol_view (push_symbol sym md) = symbol_view md ++ [(prop sym "type", prop sym "name")].
Proof. unfold symbol_view. simpl. rewrite fmap_app. reflexivity. Qed.

Lemma dependency_view_push dep md :
  dependency_view (push_dependency dep md)
  = dependency_view md ++ [(prop dep "type", prop dep "source")].
Proof. unfold dependency_view. simpl. rewrite fmap_app. reflexivity. Qed.

Lemma exportSpecifiers_view items : ∀ md md',
  foldM exportSpecifier items md = Ok md' →
  symbol_view md' =
    symbol_view md
    ++ ((λ spec, (VStr "export", prop (prop spec "exported") "name")) <$> items)
  ∧ dependencies md' = dependencies md
  ∧ hasDefaultExport md' = hasDefaultExport md.
Proof.
  induction items as [|x items IH]; simpl; intros md md' H.
  - injection H as <-. rewrite app_nil_r. auto.
  - apply bind_ok in H as (md1 & H1 & H). destruct (IH _ _ H) as (Hs & Hd & Hf).
    rewrite Hs, Hd, Hf. clear IH H Hs Hd Hf.
    unfold exportSpecifier in H1. ok_inv. subst md1.
    rewrite symbol_view_push. cbn [push_symbol dependencies hasDefaultExport].
    rewrite <- app_assoc. cbn [app]. rewrite !prop_node. cbn.
    rewrite (prop_ok _ _ _ Hx), (prop_ok _ _ _ Hx0). auto.
Qed.

Ltac other_type H :=
  repeat match goal with
  | |- context [isType ?b ?v] =>
      lazymatch type of H with
      | isType ?a v = true =>
          lazymatch a with
          | b => fail
          | _ => rewrite (isType_excl a b v H) by reflexivity
          end
      end
  end.

Section View.
Context (isFlow : option (value → bool)).

Lemma handlers_view node md md' :
  handlers isFlow node md = Ok md' → view md' = enter_view (view md) node.
Proof.
  unfold handlers, view, enter_view, declared, referenced, is_require_call.
  cbn [fst snd].
  destruct (isType "ImportDeclaration" node) eqn:T1.
  { other_type T1. cbn [orb]. destruct (isType_node _ _ T1) as (fs & ->).
    unfold onImportDeclaration. rewrite !prop_node. cbn [getProp bind]. intros H.
    ok_inv. subst md'. rewrite dependency_view_push. rewrite !prop_node. cbn.
    rewrite (prop_ok _ _ _ Hx), app_nil_r, orb_false_r. reflexivity. }
  destruct (isType "CallExpression" node) eqn:T2.
  { other_type T2. cbn [orb andb]. rewrite app_nil_r, orb_false_r.
    destruct (isType_node _ _ T2) as (fs & ->).
    unfold onCallExpression, first_argument. rewrite !prop_node.
    cbn [getProp bind]. intros H.
    destruct (isIdentifierNamed "require" (field "callee" fs)); cbn [andb].
    2:{ injection H as <-. rewrite app_nil_r. reflexivity. }
    apply bind_ok in H as (len & Hlen & H). rewrite (prop_ok _ _ _ Hlen).
    destruct (num_is 1 len); cbn [andb].
    2:{ injection H as <-. rewrite app_nil_r. reflexivity. }
    apply bind_ok in H as (arg0 & Harg & H). rewrite Harg.
    destruct (isType "StringLiteral" arg0).
    2:{ injection H as <-. rewrite app_nil_r. reflexivity. }
    ok_inv. subst md'. rewrite dependency_view_push. rewrite !prop_node. cbn.
    rewrite (prop_ok _ _ _ Hx). reflexivity. }
  cbn [andb]. rewrite (app_nil_r (dependency_view md)).
  destruct (isType "FunctionDeclaration" node) eqn:T3.
  { other_type T3. rewrite orb_false_r.
    destruct (isType_node _ _ T3) as (fs & ->).
    unfold onFunctionDeclaration, declared_name. rewrite !prop_node.
    cbn [getProp bind]. intros H.
    destruct (truthy (field "id" fs)) eqn:Hid.
    - ok_inv. subst md'. rewrite symbol_view_push. rewrite !prop_node. cbn.
      rewrite (prop_ok _ _ _ Hx). reflexivity.
    - injection H as <-. rewrite app_nil_r. reflexivity. }
  destruct (isType "VariableDeclarator" node) eqn:T4.
  { other_type T4. rewrite orb_false_r.
    destruct (isType_node _ _ T4) as (fs & ->).
    unfold onVariableDeclarator, declared_name. rewrite !prop_node.
    cbn [getProp bind]. intros H.
    destruct (truthy (field "id" fs) && isType "Identifier" (field "id" fs)
              && truthy (field "init" fs)) eqn:Hcond.
    - destruct (isFunctionValue (field "init" fs)) eqn:Hfun.
      + ok_inv. subst md'. rewrite symbol_view_push. rewrite !prop_node. cbn.
        rewrite (prop_ok _ _ _ Hx). reflexivity.
      + unfold isFunctionValue in Hfun. apply orb_false_iff in Hfun as [Ha Hf].
        rewrite Ha, Hf in H. cbn [negb andb] in H. ok_inv. subst md'.
        rewrite symbol_view_push. rewrite !prop_node. cbn.
        rewrite (prop_ok _ _ _ Hx). reflexivity.
    - injection H as <-. rewrite app_nil_r. reflexivity. }
  destruct (isType "ClassDeclaration" node) eqn:T5.
  { other_type T5. rewrite orb_false_r.
    destruct (isType_node _ _ T5) as (fs & ->).
    unfold onClassDeclaration, declared_name. rewrite !prop_node.
    cbn [getProp bind]. intros H.
    destruct (truthy (field "id" fs)) eqn:Hid.
    2:{ injection H as <-. rewrite app_nil_r. reflexivity. }
    ok_inv; subst; rewrite symbol_view_push; rewrite !prop_node; cbn;
      rewrite (prop_ok _ _ _ Hx); reflexivity. }
  destruct (isType "ExportNamedDeclaration" node) eqn:T6.
  { other_type T6. rewrite orb_false_r.
    destruct (isType_node _ _ T6) as (fs & ->).
    unfold onExportNamedDeclaration. rewrite !prop_node.
    cbn [getProp bind]. intros H.
    destruct (truthy (field "declaration" fs)).
    { injection H as <-. rewrite app_nil_r. reflexivity. }
    unfold js_forEach in H. destruct (field "specifiers" fs); try discriminate H.
    destruct (exportSpecifiers_view _ _ _ H) as (Hs & Hd & Hf).
    unfold dependency_view. rewrite Hs, Hd, Hf. reflexivity. }
  rewrite app_nil_r.
  destruct (isType "ExportDefaultDeclaration" node) eqn:T7.
  { intros [= <-]. cbn. rewrite orb_true_r. reflexivity. }
  intros [= <-]. rewrite orb_false_r. reflexivity.
Qed.
End View.

Lemma foldl_enter_view nodes : ∀ t,
  foldl enter_view t nodes =
    (t.1.1 ++ flat_map declared nodes, t.1.2 ++ flat_map referenced nodes,
     t.2 || existsb (isType "ExportDefaultDeclaration") nodes).
Proof.
  induction nodes as [|n nodes IH]; intros [[a b] c]; cbn [foldl fst snd flat_map existsb].
  - rewrite !app_nil_r, orb_false_r. reflexivity.
  - rewrite IH. unfold enter_view. cbn [fst snd].
    rewrite <- !app_assoc, <- orb_assoc. reflexivity.
Qed.

Lemma extract_view keys isFlow ast md :
  extract keys isFlow ast = Ok md →
  view md =
    (flat_map declared (entered keys ast), flat_map referenced (entered keys ast),
     existsb (isType "ExportDefaultDeclaration") (entered keys ast)).
Proof.
  unfold extract. intros H.
  apply (traverse_fold keys (handlers isFlow) view enter_view (handlers_view isFlow)) in H.
  rewrite H, foldl_enter_view. reflexivity.
Qed.

Lemma declared_tags node :
  Forall (λ kn, symbol_tag kn.1 = true) (declared node).
Proof.
  unfold declared.
  repeat match goal with
         | |- context [if ?c then _ else _] => destruct c
         | |- Forall _ (match ?v with _ => _ end) => destruct v
         end;
    try apply Forall_nil_2; try (apply Forall_singleton; reflexivity).
  apply Forall_fmap, Forall_true. reflexivity.
Qed.

Lemma referenced_tags node :
  Forall (λ kn, dependency_tag kn.1 = true) (referenced node).
Proof.
  unfold referenced.
  repeat match goal with |- Forall _ (if ?c then _ else _) => destruct c end;
    try apply Forall_nil_2; apply Forall_singleton; reflexivity.
Qed.

Lemma Forall_flat_map {A B} (P : B → Prop) (f : A → list B) l :
  (∀ x, Forall P (f x)) → Forall P (flat_map f l).
Proof.
  intros Hf. induction l as [|x l IH]; simpl; [constructor|].
  apply Forall_app. split; [apply Hf | exact IH].
Qed.

Section Extraction.
Context (keys : string → list string) (isFlow : option (value → bool)).

(** X1: on every tree whose extraction succeeds, the Symbols are, in
    traversal order and by kind and name, those of the nodes entered: a
    function per named function declaration and per identifier bound to an
    arrow or function expression, a constant per identifier bound to any
    other initializer, a class per named class declaration, an export per
    specifier of a named export that wraps no declaration; nothing else
    yields a Symbol. *)
Theorem symbols_of_entered_nodes ast md :
  extract keys isFlow ast = Ok md →
  symbol_view md = flat_map declared (entered keys ast).
Proof.
  intros H. apply extract_view in H. unfold view in H. congruence.
Qed.

(** X2: the Dependencies are, in traversal order and by kind and source,
    one import per import declaration and one require per call of the
    identifier [require] with exactly one argument that is a string
    literal, at any depth; no other call and no other node adds one. *)
Theorem dependencies_of_entered_nodes ast md :
  extract keys isFlow ast = Ok md →
  dependency_view md = flat_map referenced (entered keys ast).
Proof.
  intros H. apply extract_view in H. unfold view in H. congruence.
Qed.

(** X3: [hasDefaultExport] is set exactly when the traversal enters a
    default export declaration. *)
Theorem default_export_flag ast md :
  extract keys isFlow ast = Ok md →
  hasDefaultExport md = existsb (isType "ExportDefaultDeclaration") (entered keys ast).
Proof.
  intros H. apply extract_view in H. unfold view in H. congruence.
Qed.

Lemma extract_tagged ast md :
  extract keys isFlow ast = Ok md →
  Forall (λ sym, symbol_tag (prop sym "type") = true) (symbols md)
  ∧ Forall (λ dep, dependency_tag (prop dep "type") = true) (dependencies md).
Proof.
  intros H. apply extract_view in H. unfold view in H.
  injection H as Hs Hd _. split.
  - pose proof (Forall_flat_map (λ kn : value * value, symbol_tag kn.1 = true)
                  declared (entered keys ast) declared_tags) as Hall.
    rewrite <- Hs in Hall. unfold symbol_view in Hall.
    apply Forall_fmap in Hall. exact Hall.
  - pose proof (Forall_flat_map (λ kn : value * value, dependency_tag kn.1 = true)
                  referenced (entered keys ast) referenced_tags) as Hall.
    rewrite <- Hd in Hall. unfold dependency_view in Hall.
    apply Forall_fmap in Hall. exact Hall.
Qed.

(** X4: every Symbol of a successful extraction carries one of the tags
    "fn", "class", "const", "export", and every Dependency one of "import",
    "require". *)
Theorem extracted_tags ast md :
  extract keys isFlow ast = Ok md →
  Forall (λ sym, symbol_tag (prop sym "type") = true) (symbols md)
  ∧ Forall (λ dep, dependency_tag (prop dep "type") = true) (dependencies md).
Proof. exact (extract_tagged ast md). Qed.
End Extraction.

Lemma symbols_of_entered_nodes_witness :
  symbol_view nested_metadata = flat_map declared (entered babel_VISITOR_KEYS nested_tree).
Proof.
  apply (symbols_of_entered_nodes babel_VISITOR_KEYS babel_isFlowTypeAnnotation). reflexivity.
Defined.

Lemma dependencies_of_entered_nodes_witness :
  dependency_view require_path_metadata =
    flat_map referenced (entered babel_VISITOR_KEYS require_path_tree).
Proof.
  apply (dependencies_of_entered_nodes babel_VISITOR_KEYS babel_isFlowTypeAnnotation). reflexivity.
Defined.

Lemma default_export_flag_witness :
  hasDefaultExport (Metadata [] [] true) =
    existsb (isType "ExportDefaultDeclaration")
      (entered babel_VISITOR_KEYS anonymous_default_tree).
Proof.
  apply (default_export_flag babel_VISITOR_KEYS babel_isFlowTypeAnnotation). reflexivity.
Defined.

Lemma extracted_tags_witness :
  Forall (λ sym, symbol_tag (prop sym "type") = true) (symbols require_path_metadata)
  ∧ Forall (λ dep, dependency_tag (prop dep "type") = true)
      (dependencies require_path_metadata).
Proof.
  apply (extracted_tags babel_VISITOR_KEYS babel_isFlowTypeAnnotation require_path_tree). reflexivity.
Defined.

Lemma mapM_length {A B} (f : A → result B) l ys :
  mapM f l = Ok ys → length ys = length l.
Proof.
  revert ys. induction l as [|x l IH]; simpl; intros ys H.
  - injection H as <-. reflexivity.
  - ok_inv. subst ys. simpl. f_equal. apply IH. assumption.
Qed.

Section Params.
Context (isFlow : option (value → bool)).

Lemma arrayPatternElements_kept items : ∀ mapped,
  mapM (arrayPatternElement isFlow) items = Ok mapped →
  names_of (List.filter truthy mapped)
  = names_of (List.filter (isType "Identifier") items)
  ∧ Forall (λ r, record_fields r = ["name"; "type"]) (List.filter truthy mapped).
Proof.
  induction items as [|e items IH]; simpl; intros mapped H.
  - injection H as <-. split; [reflexivity | constructor].
  - apply bind_ok in H as (r & Hr & H). apply bind_ok in H as (rs & Hrs & H).
    injection H as <-. destruct (IH _ Hrs) as (Hnames & Hall). clear IH.
    unfold arrayPatternElement in Hr.
    destruct (isType "Identifier" e) eqn:He.
    + destruct (isType_node _ _ He) as (fs & ->). cbn [truthy andb] in Hr.
      ok_inv. subst r. cbn. split.
      * unfold names_of in *. cbn. rewrite Hnames.
        cbn in Hx. injection Hx as <-. reflexivity.
      * constructor; [reflexivity | exact Hall].
    + rewrite andb_false_r in Hr. injection Hr as <-. cbn. auto.
Qed.

(** X5: an object pattern keeps one entry per property, in order; an
    array pattern keeps an entry, [{name, type}], for each element that is
    an identifier and drops every other element (holes, nested patterns,
    defaulted and rest elements), so the entries are not aligned with the
    positions of the pattern. *)
Theorem destructured_parameter_entries param r :
  extractParamInfo isFlow param = Ok r →
  (isType "ObjectPattern" param = true →
   ∃ props recs,
     prop param "properties" = VArr props ∧ prop r "properties" = VArr recs
     ∧ length recs = length props)
  ∧ (isType "ArrayPattern" param = true →
     ∃ elems recs,
       prop param "elements" = VArr elems ∧ prop r "elements" = VArr recs
       ∧ names_of recs = names_of (List.filter (isType "Identifier") elems)
       ∧ Forall (λ rec, record_fields rec = ["name"; "type"]) recs).
Proof.
  intros H. split; intros Hty.
  - unfold extractParamInfo in H.
    rewrite (isType_excl _ "Identifier" _ Hty) in H by reflexivity.
    rewrite (isType_excl _ "AssignmentPattern" _ Hty) in H by reflexivity.
    rewrite Hty in H. destruct (isType_node _ _ Hty) as (fs & ->).
    unfold paramObjectPattern in H. cbn [getProp bind] in H. rewrite prop_node.
    destruct (field "properties" fs) as [| | | | | |props|]; try discriminate H.
    cbn [js_map] in H. ok_inv. subst. exists props, x0.
    split; [reflexivity|]. split; [reflexivity|]. eapply mapM_length. eassumption.
  - unfold extractParamInfo in H.
    rewrite (isType_excl _ "Identifier" _ Hty) in H by reflexivity.
    rewrite (isType_excl _ "AssignmentPattern" _ Hty) in H by reflexivity.
    rewrite (isType_excl _ "ObjectPattern" _ Hty) in H by reflexivity.
    rewrite Hty in H. destruct (isType_node _ _ Hty) as (fs & ->).
    unfold paramArrayPattern in H. cbn [getProp bind] in H. rewrite prop_node.
    destruct (field "elements" fs) as [| | | | | |elems|]; try discriminate H.
    ok_inv. subst r. exists elems, (List.filter truthy x).
    destruct (arrayPatternElements_kept _ _ Hx) as (Hnames & Hall).
    split; [reflexivity|]. split; [reflexivity|]. split; assumption.
Qed.
End Params.

Lemma destructured_parameter_entries_witness :
  (isType "ObjectPattern" array_pattern_param = true →
   ∃ props recs,
     prop array_pattern_param "properties" = VArr props
     ∧ prop array_pattern_record "properties" = VArr recs
     ∧ length recs = length props)
  ∧ (isType "ArrayPattern" array_pattern_param = true →
     ∃ elems recs,
       prop array_pattern_param "elements" = VArr elems
       ∧ prop array_pattern_record "elements" = VArr recs
       ∧ names_of recs = names_of (List.filter (isType "Identifier") elems)
       ∧ Forall (λ rec, record_fields rec = ["name"; "type"]) recs).
Proof.
  apply (destructured_parameter_entries babel_isFlowTypeAnnotation). reflexivity.
Defined.

(** X6: [extractLocation] keeps the line and column of the two ends of a
    location and nothing else, and applied to its own result it returns
    that result. *)
Theorem extractLocation_idempotent loc l :
  extractLocation loc = Ok l →
  extractLocation l = Ok l
  ∧ (l = VNull
     ∨ (record_fields l = ["start"; "end"]
        ∧ record_fields (prop l "start") = ["line"; "column"]
        ∧ record_fields (prop l "end") = ["line"; "column"]
        ∧ prop (prop l "start") "line" = prop (prop loc "start") "line"
        ∧ prop (prop l "start") "column" = prop (prop loc "start") "column"
        ∧ prop (prop l "end") "line" = prop (prop loc "end") "line"
        ∧ prop (prop l "end") "column" = prop (prop loc "end") "column")).
Proof.
  unfold extractLocation at 1. destruct (truthy loc) eqn:Hloc; cbn [negb].
  2:{ intros [= <-]. split; [reflexivity | left; reflexivity]. }
  intros H. ok_inv. subst l. split; [reflexivity|]. right.
  rewrite (prop_ok _ _ _ Hx), (prop_ok _ _ _ Hx2).
  rewrite (prop_ok _ _ _ Hx0), (prop_ok _ _ _ Hx1), (prop_ok _ _ _ Hx3), (prop_ok _ _ _ Hx4).
  repeat split.
Qed.

Lemma extractLocation_idempotent_witness :
  extractLocation (span 6 25) = Ok (span 6 25)
  ∧ (span 6 25 = VNull
     ∨ (record_fields (span 6 25) = ["start"; "end"]
        ∧ record_fields (prop (span 6 25) "start") = ["line"; "column"]
        ∧ record_fields (prop (span 6 25) "end") = ["line"; "column"]
        ∧ prop (prop (span 6 25) "start") "line" = prop (prop (babel_loc 6 25) "start") "line"
        ∧ prop (prop (span 6 25) "start") "column" = prop (prop (babel_loc 6 25) "start") "column"
        ∧ prop (prop (span 6 25) "end") "line" = prop (prop (babel_loc 6 25) "end") "line"
        ∧ prop (prop (span 6 25) "end") "column" = prop (prop (babel_loc 6 25) "end") "column")).
Proof.
  apply (extractLocation_idempotent (babel_loc 6 25)). reflexivity.
Defined.

Section ClassSymbol.
Context (isFlow : option (value → bool)).

Lemma memberName_ok key name :
  memberName key = Ok name →
  name = (if isType "Identifier" key then prop key "name"
          else if isType "StringLiteral" key then prop key "value"
          else VStr "computed").
Proof.
  unfold memberName.
  destruct (isType "Identifier" key); [intros H; symmetry; apply prop_ok, H|].
  destruct (isType "StringLiteral" key); [intros H; symmetry; apply prop_ok, H|].
  intros [= <-]. reflexivity.
Qed.

Lemma classMembers_names members : ∀ acc acc',
  foldM (classMember isFlow) members acc = Ok acc' →
  names_of acc'.1 = names_of acc.1
                    ++ (member_name <$> List.filter (isType "ClassProperty") members)
  ∧ names_of acc'.2 = names_of acc.2
                      ++ (member_name <$> List.filter (isType "ClassMethod") members).
Proof.
  induction members as [|m members IH]; simpl; intros acc acc' H.
  - injection H as <-. rewrite !app_nil_r. auto.
  - apply bind_ok in H as (acc1 & H1 & H). destruct (IH _ _ H) as (Hf & Hm).
    rewrite Hf, Hm. clear IH H Hf Hm. unfold classMember in H1.
    destruct (isType "ClassMethod" m) eqn:Tm.
    + rewrite (isType_excl _ "ClassProperty" _ Tm) by reflexivity.
      destruct (isType_node _ _ Tm) as (fs & ->). cbn [getProp bind] in H1.
      ok_inv. subst acc1. cbn [fst snd]. unfold names_of. rewrite fmap_app.
      rewrite <- app_assoc. cbn. split; [reflexivity|].
      unfold member_name. rewrite prop_node.
      match goal with H : memberName _ = Ok _ |- _ =>
        rewrite (memberName_ok _ _ H) end. reflexivity.
    + destruct (isType "ClassProperty" m) eqn:Tp.
      * destruct (isType_node _ _ Tp) as (fs & ->). cbn [getProp bind] in H1.
        ok_inv. subst acc1. cbn [fst snd]. unfold names_of. rewrite fmap_app.
        rewrite <- app_assoc. cbn. split; [|reflexivity].
        unfold member_name. rewrite prop_node.
        match goal with H : memberName _ = Ok _ |- _ =>
        rewrite (memberName_ok _ _ H) end. reflexivity.
      * injection H1 as <-. auto.
Qed.

(** X7: the handler of a named class declaration adds exactly one
    Symbol; its fields are the class properties of the body and its
    methods the class methods, each in body order and under the name of
    its key (members of any other kind are dropped); [extends] is the
    superclass when that is a plain identifier and is absent otherwise. *)
Theorem class_symbol_members node md md' :
  isType "ClassDeclaration" node = true →
  truthy (prop node "id") = true →
  handlers isFlow node md = Ok md' →
  ∃ sym members fields methods,
    symbols md' = symbols md ++ [sym]
    ∧ prop (prop node "body") "body" = VArr members
    ∧ prop sym "fields" = VArr fields
    ∧ prop sym "methods" = VArr methods
    ∧ names_of fields = member_name <$> List.filter (isType "ClassProperty") members
    ∧ names_of methods = member_name <$> List.filter (isType "ClassMethod") members
    ∧ prop sym "extends" = superclass_name node.
Proof.
  intros Hty Hid. unfold handlers.
  rewrite (isType_excl _ "ImportDeclaration" _ Hty) by reflexivity.
  rewrite (isType_excl _ "CallExpression" _ Hty) by reflexivity.
  rewrite (isType_excl _ "FunctionDeclaration" _ Hty) by reflexivity.
  rewrite (isType_excl _ "VariableDeclarator" _ Hty) by reflexivity.
  rewrite Hty. destruct (isType_node _ _ Hty) as (fs & ->).
  unfold onClassDeclaration, superclass_name. rewrite !prop_node in *.
  cbn [getProp bind]. rewrite Hid. intros H.
  apply bind_ok in H as (name & Hname & H).
  apply bind_ok in H as (loc & Hloc & H).
  apply bind_ok in H as (meta & Hmeta & H).
  apply bind_ok in H as (members & Hmembers & H).
  apply bind_ok in H as (acc & Hacc & H). injection H as <-.
  rewrite (prop_ok _ _ _ Hmembers).
  unfold js_forEach in Hacc. destruct members as [| | | | | |members|];
    try discriminate Hacc.
  destruct (classMembers_names _ _ _ Hacc) as (Hf & Hm). cbn in Hf, Hm.
  eexists. exists members, acc.1, acc.2.
  split; [reflexivity|]. split; [reflexivity|].
  destruct (isType "Identifier" (field "superClass" fs)) eqn:Hsup.
  - destruct (isType_node _ _ Hsup) as (sfs & Hs). rewrite Hs in *.
    cbn [truthy andb getProp bind] in Hmeta. injection Hmeta as <-.
    cbn. auto.
  - rewrite andb_false_r in Hmeta. injection Hmeta as <-. cbn. auto.
Qed.
End ClassSymbol.

Lemma class_symbol_members_witness :
  ∃ sym members fields methods,
    symbols (Metadata [dog_symbol] [] false) = symbols (Metadata [] [] false) ++ [sym]
    ∧ prop (prop dog_declaration "body") "body" = VArr members
    ∧ prop sym "fields" = VArr fields
    ∧ prop sym "methods" = VArr methods
    ∧ names_of fields = member_name <$> List.filter (isType "ClassProperty") members
    ∧ names_of methods = member_name <$> List.filter (isType "ClassMethod") members
    ∧ prop sym "extends" = superclass_name dog_declaration.
Proof.
  apply (class_symbol_members babel_isFlowTypeAnnotation dog_declaration); reflexivity.
Defined.

Section Imports.
Context (isFlow : option (value → bool)).

Lemma importSpecifier_same spec record :
  importSpecifier spec = Ok record → same_specifier spec record.
Proof.
  unfold importSpecifier, same_specifier, specifier_kind. intros H.
  destruct (isType "ImportDefaultSpecifier" spec).
  { ok_inv. subst record. rewrite !prop_node. cbn.
    rewrite (prop_ok _ _ _ Hx), (prop_ok _ _ _ Hx0). auto. }
  destruct (isType "ImportNamespaceSpecifier" spec).
  { ok_inv. subst record. rewrite !prop_node. cbn.
    rewrite (prop_ok _ _ _ Hx), (prop_ok _ _ _ Hx0). auto. }
  apply bind_ok in H as (binding & Hb & H). apply bind_ok in H as (name & Hn & H).
  apply bind_ok in H as (imported & Hi & H). apply bind_ok in H as (iname & Hin & H).
  injection H as <-. rewrite !prop_node. cbn.
  rewrite (prop_ok _ _ _ Hb), (prop_ok _ _ _ Hn), (prop_ok _ _ _ Hi).
  destruct (truthy imported); [rewrite (prop_ok _ _ _ Hin) | injection Hin as <-]; auto.
Qed.

(** X26: the handler of an import declaration adds exactly one
    Dependency and nothing else: its kind is "import", its source the value
    of the source literal, and its specifiers hold one record per specifier
    of the declaration, in order, each with the kind of the specifier
    (default, namespace, named), its local name and, for a named one, the
    imported name, which falls back to the local name. *)
Theorem import_dependency_specifiers node md md' :
  isType "ImportDeclaration" node = true →
  handlers isFlow node md = Ok md' →
  ∃ dep specs records,
    dependencies md' = dependencies md ++ [dep]
    ∧ symbols md' = symbols md
    ∧ hasDefaultExport md' = hasDefaultExport md
    ∧ prop dep "type" = VStr "import"
    ∧ prop dep "source" = prop (prop node "source") "value"
    ∧ prop node "specifiers" = VArr specs
    ∧ prop dep "specifiers" = VArr records
    ∧ Forall2 same_specifier specs records.
Proof.
  intros Hty. unfold handlers. rewrite Hty.
  destruct (isType_node _ _ Hty) as (fs & ->).
  unfold onImportDeclaration. rewrite !prop_node. cbn [getProp bind]. intros H.
  apply bind_ok in H as (source & Hsource & H).
  apply bind_ok in H as (specifiers & Hspecs & H). injection H as <-.
  apply js_map_Forall2 in Hspecs as (specs & records & Hs & -> & Hall).
  eexists. exists specs, records. cbn [push_dependency dependencies symbols hasDefaultExport].
  split; [reflexivity|]. split; [reflexivity|]. split; [reflexivity|].
  split; [reflexivity|]. split; [exact (eq_sym (prop_ok _ _ _ Hsource))|].
  split; [exact Hs|]. split; [reflexivity|].
  clear -Hall. induction Hall; constructor; auto using importSpecifier_same.
Qed.
End Imports.

Lemma import_dependency_specifiers_witness :
  ∃ dep specs records,
    dependencies (Metadata [] [readFile_import] false)
    = dependencies (Metadata [] [] false) ++ [dep]
    ∧ symbols (Metadata [] [readFile_import] false) = symbols (Metadata [] [] false)
    ∧ hasDefaultExport (Metadata [] [readFile_import] false)
      = hasDefaultExport (Metadata [] [] false)
    ∧ prop dep "type" = VStr "import"
    ∧ prop dep "source" = prop (prop import_declaration "source") "value"
    ∧ prop import_declaration "specifiers" = VArr specs
    ∧ prop dep "specifiers" = VArr records
    ∧ Forall2 same_specifier specs records.
Proof.
  apply (import_dependency_specifiers babel_isFlowTypeAnnotation import_declaration
           (Metadata [] [] false)); reflexivity.
Defined.

(** X27: [getTSTypeName] returns a string on every well-formed type node
    (a union or intersection carrying its [types] array, type parameters
    their [params] array, a referenced type name being a string), and
    "any" on every value it has no case for. *)
Theorem getTSTypeName_returns :
  (∀ tsType, wf_tstype tsType = true → ∃ s, getTSTypeName tsType = Ok (VStr s))
  ∧ (∀ tsType, recognized_tstype tsType = false → getTSTypeName tsType = Ok (VStr "any")).
Proof. split; [exact getTSTypeName_wf | exact getTSTypeName_unrecognized]. Qed.

Lemma getTSTypeName_returns_witness :
  ∃ s, getTSTypeName union_type = Ok (VStr s).
Proof. apply (proj1 getTSTypeName_returns union_type). reflexivity. Defined.

End ParserMore.
(** * Further properties of the manifest builder *)

Module ManifestMore.
Import Trees Notions Views Facts ManifestSpec ParserMore.

Section Counts.
Context (basename : string → string) (relative : string → string → string) (now : string).

Lemma count_tagged_snoc tag fl f :
  count_tagged tag (fl ++ [f]) =
    count_tagged tag fl + Z.of_nat (length (List.filter (has_tag tag) (symbols_of f))).
Proof. induction fl as [|g fl IH]; simpl; [lia | rewrite IH; lia]. Qed.

Lemma filter_cons_length (f : value → bool) x l :
  Z.of_nat (length (List.filter f (x :: l))) =
    (if f x then 1 else 0) + Z.of_nat (length (List.filter f l)).
Proof. cbn [List.filter]. destruct (f x); cbn [length]; lia. Qed.

(** Counting the symbols of one file adds, to each counter, the number of
    symbols with its tag. *)
Lemma countSymbols_counts syms : ∀ p,
  forallb (λ sym, negb (nullish sym)) syms = true →
  ∃ p', foldM countSymbol syms p = Ok p'
        ∧ files p' = files p
        ∧ totalSymbols p' = totalSymbols p
        ∧ totalDependencies p' = totalDependencies p
        ∧ functions p' = functions p + Z.of_nat (length (List.filter (has_tag "fn") syms))
        ∧ classes p' = classes p + Z.of_nat (length (List.filter (has_tag "class") syms))
        ∧ constants p' = constants p + Z.of_nat (length (List.filter (has_tag "const") syms))
        ∧ exports p' = exports p + Z.of_nat (length (List.filter (has_tag "export") syms)).
Proof.
  induction syms as [|sym syms IH]; intros p Hok.
  - exists p. simpl. repeat split; lia.
  - cbn [forallb] in Hok. apply andb_true_iff in Hok as [Hsym Hrest].
    apply negb_true_iff in Hsym. cbn [foldM].
    unfold countSymbol at 1. rewrite (getProp_present _ _ Hsym). cbn [bind].
    rewrite !filter_cons_length. unfold has_tag at 1 3 5 7.
    pose proof (str_is_excl "fn" "class" (prop sym "type")) as E1.
    pose proof (str_is_excl "fn" "const" (prop sym "type")) as E2.
    pose proof (str_is_excl "fn" "export" (prop sym "type")) as E3.
    pose proof (str_is_excl "class" "const" (prop sym "type")) as E4.
    pose proof (str_is_excl "class" "export" (prop sym "type")) as E5.
    pose proof (str_is_excl "const" "export" (prop sym "type")) as E6.
    destruct (str_is "fn" (prop sym "type")), (str_is "class" (prop sym "type")),
      (str_is "const" (prop sym "type")), (str_is "export" (prop sym "type"));
      try (specialize (E1 eq_refl eq_refl); discriminate E1);
      try (specialize (E2 eq_refl eq_refl); discriminate E2);
      try (specialize (E3 eq_refl eq_refl); discriminate E3);
      try (specialize (E4 eq_refl eq_refl); discriminate E4);
      try (specialize (E5 eq_refl eq_refl); discriminate E5);
      try (specialize (E6 eq_refl eq_refl); discriminate E6);
      cbn [bind];
      (edestruct IH as (p' & -> & ? & ? & ? & ? & ? & ? & ?); [exact Hrest|]);
      exists p';
      cbn [functions classes constants exports files totalSymbols totalDependencies] in *;
      repeat split; try assumption; lia.
Qed.

Lemma symbols_of_fileManifest root fileData :
  symbols_of (fileManifest_of basename relative root fileData) =
    match js_or (prop (prop fileData "metadata") "symbols") (VArr []) with
    | VArr syms => syms
    | _ => []
    end.
Proof. reflexivity. Qed.

(** One round of [parsedFiles.forEach] on a valid file result. *)
Lemma processFile_step root fileData p :
  valid_file_result fileData = true →
  counts_hold p →
  ∃ p', processFile basename relative (VStr root) fileData p = Ok p'
        ∧ files p' = files p ++ [fileManifest_of basename relative root fileData]
        ∧ counts_hold p'.
Proof.
  intros Hvalid (Hf & Hc & Hk & He).
  destruct fileData as [| | | | | | |fs]; try discriminate Hvalid.
  simpl in Hvalid. apply andb_true_iff in Hvalid as [Hpath Hmeta].
  destruct (field "metadata" fs) as [| | | | | | |ms] eqn:Hm; try discriminate Hmeta.
  apply andb_true_iff in Hmeta as [Hsyms Hdeps].
  unfold processFile. rewrite !getProp_obj, Hm. cbn [bind].
  destruct (field "filePath" fs) as [| | | | |path| |] eqn:Hp; try discriminate Hpath.
  cbn [path_basename path_relative bind]. rewrite !getProp_obj. cbn [bind].
  unfold fileManifest_of. rewrite !prop_node, Hm, Hp, !prop_node.
  destruct (seq_or_absent_default _ _ Hsyms) as (symbols & Es & Hall).
  destruct (seq_or_absent_default _ _ Hdeps) as (dependencies & Ed & _).
  rewrite Es, Ed.
  cbn [getProp String.eqb Ascii.eqb Bool.eqb bind js_forEach].
  edestruct (countSymbols_counts symbols) as (p2 & -> & F1 & _ & _ & C1 & C2 & C3 & C4);
    [exact Hall|].
  cbn [bind]. eexists. split; [reflexivity|].
  cbn [files functions classes constants exports] in *. rewrite F1.
  split; [reflexivity|].
  unfold counts_hold. cbn [files functions classes constants exports].
  rewrite !count_tagged_snoc. unfold symbols_of at 1 2 3 4. rewrite !prop_node.
  cbn [field find_field String.eqb Ascii.eqb Bool.eqb from_option default id].
  repeat split; lia.
Qed.

Lemma processFiles_steps root items : ∀ p,
  forallb valid_file_result items = true →
  counts_hold p →
  ∃ p', foldM (processFile basename relative (VStr root)) items p = Ok p'
        ∧ files p' = files p ++ map (fileManifest_of basename relative root) items
        ∧ counts_hold p'.
Proof.
  induction items as [|fd items IH]; intros p Hvalid Hp; cbn [foldM map].
  - exists p. rewrite app_nil_r. auto.
  - cbn [forallb] in Hvalid. apply andb_true_iff in Hvalid as [Hfd Hrest].
    destruct (processFile_step root fd p Hfd Hp) as (p1 & -> & Hfiles & Hp1).
    cbn [bind]. destruct (IH p1 Hrest Hp1) as (p' & -> & Hfiles' & Hp').
    exists p'. rewrite Hfiles', Hfiles, <- app_assoc. auto.
Qed.

(** The manifest of valid file results, written out. *)
Lemma buildManifest_valid parsedFiles root :
  parsedFiles ≠ [] →
  forallb valid_file_result parsedFiles = true →
  ∃ p,
    counts_hold p ∧ totals_hold p
    ∧ files p = map (fileManifest_of basename relative root) parsedFiles
    ∧ buildManifest basename relative now (VArr parsedFiles) (VStr root) =
      Ok (VObj [("version", VStr "1.0.0");
                ("generated", VStr now);
                ("rootPath", VStr root);
                ("files", VArr (files p));
                ("stats",
                  VObj [("totalFiles", VNum (Z.of_nat (length parsedFiles)));
                        ("totalSymbols", totalSymbols p);
                        ("totalDependencies", totalDependencies p);
                        ("typeStats",
                          VObj [("functions", VNum (functions p));
                                ("classes", VNum (classes p));
                                ("constants", VNum (constants p));
                                ("exports", VNum (exports p))])])]).
Proof.
  intros Hne Hvalid.
  destruct parsedFiles as [|fd rest]; [congruence|].
  unfold buildManifest.
  destruct (processFiles_steps root (fd :: rest)
              (Progress [] (VNum 0) (VNum 0) 0 0 0 0) Hvalid)
    as (p & Hp & Hfiles & Hcounts); [repeat split|].
  destruct (processFiles_totals basename relative root (fd :: rest)
              (Progress [] (VNum 0) (VNum 0) 0 0 0 0) Hvalid)
    as (p' & Hp' & Htotals & _); [split; reflexivity|].
  rewrite Hp in Hp'. injection Hp' as <-.
  exists p. rewrite Hp. cbn [bind]. auto.
Qed.

(** The symbols with one of the four tags are at most all the symbols. *)
Lemma tagged_le_length (syms : list value) :
  Z.of_nat (length (List.filter (has_tag "fn") syms))
  + Z.of_nat (length (List.filter (has_tag "class") syms))
  + Z.of_nat (length (List.filter (has_tag "const") syms))
  + Z.of_nat (length (List.filter (has_tag "export") syms))
  ≤ Z.of_nat (length syms).
Proof.
  induction syms as [|sym syms IH]; [simpl; lia|].
  rewrite !filter_cons_length. unfold has_tag at 1 3 5 7.
  pose proof (str_is_excl "fn" "class" (prop sym "type")) as E1.
  pose proof (str_is_excl "fn" "const" (prop sym "type")) as E2.
  pose proof (str_is_excl "fn" "export" (prop sym "type")) as E3.
  pose proof (str_is_excl "class" "const" (prop sym "type")) as E4.
  pose proof (str_is_excl "class" "export" (prop sym "type")) as E5.
  pose proof (str_is_excl "const" "export" (prop sym "type")) as E6.
  destruct (str_is "fn" (prop sym "type")), (str_is "class" (prop sym "type")),
    (str_is "const" (prop sym "type")), (str_is "export" (prop sym "type"));
    try (specialize (E1 eq_refl eq_refl); discriminate E1);
    try (specialize (E2 eq_refl eq_refl); discriminate E2);
    try (specialize (E3 eq_refl eq_refl); discriminate E3);
    try (specialize (E4 eq_refl eq_refl); discriminate E4);
    try (specialize (E5 eq_refl eq_refl); discriminate E5);
    try (specialize (E6 eq_refl eq_refl); discriminate E6);
    cbn [length]; lia.
Qed.

Lemma tagged_eq_length (syms : list value) :
  Forall (λ s, symbol_tag (prop s "type") = true) syms →
  Z.of_nat (length (List.filter (has_tag "fn") syms))
  + Z.of_nat (length (List.filter (has_tag "class") syms))
  + Z.of_nat (length (List.filter (has_tag "const") syms))
  + Z.of_nat (length (List.filter (has_tag "export") syms))
  = Z.of_nat (length syms).
Proof.
  induction 1 as [|sym syms Hsym _ IH]; [reflexivity|].
  rewrite !filter_cons_length. unfold has_tag at 1 3 5 7.
  unfold symbol_tag in Hsym.
  pose proof (str_is_excl "fn" "class" (prop sym "type")) as E1.
  pose proof (str_is_excl "fn" "const" (prop sym "type")) as E2.
  pose proof (str_is_excl "fn" "export" (prop sym "type")) as E3.
  pose proof (str_is_excl "class" "const" (prop sym "type")) as E4.
  pose proof (str_is_excl "class" "export" (prop sym "type")) as E5.
  pose proof (str_is_excl "const" "export" (prop sym "type")) as E6.
  destruct (str_is "fn" (prop sym "type")), (str_is "class" (prop sym "type")),
    (str_is "const" (prop sym "type")), (str_is "export" (prop sym "type"));
    try discriminate Hsym;
    try (specialize (E1 eq_refl eq_refl); discriminate E1);
    try (specialize (E2 eq_refl eq_refl); discriminate E2);
    try (specialize (E3 eq_refl eq_refl); discriminate E3);
    try (specialize (E4 eq_refl eq_refl); discriminate E4);
    try (specialize (E5 eq_refl eq_refl); discriminate E5);
    try (specialize (E6 eq_refl eq_refl); discriminate E6);
    cbn [length]; lia.
Qed.

Lemma sum_lengths_symbols fl :
  sum_lengths "symbols" fl = foldr (λ f n, Z.of_nat (length (symbols_of f)) + n) 0 fl.
Proof.
  induction fl as [|f fl IH]; [reflexivity|]. cbn [sum_lengths foldr]. rewrite IH.
  unfold seq_length, symbols_of. destruct (prop f "symbols"); reflexivity.
Qed.

Lemma count_tagged_le fl :
  count_tagged "fn" fl + count_tagged "class" fl + count_tagged "const" fl
  + count_tagged "export" fl ≤ sum_lengths "symbols" fl.
Proof.
  rewrite sum_lengths_symbols.
  induction fl as [|f fl IH]; [simpl; lia|]. cbn [count_tagged foldr].
  pose proof (tagged_le_length (symbols_of f)). lia.
Qed.

Lemma count_tagged_eq fl :
  all_tagged fl →
  count_tagged "fn" fl + count_tagged "class" fl + count_tagged "const" fl
  + count_tagged "export" fl = sum_lengths "symbols" fl.
Proof.
  rewrite sum_lengths_symbols.
  induction 1 as [|f fl Hf _ IH]; [reflexivity|]. cbn [count_tagged foldr].
  pose proof (tagged_eq_length (symbols_of f) Hf). lia.
Qed.

(** X8: on valid file results, the FileManifests are those of the file
    results, in order, and each counter of [stats.typeStats] is the number
    of symbols of the FileManifests that carry its tag ('fn', 'class',
    'const', 'export'); the four counters add up to at most
    [stats.totalSymbols], and to exactly that when every symbol carries one
    of the four tags. *)
Theorem typeStats_count_tags parsedFiles root :
  parsedFiles ≠ [] →
  forallb valid_file_result parsedFiles = true →
  ∃ manifest fileManifests,
    buildManifest basename relative now (VArr parsedFiles) (VStr root) = Ok manifest
    ∧ prop manifest "files" = VArr fileManifests
    ∧ fileManifests = map (fileManifest_of basename relative root) parsedFiles
    ∧ typeStat manifest "functions" = VNum (count_tagged "fn" fileManifests)
    ∧ typeStat manifest "classes" = VNum (count_tagged "class" fileManifests)
    ∧ typeStat manifest "constants" = VNum (count_tagged "const" fileManifests)
    ∧ typeStat manifest "exports" = VNum (count_tagged "export" fileManifests)
    ∧ stat manifest "totalSymbols" = VNum (sum_lengths "symbols" fileManifests)
    ∧ count_tagged "fn" fileManifests + count_tagged "class" fileManifests
      + count_tagged "const" fileManifests + count_tagged "export" fileManifests
      ≤ sum_lengths "symbols" fileManifests
    ∧ (all_tagged fileManifests →
       count_tagged "fn" fileManifests + count_tagged "class" fileManifests
       + count_tagged "const" fileManifests + count_tagged "export" fileManifests
       = sum_lengths "symbols" fileManifests).
Proof.
  intros Hne Hvalid.
  destruct parsedFiles as [|fd rest]; [congruence|].
  unfold buildManifest.
  destruct (processFiles_steps root (fd :: rest)
              (Progress [] (VNum 0) (VNum 0) 0 0 0 0) Hvalid)
    as (p & Hp & Hfiles & (Hf & Hc & Hk & He)); [repeat split|].
  destruct (processFiles_totals basename relative root (fd :: rest)
              (Progress [] (VNum 0) (VNum 0) 0 0 0 0) Hvalid)
    as (p' & Hp' & [Hs _] & _); [split; reflexivity|].
  rewrite Hp in Hp'. injection Hp' as <-.
  eexists. exists (files p). rewrite Hp. cbn [bind].
  split; [reflexivity|]. split; [reflexivity|]. split; [exact Hfiles|].
  split; [exact (f_equal VNum Hf)|].
  split; [exact (f_equal VNum Hc)|].
  split; [exact (f_equal VNum Hk)|].
  split; [exact (f_equal VNum He)|].
  split; [exact Hs|].
  split; [apply count_tagged_le | apply count_tagged_eq].
Qed.

(** X9: on valid file results, the manifest lists one FileManifest per file
    result, in the order of the input: its [path] is the file path relative
    to the root, its [filename] the base name, and [symbols],
    [dependencies] and [hasDefaultExport] are the metadata's, an absent
    (falsy) one being replaced by an empty array, respectively [false];
    [stats.totalFiles] is the number of file results. *)
Theorem fileManifests_in_order parsedFiles root :
  parsedFiles ≠ [] →
  forallb valid_file_result parsedFiles = true →
  ∃ manifest,
    buildManifest basename relative now (VArr parsedFiles) (VStr root) = Ok manifest
    ∧ prop manifest "files"
      = VArr (map (fileManifest_of basename relative root) parsedFiles)
    ∧ stat manifest "totalFiles" = VNum (Z.of_nat (length parsedFiles))
    ∧ prop manifest "version" = VStr "1.0.0"
    ∧ prop manifest "generated" = VStr now
    ∧ prop manifest "rootPath" = VStr root.
Proof.
  intros Hne Hvalid.
  destruct parsedFiles as [|fd rest]; [congruence|].
  unfold buildManifest.
  destruct (processFiles_steps root (fd :: rest)
              (Progress [] (VNum 0) (VNum 0) 0 0 0 0) Hvalid)
    as (p & Hp & Hfiles & _); [repeat split|].
  eexists. rewrite Hp. cbn [bind].
  split; [reflexivity|]. cbn [files app] in Hfiles.
  split; [exact (f_equal VArr Hfiles)|]. repeat split.
Qed.

Lemma countSymbols_TypeError syms : ∀ p,
  fails_only_with TypeError (foldM countSymbol syms p).
Proof.
  induction syms as [|sym syms IH]; intros p; cbn [foldM]; [exact I|].
  unfold countSymbol at 1.
  destruct (getProp sym "type") as [ty|e] eqn:E; cbn [bind].
  - repeat match goal with |- context [if ?c then _ else _] => destruct c end;
      cbn [bind]; apply IH.
  - destruct sym; simpl in E; congruence.
Qed.

Lemma getProp_TypeError v k : fails_only_with TypeError (getProp v k).
Proof. destruct v; simpl; auto. Qed.

Lemma bind_fails_only {A B} e (m : result A) (k : A → result B) :
  fails_only_with e m → (∀ a, m = Ok a → fails_only_with e (k a)) →
  fails_only_with e (bind m k).
Proof. destruct m; simpl; auto. Qed.

(** Whatever the file result is, one round of the loop returns or throws a
    [TypeError]. *)
Lemma processFile_TypeError root fileData p :
  fails_only_with TypeError (processFile basename relative root fileData p).
Proof.
  unfold processFile.
  apply bind_fails_only; [apply getProp_TypeError | intros filePath _].
  apply bind_fails_only; [apply getProp_TypeError | intros metadata _].
  apply bind_fails_only; [destruct filePath; simpl; auto | intros filename _].
  apply bind_fails_only; [destruct root, filePath; simpl; auto | intros relativePath _].
  apply bind_fails_only; [apply getProp_TypeError | intros msymbols _].
  apply bind_fails_only; [apply getProp_TypeError | intros mdependencies _].
  apply bind_fails_only; [apply getProp_TypeError | intros mdefault _].
  apply bind_fails_only; [apply getProp_TypeError | intros nsymbols _].
  apply bind_fails_only; [apply getProp_TypeError | intros ndependencies _].
  apply bind_fails_only; [|intros; exact I].
  destruct (js_or msymbols (VArr [])); simpl; auto using countSymbols_TypeError.
Qed.

Lemma processFiles_TypeError root items : ∀ p,
  fails_only_with TypeError (foldM (processFile basename relative root) items p).
Proof.
  induction items as [|fd items IH]; intros p; cbn [foldM]; [exact I|].
  apply bind_fails_only; [apply processFile_TypeError | intros; apply IH].
Qed.

(** A file result without metadata stops the loop. *)
Lemma processFile_no_metadata root fileData p :
  nullish (prop fileData "metadata") = true →
  ∀ p', processFile basename relative root fileData p ≠ Ok p'.
Proof.
  intros Hmeta p' H. unfold processFile in H.
  apply bind_ok in H as (filePath & _ & H).
  apply bind_ok in H as (metadata & Em & H).
  apply bind_ok in H as (filename & _ & H).
  apply bind_ok in H as (relativePath & _ & H).
  apply bind_ok in H as (msymbols & Es & _).
  assert (metadata = prop fileData "metadata") as ->.
  { unfold prop. rewrite Em. reflexivity. }
  destruct (prop fileData "metadata"); discriminate.
Qed.

Lemma processFiles_no_metadata root fileData items : ∀ p,
  In fileData items →
  nullish (prop fileData "metadata") = true →
  ∀ p', foldM (processFile basename relative root) items p ≠ Ok p'.
Proof.
  induction items as [|fd items IH]; intros p Hin Hmeta p' H; [destruct Hin|].
  cbn [foldM] in H. apply bind_ok in H as (p1 & H1 & H).
  destruct Hin as [->|Hin].
  - exact (processFile_no_metadata _ _ _ Hmeta _ H1).
  - exact (IH _ Hin Hmeta _ H).
Qed.

(** X10: given a non-empty array, [buildManifest] returns a manifest or
    throws a [TypeError], whatever the array holds and whatever the root
    is. *)
Theorem buildManifest_throws_TypeError_only fileData rest root :
  fails_only_with TypeError
    (buildManifest basename relative now (VArr (fileData :: rest)) root).
Proof.
  unfold buildManifest.
  apply bind_fails_only; [apply processFiles_TypeError | intros; exact I].
Qed.

(** X11: when some file result has no metadata ([undefined] or [null]),
    [buildManifest] throws a [TypeError], wherever the file result stands in
    the array. *)
Theorem missing_metadata_is_TypeError fileData parsedFiles root :
  In fileData parsedFiles →
  nullish (prop fileData "metadata") = true →
  buildManifest basename relative now (VArr parsedFiles) root = Throw TypeError.
Proof.
  intros Hin Hmeta.
  destruct parsedFiles as [|fd rest]; [destruct Hin|].
  unfold buildManifest.
  pose proof (processFiles_TypeError root (fd :: rest)
                (Progress [] (VNum 0) (VNum 0) 0 0 0 0)) as Honly.
  pose proof (processFiles_no_metadata root fileData (fd :: rest)
                (Progress [] (VNum 0) (VNum 0) 0 0 0 0) Hin Hmeta) as Hno.
  destruct (foldM _ _ _) as [p|e]; [destruct (Hno p eq_refl)|].
  simpl in Honly. subst e. reflexivity.
Qed.
End Counts.

Lemma typeStats_count_tags_witness :
  ∃ manifest fileManifests,
    buildManifest (λ s, s) (λ _ s, s) "2024-01-01T00:00:00.000Z"
      (VArr sample_file_results) (VStr "/repo") = Ok manifest
    ∧ prop manifest "files" = VArr fileManifests
    ∧ fileManifests = map (fileManifest_of (λ s, s) (λ _ s, s) "/repo") sample_file_results
    ∧ typeStat manifest "functions" = VNum (count_tagged "fn" fileManifests)
    ∧ typeStat manifest "classes" = VNum (count_tagged "class" fileManifests)
    ∧ typeStat manifest "constants" = VNum (count_tagged "const" fileManifests)
    ∧ typeStat manifest "exports" = VNum (count_tagged "export" fileManifests)
    ∧ stat manifest "totalSymbols" = VNum (sum_lengths "symbols" fileManifests)
    ∧ count_tagged "fn" fileManifests + count_tagged "class" fileManifests
      + count_tagged "const" fileManifests + count_tagged "export" fileManifests
      ≤ sum_lengths "symbols" fileManifests
    ∧ (all_tagged fileManifests →
       count_tagged "fn" fileManifests + count_tagged "class" fileManifests
       + count_tagged "const" fileManifests + count_tagged "export" fileManifests
       = sum_lengths "symbols" fileManifests).
Proof.
  apply (typeStats_count_tags (λ s, s) (λ _ s, s)); [discriminate | reflexivity].
Defined.

Lemma fileManifests_in_order_witness :
  ∃ manifest,
    buildManifest (λ s, s) (λ _ s, s) "2024-01-01T00:00:00.000Z"
      (VArr sample_file_results) (VStr "/repo") = Ok manifest
    ∧ prop manifest "files"
      = VArr (map (fileManifest_of (λ s, s) (λ _ s, s) "/repo") sample_file_results)
    ∧ stat manifest "totalFiles" = VNum (Z.of_nat (length sample_file_results))
    ∧ prop manifest "version" = VStr "1.0.0"
    ∧ prop manifest "generated" = VStr "2024-01-01T00:00:00.000Z"
    ∧ prop manifest "rootPath" = VStr "/repo".
Proof.
  apply (fileManifests_in_order (λ s, s) (λ _ s, s)); [discriminate | reflexivity].
Defined.

Lemma missing_metadata_is_TypeError_witness :
  buildManifest (λ s, s) (λ _ s, s) "2024-01-01T00:00:00.000Z"
    (VArr (sample_file_results ++ [VObj [("filePath", VStr "/repo/a.js")]]))
    (VStr "/repo") = Throw TypeError.
Proof.
  apply (missing_metadata_is_TypeError (λ s, s) (λ _ s, s) _
           (VObj [("filePath", VStr "/repo/a.js")])).
  - apply in_or_app. right. left. reflexivity.
  - reflexivity.
Defined.
End ManifestMore.
(** * Further properties of the LLM format *)

Module LLMMore.
Import Trees Notions Views Facts ParserMore ManifestSpec.

Lemma Forall2_Forall_r {A B} (R : A → B → Prop) (P : B → Prop) l l' :
  Forall2 R l l' → (∀ x y, R x y → P y) → Forall P l'.
Proof. induction 1; intros HP; constructor; eauto. Qed.

Lemma simplifyField_keys fld out :
  simplifyField fld = Ok out → record_fields out = ["name"; "type"; "static"].
Proof. unfold simplifyField. intros H. ok_inv. subst out. reflexivity. Qed.

Lemma simplifyMethod_keys method out :
  simplifyMethod method = Ok out →
  record_fields out = ["name"; "kind"; "static"; "params"; "returnType"].
Proof. unfold simplifyMethod. intros H. ok_inv. subst out. reflexivity. Qed.

Lemma optional_map_keys f v out keys :
  (∀ x y, f x = Ok y → record_fields y = keys) →
  (if truthy v then js_map f v else Ok (VArr [])) = Ok out →
  Forall (λ y, record_fields y = keys) (items_of out).
Proof.
  intros Hf H. destruct (truthy v).
  - apply js_map_Forall2 in H as (items & items' & -> & -> & Hall).
    exact (Forall2_Forall_r _ _ _ _ Hall Hf).
  - injection H as <-. constructor.
Qed.

(** X12: the simplified form of a Symbol has the keys of its tag and no
    other: name and type, then params and returnType for 'fn', fields and
    methods (and extends when truthy) for 'class', localName for 'export';
    in particular [loc] is gone.  Each simplified method has the keys name,
    kind, static, params, returnType, each simplified field name, type,
    static. *)
Theorem simplified_symbol_keys sym out :
  simplifySymbol sym = Ok out →
  record_fields out = symbol_keys sym
  ∧ Forall (λ m, record_fields m = ["name"; "kind"; "static"; "params"; "returnType"])
      (items_of (prop out "methods"))
  ∧ Forall (λ f, record_fields f = ["name"; "type"; "static"])
      (items_of (prop out "fields")).
Proof.
  unfold simplifySymbol, symbol_keys. intros H.
  apply bind_ok in H as (name & Hname & H).
  apply bind_ok in H as (ty & Hty & H).
  assert (prop sym "type" = ty) as -> by (unfold prop; rewrite Hty; reflexivity).
  destruct (str_is "fn" ty).
  { ok_inv. subst out. repeat split; constructor. }
  destruct (str_is "class" ty).
  { apply bind_ok in H as (fs & Hfs & H).
    apply bind_ok in H as (fields & Hfields & H).
    apply bind_ok in H as (ms & Hms & H).
    apply bind_ok in H as (methods & Hmethods & H).
    apply bind_ok in H as (ext & Hext & H).
    assert (prop sym "extends" = ext) as -> by (unfold prop; rewrite Hext; reflexivity).
    apply (optional_map_keys _ _ _ _ simplifyField_keys) in Hfields.
    apply (optional_map_keys _ _ _ _ simplifyMethod_keys) in Hmethods.
    destruct (truthy ext); injection H as <-; repeat split; assumption. }
  destruct (str_is "export" ty).
  { ok_inv. subst out. repeat split; constructor. }
  injection H as <-. repeat split; constructor.
Qed.

Lemma simplifySymbol_same sym out : simplifySymbol sym = Ok out → same_symbol sym out.
Proof.
  unfold simplifySymbol, same_symbol. intros H.
  apply bind_ok in H as (name & Hname & H).
  apply bind_ok in H as (ty & Hty & H).
  assert (prop sym "type" = ty) as -> by (unfold prop; rewrite Hty; reflexivity).
  assert (prop sym "name" = name) as -> by (unfold prop; rewrite Hname; reflexivity).
  repeat match type of H with
         | (if ?c then _ else _) = _ => destruct c
         end; ok_inv; subst out;
    repeat match goal with |- context [if ?c then _ else _] => destruct c end;
    split; reflexivity.
Qed.

Lemma simplifyFile_same file out : simplifyFile file = Ok out → same_file file out.
Proof.
  unfold simplifyFile, same_file. intros H.
  apply bind_ok in H as (path & Hpath & H).
  apply bind_ok in H as (syms & Hsyms & H).
  apply bind_ok in H as (symbols & Hsymbols & H).
  apply bind_ok in H as (dependencies & Hdeps & H).
  apply bind_ok in H as (flag & Hflag & H).
  injection H as <-.
  apply js_map_Forall2 in Hsymbols as (items & items' & -> & -> & Hall).
  unfold prop at 2 4 6 7. rewrite Hpath, Hdeps, Hflag, Hsyms.
  repeat split.
  cbn [items_of]. clear -Hall.
  induction Hall; constructor; auto using simplifySymbol_same.
Qed.

(** X13: the LLM format has the keys version and files only; it keeps the
    version, and the files one for one and in order, each with the keys
    path, symbols, dependencies, hasDefaultExport, the same path,
    dependencies and default-export flag, and as many Symbols, in the same
    order, under the same names and tags. *)
Theorem optimizeForLLM_preserves manifest out :
  optimizeForLLM manifest = Ok out →
  record_fields out = ["version"; "files"]
  ∧ prop out "version" = prop manifest "version"
  ∧ Forall2 same_file (items_of (prop manifest "files")) (items_of (prop out "files")).
Proof.
  unfold optimizeForLLM. intros H.
  apply bind_ok in H as (version & Hversion & H).
  apply bind_ok in H as (fs & Hfs & H).
  apply bind_ok in H as (files & Hfiles & H).
  injection H as <-.
  apply js_map_Forall2 in Hfiles as (items & items' & -> & -> & Hall).
  unfold prop at 2 3. rewrite Hversion, Hfs.
  repeat split.
  cbn [items_of]. clear -Hall.
  induction Hall; constructor; auto using simplifyFile_same.
Qed.

Lemma present_getProp v k : present v = true → getProp v k = Ok (prop v k).
Proof. intros H. apply getProp_present, negb_true_iff, H. Qed.

(** [v ? v.map(f) : []] on a sequence, or absent value, of good items. *)
Lemma optional_map_returns f ok v :
  (∀ x, ok x = true → ∃ y, f x = Ok y) →
  seq_or_absent ok v = true →
  ∃ out, (if truthy v then js_map f v else Ok (VArr [])) = Ok out.
Proof.
  intros Hf Hv. destruct v; simpl in Hv |- *;
    try (apply negb_true_iff in Hv; rewrite Hv); eauto; try discriminate.
  destruct (mapM_total f ok _ Hf Hv) as (ys & ->). cbn [bind]. eauto.
Qed.

Lemma simplifyProperty_returns x : present x = true → ∃ y, simplifyProperty x = Ok y.
Proof.
  intros H. unfold simplifyProperty. rewrite !(present_getProp _ _ H). cbn [bind]. eauto.
Qed.

Lemma simplifyParam_returns param : param_ok param = true → ∃ out, simplifyParam param = Ok out.
Proof.
  unfold param_ok, simplifyParam. intros H.
  destruct (truthy param) eqn:Ht; cbn [negb orb] in *; [|eauto].
  apply andb_true_iff in H as [Hp He].
  assert (present param = true) as Hpres by (destruct param; try discriminate Ht; reflexivity).
  rewrite !(present_getProp _ _ Hpres). cbn [bind].
  destruct (optional_map_returns simplifyProperty present _ simplifyProperty_returns Hp)
    as (ps & Hps).
  destruct (optional_map_returns simplifyProperty present _ simplifyProperty_returns He)
    as (es & Hes).
  destruct (str_is "objectPattern" (prop param "name")); cbn [andb];
    [destruct (truthy (prop param "properties")); [rewrite Hps|]|]; cbn [bind];
    (destruct (str_is "arrayPattern" (prop param "name")); cbn [andb];
     [destruct (truthy (prop param "elements")); [rewrite Hes|]|]; cbn [bind]; eauto).
Qed.

Lemma simplifyParams_returns params :
  params_ok params = true → ∃ out, simplifyParams params = Ok out.
Proof. apply optional_map_returns, simplifyParam_returns. Qed.

Lemma simplifyField_returns x : present x = true → ∃ y, simplifyField x = Ok y.
Proof.
  intros H. unfold simplifyField. rewrite !(present_getProp _ _ H). cbn [bind]. eauto.
Qed.

Lemma simplifyMethod_returns x : method_ok x = true → ∃ y, simplifyMethod x = Ok y.
Proof.
  unfold method_ok, simplifyMethod. intros H. apply andb_true_iff in H as [H Hp].
  rewrite !(present_getProp _ _ H). cbn [bind].
  destruct (simplifyParams_returns _ Hp) as (ps & ->). cbn [bind]. eauto.
Qed.

Lemma simplifySymbol_returns sym : symbol_ok sym = true → ∃ out, simplifySymbol sym = Ok out.
Proof.
  unfold symbol_ok, simplifySymbol. intros H.
  apply andb_true_iff in H as [H Hm]. apply andb_true_iff in H as [H Hf].
  apply andb_true_iff in H as [H Hp].
  rewrite !(present_getProp _ _ H). cbn [bind].
  destruct (simplifyParams_returns _ Hp) as (ps & Hps).
  destruct (optional_map_returns simplifyField present _ simplifyField_returns Hf)
    as (fs & Hfs).
  destruct (optional_map_returns simplifyMethod method_ok _ simplifyMethod_returns Hm)
    as (ms & Hms).
  destruct (str_is "fn" (prop sym "type")); [rewrite Hps; cbn [bind]; eauto|].
  destruct (str_is "class" (prop sym "type")); [rewrite Hfs, Hms; cbn [bind]; eauto|].
  destruct (str_is "export" (prop sym "type")); eauto.
Qed.

Lemma simplifyFile_returns file : file_ok file = true → ∃ out, simplifyFile file = Ok out.
Proof.
  unfold file_ok, simplifyFile. intros H. apply andb_true_iff in H as [H Hs].
  rewrite !(present_getProp _ _ H). cbn [bind].
  destruct (prop file "symbols") as [| | | | | |syms|]; try discriminate Hs.
  cbn [js_map]. destruct (mapM_total simplifySymbol symbol_ok _ simplifySymbol_returns Hs)
    as (ys & ->). cbn [bind]. eauto.
Qed.

Lemma optimizeForLLM_total manifest :
  manifest_ok manifest = true → ∃ out, optimizeForLLM manifest = Ok out.
Proof.
  unfold manifest_ok, optimizeForLLM. intros H. apply andb_true_iff in H as [H Hf].
  rewrite !(present_getProp _ _ H). cbn [bind].
  destruct (prop manifest "files") as [| | | | | |fs|]; try discriminate Hf.
  cbn [js_map]. destruct (mapM_total simplifyFile file_ok _ simplifyFile_returns Hf)
    as (ys & ->). cbn [bind]. eauto.
Qed.

(** X14: [optimizeForLLM] returns on every manifest it can read through:
    [files] an array of objects whose [symbols] is an array of objects, each
    with [params], [fields] and [methods] absent (falsy) or arrays of
    objects whose own [params], [properties] and [elements] are so too. *)
Theorem optimizeForLLM_returns manifest :
  manifest_ok manifest = true → ∃ out, optimizeForLLM manifest = Ok out.
Proof. exact (optimizeForLLM_total manifest). Qed.

Lemma optimizeForLLM_returns_witness : ∃ out, optimizeForLLM sample_manifest = Ok out.
Proof. apply (optimizeForLLM_returns sample_manifest). reflexivity. Defined.

Lemma simplified_symbol_keys_witness :
  ∃ out, simplifySymbol dog_symbol = Ok out
    ∧ record_fields out = symbol_keys dog_symbol
    ∧ Forall (λ m, record_fields m = ["name"; "kind"; "static"; "params"; "returnType"])
        (items_of (prop out "methods"))
    ∧ Forall (λ f, record_fields f = ["name"; "type"; "static"])
        (items_of (prop out "fields")).
Proof.
  eexists. split; [reflexivity|].
  apply (simplified_symbol_keys dog_symbol). reflexivity.
Defined.

Lemma optimizeForLLM_preserves_witness :
  ∃ out, optimizeForLLM sample_manifest = Ok out
    ∧ record_fields out = ["version"; "files"]
    ∧ prop out "version" = prop sample_manifest "version"
    ∧ Forall2 same_file (items_of (prop sample_manifest "files"))
        (items_of (prop out "files")).
Proof.
  eexists. split; [reflexivity|].
  apply (optimizeForLLM_preserves sample_manifest). reflexivity.
Defined.
End LLMMore.
(** * From the files to the manifest *)

Module Pipeline.
Import Trees Notions Views Facts ParserSpec ParserMore ManifestSpec ManifestMore LLMMore.
Import Index.

(** A property of the accumulator that every handler keeps holds after
    the traversal. *)
Lemma traverse_invariant {S} keys (enter : value → S → result S) (I : S → Prop) :
  (∀ node st st', enter node st = Ok st' → I st → I st') →
  ∀ ast st st', traverse keys enter ast st = Ok st' → I st → I st'.
Proof.
  intros Henter ast st st' H.
  apply (traverse_fold keys enter id
           (λ st node, match enter node st with Ok st1 => st1 | Throw _ => st end)) in H.
  2:{ intros node s s' Hs. unfold id. rewrite Hs. reflexivity. }
  unfold id in H. subst st'. generalize st.
  induction (entered keys ast) as [|node nodes IH]; intros s Hs; cbn [foldl]; [exact Hs|].
  apply IH. destruct (enter node s) eqn:E; [exact (Henter _ _ _ E Hs) | exact Hs].
Qed.

Lemma truthy_present v : truthy v = true → present v = true.
Proof. destruct v; try discriminate; reflexivity. Qed.

Lemma forallb_snoc {A} (f : A → bool) l x :
  forallb f (l ++ [x]) = forallb f l && f x.
Proof. rewrite forallb_app. cbn. rewrite andb_true_r. reflexivity. Qed.

Section Records.
Context (isFlow : option (value → bool)).

Lemma objectPatternProperty_present x y :
  objectPatternProperty isFlow x = Ok y → present y = true.
Proof.
  unfold objectPatternProperty. intros H.
  destruct (isType "ObjectProperty" x); ok_inv; subst y; reflexivity.
Qed.

Lemma arrayPatternElements_present items mapped :
  mapM (arrayPatternElement isFlow) items = Ok mapped →
  forallb present (List.filter truthy mapped) = true.
Proof.
  intros _. induction mapped as [|y ys IH]; [reflexivity|].
  cbn [List.filter]. destruct (truthy y) eqn:Hy; [|exact IH].
  cbn [forallb]. rewrite (truthy_present _ Hy), IH. reflexivity.
Qed.

Lemma Forall2_forallb {A B} (R : A → B → Prop) (ok : B → bool) l l' :
  Forall2 R l l' → (∀ x y, R x y → ok y = true) → forallb ok l' = true.
Proof.
  induction 1 as [|x y l l' Hxy _ IH]; intros Hok; cbn [forallb]; [reflexivity|].
  rewrite (Hok _ _ Hxy), IH; auto.
Qed.

(** Every Parameter record the extractor makes can be simplified. *)
Lemma extractParamInfo_ok param record :
  extractParamInfo isFlow param = Ok record → param_ok record = true.
Proof.
  unfold extractParamInfo. intros H.
  destruct (isType "Identifier" param).
  { unfold paramIdentifier in H. ok_inv. subst record. reflexivity. }
  destruct (isType "AssignmentPattern" param).
  { unfold paramAssignmentPattern in H. ok_inv; subst record; reflexivity. }
  destruct (isType "ObjectPattern" param).
  { unfold paramObjectPattern in H.
    apply bind_ok in H as (props & _ & H). apply bind_ok in H as (properties & Hp & H).
    injection H as <-.
    apply js_map_Forall2 in Hp as (items & items' & -> & -> & Hall).
    unfold param_ok. rewrite !prop_node. cbn.
    rewrite (Forall2_forallb _ present _ _ Hall (objectPatternProperty_present)).
    reflexivity. }
  destruct (isType "ArrayPattern" param).
  { unfold paramArrayPattern in H.
    apply bind_ok in H as (elems & _ & H).
    destruct elems; try discriminate H.
    apply bind_ok in H as (mapped & Hm & H). injection H as <-.
    unfold param_ok. rewrite !prop_node. cbn.
    rewrite (arrayPatternElements_present _ _ Hm). reflexivity. }
  destruct (isType "RestElement" param).
  { unfold paramRestElement in H. ok_inv; subst record; reflexivity. }
  injection H as <-. reflexivity.
Qed.

Lemma extractParams_ok ps params :
  js_map (extractParamInfo isFlow) ps = Ok params → params_ok params = true.
Proof.
  intros H. apply js_map_Forall2 in H as (items & items' & -> & -> & Hall).
  exact (Forall2_forallb _ param_ok _ _ Hall extractParamInfo_ok).
Qed.

Lemma classMember_ok member acc acc' :
  classMember isFlow member acc = Ok acc' →
  forallb present acc.1 = true → forallb method_ok acc.2 = true →
  forallb present acc'.1 = true ∧ forallb method_ok acc'.2 = true.
Proof.
  unfold classMember. intros H Hf Hm.
  destruct (isType "ClassMethod" member).
  { apply bind_ok in H as (key & _ & H). apply bind_ok in H as (name & _ & H).
    apply bind_ok in H as (static & _ & H). apply bind_ok in H as (kind & _ & H).
    apply bind_ok in H as (ps & _ & H). apply bind_ok in H as (params & Hp & H).
    apply bind_ok in H as (rt & _ & H). apply bind_ok in H as (returnType & _ & H).
    apply bind_ok in H as (l & _ & H). apply bind_ok in H as (loc & _ & H).
    injection H as <-. cbn [fst snd]. split; [exact Hf|].
    rewrite forallb_snoc, Hm. unfold method_ok. rewrite !prop_node. cbn.
    exact (extractParams_ok _ _ Hp). }
  destruct (isType "ClassProperty" member).
  { ok_inv. subst acc'. cbn [fst snd]. split; [|exact Hm].
    rewrite forallb_snoc, Hf. reflexivity. }
  injection H as <-. auto.
Qed.

Lemma classMembers_ok members : ∀ acc acc',
  foldM (classMember isFlow) members acc = Ok acc' →
  forallb present acc.1 = true → forallb method_ok acc.2 = true →
  forallb present acc'.1 = true ∧ forallb method_ok acc'.2 = true.
Proof.
  induction members as [|m members IH]; cbn [foldM]; intros acc acc' H Hf Hm.
  - injection H as <-. auto.
  - apply bind_ok in H as (acc1 & H1 & H).
    destruct (classMember_ok _ _ _ H1 Hf Hm) as [Hf1 Hm1]. eauto.
Qed.

Lemma exportSpecifiers_ok items : ∀ md md',
  foldM exportSpecifier items md = Ok md' →
  forallb symbol_ok (symbols md) = true → forallb symbol_ok (symbols md') = true.
Proof.
  induction items as [|x items IH]; cbn [foldM]; intros md md' H Hok.
  - injection H as <-. exact Hok.
  - apply bind_ok in H as (md1 & H1 & H). apply (IH _ _ H).
    unfold exportSpecifier in H1. ok_inv. subst md1.
    cbn [push_symbol symbols]. rewrite forallb_snoc, Hok. reflexivity.
Qed.

(** Every handler keeps the Symbols simplifiable. *)
Lemma handlers_symbols_ok node md md' :
  handlers isFlow node md = Ok md' →
  forallb symbol_ok (symbols md) = true → forallb symbol_ok (symbols md') = true.
Proof.
  unfold handlers. intros H Hok.
  destruct (isType "ImportDeclaration" node).
  { unfold onImportDeclaration in H. ok_inv. subst md'. exact Hok. }
  destruct (isType "CallExpression" node).
  { unfold onCallExpression in H. ok_inv; subst md'; exact Hok. }
  destruct (isType "FunctionDeclaration" node).
  { unfold onFunctionDeclaration in H.
    apply bind_ok in H as (id & _ & H).
    destruct (truthy id); [|injection H as <-; exact Hok].
    apply bind_ok in H as (name & _ & H). apply bind_ok in H as (ps & _ & H).
    apply bind_ok in H as (params & Hp & H). ok_inv. subst md'.
    cbn [push_symbol symbols]. rewrite forallb_snoc, Hok.
    unfold symbol_ok. rewrite !prop_node. cbn.
    rewrite (extractParams_ok _ _ Hp). reflexivity. }
  destruct (isType "VariableDeclarator" node).
  { unfold onVariableDeclarator in H.
    apply bind_ok in H as (id & _ & H). apply bind_ok in H as (init & _ & H).
    destruct (truthy id && isType "Identifier" id && truthy init);
      [|injection H as <-; exact Hok].
    destruct (isFunctionValue init).
    - apply bind_ok in H as (name & _ & H). apply bind_ok in H as (ps & _ & H).
      apply bind_ok in H as (params & Hp & H). ok_inv. subst md'.
      cbn [push_symbol symbols]. rewrite forallb_snoc, Hok.
      unfold symbol_ok. rewrite !prop_node. cbn.
      rewrite (extractParams_ok _ _ Hp). reflexivity.
    - ok_inv; subst md'; try exact Hok.
      cbn [push_symbol symbols]. rewrite forallb_snoc, Hok. reflexivity. }
  destruct (isType "ClassDeclaration" node).
  { unfold onClassDeclaration in H.
    apply bind_ok in H as (id & _ & H).
    destruct (truthy id); [|injection H as <-; exact Hok].
    apply bind_ok in H as (name & _ & H). apply bind_ok in H as (l & _ & H).
    apply bind_ok in H as (loc & _ & H). apply bind_ok in H as (superClass & _ & H).
    apply bind_ok in H as (classMetadata & Hc & H).
    apply bind_ok in H as (body & _ & H). apply bind_ok in H as (members & _ & H).
    apply bind_ok in H as (acc & Hacc & H). injection H as <-.
    unfold js_forEach in Hacc. destruct members; try discriminate Hacc.
    destruct (classMembers_ok _ _ _ Hacc eq_refl eq_refl) as [Hf Hm].
    cbn [push_symbol symbols]. rewrite forallb_snoc, Hok.
    destruct (truthy superClass && isType "Identifier" superClass);
      ok_inv; subst classMetadata;
      unfold symbol_ok; rewrite !prop_node; cbn; rewrite Hf, Hm; reflexivity. }
  destruct (isType "ExportNamedDeclaration" node).
  { unfold onExportNamedDeclaration in H.
    apply bind_ok in H as (declaration & _ & H).
    destruct (truthy declaration); [injection H as <-; exact Hok|].
    apply bind_ok in H as (specs & _ & H).
    unfold js_forEach in H. destruct specs; try discriminate H.
    exact (exportSpecifiers_ok _ _ _ H Hok). }
  destruct (isType "ExportDefaultDeclaration" node).
  { injection H as <-. exact Hok. }
  injection H as <-. exact Hok.
Qed.

Lemma extract_symbols_ok keys ast md :
  extract keys isFlow ast = Ok md → forallb symbol_ok (symbols md) = true.
Proof.
  unfold extract. intros H.
  exact (traverse_invariant keys (handlers isFlow)
           (λ md, forallb symbol_ok (symbols md) = true)
           handlers_symbols_ok _ _ _ H eq_refl).
Qed.
End Records.

Section Parsed.
Context (parse : string → list string → result value).
Context (keys : string → list string) (isFlow : option (value → bool)).
Context (text : string).

Lemma parseFile_extracted content filePath v :
  parseFile parse keys isFlow text content filePath = Ok v →
  extracted keys isFlow (file_result filePath v).
Proof.
  unfold parseFile. intros H.
  destruct (parse content (plugins filePath)) as [ast|]; [|discriminate H].
  cbn [bind] in H. destruct (extract keys isFlow ast) as [md|] eqn:E; [|discriminate H].
  injection H as <-. exists filePath, ast, md. auto.
Qed.

Lemma field_symbols md : field "symbols" (match metadata_value md with VObj fs => fs | _ => [] end)
                         = VArr (symbols md).
Proof. reflexivity. Qed.

Lemma symbols_ok_present syms :
  forallb symbol_ok syms = true → forallb (λ sym, negb (nullish sym)) syms = true.
Proof.
  induction syms as [|s syms IH]; cbn [forallb]; [reflexivity|]. intros H.
  apply andb_true_iff in H as [Hs H]. rewrite (IH H), andb_true_r.
  unfold symbol_ok in Hs. do 3 apply andb_true_iff, proj1 in Hs. exact Hs.
Qed.

Lemma extracted_valid fileData : extracted keys isFlow fileData → valid_file_result fileData = true.
Proof.
  intros (filePath & ast & md & Hmd & ->).
  apply extract_symbols_ok in Hmd. apply symbols_ok_present in Hmd.
  unfold file_result, valid_file_result, metadata_value.
  assert (forallb (λ _ : value, true) (dependencies md) = true) as Hdeps
    by (induction (dependencies md); auto).
  destruct (hasDefaultExport md); cbn; rewrite Hmd, Hdeps; reflexivity.
Qed.

Lemma extracted_file_ok basename relative root fileData :
  extracted keys isFlow fileData →
  file_ok (fileManifest_of basename relative root fileData) = true
  ∧ Forall (λ s, symbol_tag (prop s "type") = true)
      (symbols_of (fileManifest_of basename relative root fileData)).
Proof.
  intros (filePath & ast & md & Hmd & ->).
  pose proof (extract_symbols_ok _ _ _ _ Hmd) as Hok.
  destruct (extract_tagged _ _ _ _ Hmd) as [Htags _].
  unfold file_result, fileManifest_of, metadata_value, file_ok, symbols_of.
  destruct (hasDefaultExport md); cbn; rewrite ?Hok; auto.
Qed.

Lemma Forall_forallb {A} (P : A → Prop) (f : A → bool) l :
  (∀ x, P x → f x = true) → Forall P l → forallb f l = true.
Proof.
  intros Hf. induction 1 as [|x l Hx _ IH]; cbn [forallb]; [reflexivity|].
  rewrite (Hf x Hx), IH. reflexivity.
Qed.

(** The manifest of extracted file results: it is built, every symbol of
    it is tagged, and the LLM format can be made of it. *)
Lemma extracted_manifest basename relative now parsedFiles root :
  parsedFiles ≠ [] →
  Forall (extracted keys isFlow) parsedFiles →
  ∃ manifest fileManifests f c k e,
    buildManifest basename relative now (VArr parsedFiles) (VStr root) = Ok manifest
    ∧ prop manifest "files" = VArr fileManifests
    ∧ length fileManifests = length parsedFiles
    ∧ all_tagged fileManifests
    ∧ manifest_ok manifest = true
    ∧ typeStat manifest "functions" = VNum f
    ∧ typeStat manifest "classes" = VNum c
    ∧ typeStat manifest "constants" = VNum k
    ∧ typeStat manifest "exports" = VNum e
    ∧ stat manifest "totalSymbols" = VNum (f + c + k + e).
Proof.
  intros Hne Hall.
  pose proof (Forall_forallb _ _ _ extracted_valid Hall) as Hvalid.
  destruct (buildManifest_valid basename relative now parsedFiles root Hne Hvalid)
    as (p & (Hf & Hc & Hk & He) & [Hs _] & Hfiles & Hbuild).
  assert (all_tagged (files p)) as Htagged.
  { rewrite Hfiles. unfold all_tagged. apply Forall_map.
    eapply Forall_impl; [exact Hall|]. intros fd Hfd.
    apply (extracted_file_ok basename relative root fd Hfd). }
  eexists. exists (files p), (functions p), (classes p), (constants p), (exports p).
  split; [exact Hbuild|]. split; [reflexivity|].
  split; [rewrite Hfiles; apply length_map|].
  split; [exact Htagged|].
  split.
  { unfold manifest_ok. cbn. rewrite Hfiles.
    apply forallb_forall. intros x Hx.
    apply in_map_iff in Hx as (fd & <- & Hin).
    apply extracted_file_ok. exact (proj1 (List.Forall_forall _ _) Hall fd Hin). }
  repeat split.
  change (totalSymbols p = VNum (functions p + classes p + constants p + exports p)).
  rewrite Hs, Hf, Hc, Hk, He. f_equal. symmetry. apply count_tagged_eq, Htagged.
Qed.

(** X15: for file results that come from the extractor, the manifest is
    built and the four counters of [stats.typeStats] add up to
    [stats.totalSymbols]. *)
Theorem extracted_typeStats_total basename relative now parsedFiles root :
  parsedFiles ≠ [] →
  Forall (extracted keys isFlow) parsedFiles →
  ∃ manifest f c k e,
    buildManifest basename relative now (VArr parsedFiles) (VStr root) = Ok manifest
    ∧ typeStat manifest "functions" = VNum f
    ∧ typeStat manifest "classes" = VNum c
    ∧ typeStat manifest "constants" = VNum k
    ∧ typeStat manifest "exports" = VNum e
    ∧ stat manifest "totalSymbols" = VNum (f + c + k + e).
Proof.
  intros Hne Hall.
  destruct (extracted_manifest basename relative now parsedFiles root Hne Hall)
    as (manifest & fl & f & c & k & e & Hb & _ & _ & _ & _ & H1 & H2 & H3 & H4 & H5).
  exists manifest, f, c, k, e. auto 10.
Qed.

(** X16: whatever the front-end or a handler throws, [parseFile] throws a
    [ParseError] whose message is "Failed to parse <path>: " followed by the
    message of the exception caught, whose path is the path of the file,
    and whose position is the position the exception reports, or [null];
    nothing else of the exception is kept. *)
Theorem parseFile_throws_ParseError content filePath e :
  parseFile parse keys isFlow text content filePath = Throw e →
  ∃ caught,
    e = ParseError ("Failed to parse " +:+ filePath +:+ ": " +:+ exn_message text caught)
          filePath (js_or (exn_loc caught) VNull)
    ∧ (parse content (plugins filePath) = Throw caught
       ∨ ∃ ast, parse content (plugins filePath) = Ok ast
                ∧ extract keys isFlow ast = Throw caught).
Proof.
  unfold parseFile. intros H.
  destruct (parse content (plugins filePath)) as [ast|caught]; cbn [bind] in H.
  - destruct (extract keys isFlow ast) as [md|caught] eqn:E; cbn [bind] in H;
      [discriminate H|].
    injection H as <-. exists caught. eauto.
  - injection H as <-. exists caught. auto.
Qed.

Section Run.
Context (basename : string → string) (relative : string → string → string) (now : string).
Context (findSourceFiles : value → attempt (list string)).
Context (readFile : string → attempt string).
Context (writeManifest : value → value → value → attempt string).

Lemma processPaths_through filePaths : ∀ processed,
  Forall (goes_through parse keys isFlow text readFile) filePaths →
  ∃ results,
    foldA (processPath parse keys isFlow text readFile) filePaths processed = Done (processed ++ results)
    ∧ Forall (extracted keys isFlow) results
    ∧ length results = length filePaths.
Proof.
  induction filePaths as [|p filePaths IH]; intros processed Hall; cbn [foldA].
  - exists []. rewrite app_nil_r. auto.
  - apply Forall_cons in Hall as [(content & v & Hread & Hparse) Hall].
    unfold Index.processPath at 1. rewrite Hread. cbn [attempt_bind].
    rewrite Hparse. cbn [lift attempt_bind].
    destruct (IH (processed ++ [VObj [("filePath", VStr p); ("metadata", v)]]) Hall)
      as (results & -> & Hres & Hlen).
    exists (file_result p v :: results). rewrite <- app_assoc.
    split; [reflexivity|]. split; [|cbn [length]; lia].
    constructor; [exact (parseFile_extracted _ _ _ Hparse) | exact Hres].
Qed.

Lemma processPaths_broken before bad after f : ∀ processed,
  Forall (goes_through parse keys isFlow text readFile) before →
  breaks_with parse keys isFlow text readFile f bad →
  foldA (processPath parse keys isFlow text readFile) (before ++ bad :: after) processed = Failed f.
Proof.
  induction before as [|p before IH]; intros processed Hall Hbad; cbn [foldA app].
  - unfold Index.processPath at 1.
    destruct Hbad as [Hread|(content & e & Hread & Hparse & ->)]; rewrite Hread;
      cbn [attempt_bind]; [reflexivity|].
    rewrite Hparse. reflexivity.
  - apply Forall_cons in Hall as [(content & v & Hread & Hparse) Hall].
    unfold Index.processPath at 1. rewrite Hread. cbn [attempt_bind].
    rewrite Hparse. cbn [lift attempt_bind]. apply IH; assumption.
Qed.

(** X17: when every source file found is read and parsed, and there is at
    least one, nothing fails between the parsing and the writing: the
    manifest is built, the selected passes return, and the run ends as
    [writeManifest] does on the final manifest, whichever of the two passes
    the configuration selects. *)
Theorem run_reaches_writeManifest config root filePaths :
  truthy (field "help" config) = false →
  field "sourcePath" config = VStr root →
  findSourceFiles (VStr root) = Done filePaths →
  filePaths ≠ [] →
  Forall (goes_through parse keys isFlow text readFile) filePaths →
  ∃ processedFiles manifest final,
    length processedFiles = length filePaths
    ∧ buildManifest basename relative now (VArr processedFiles) (VStr root) = Ok manifest
    ∧ finalManifest (VObj config) manifest = Ok final
    ∧ run parse keys isFlow text basename relative now findSourceFiles readFile writeManifest
        (VObj config) =
      attempt_bind
        (writeManifest final (field "outputPath" config) (field "compress" config))
        (λ written, Done (ManifestWritten written)).
Proof.
  intros Hhelp Hsource Hfind Hne Hall.
  destruct (processPaths_through filePaths [] Hall) as (results & Hloop & Hres & Hlen).
  assert (results ≠ []) as Hne'.
  { intros ->. destruct filePaths; [congruence | discriminate Hlen]. }
  destruct (extracted_manifest basename relative now results root Hne' Hres)
    as (manifest & fl & f & c & k & e & Hb & _ & _ & _ & Hok & _).
  assert (∃ final, finalManifest (VObj config) manifest = Ok final) as (final & Hfinal).
  { unfold finalManifest. rewrite !getProp_obj. cbn [bind].
    destruct (truthy (field "llmOptimized" config)).
    - destruct (optimizeForLLM_total manifest Hok) as (out & ->). cbn [bind]. eauto.
    - cbn [bind]. eauto. }
  exists results, manifest, final.
  split; [exact Hlen|]. split; [exact Hb|]. split; [exact Hfinal|].
  unfold Index.run. rewrite !getProp_obj. cbn [lift attempt_bind].
  rewrite Hhelp, Hsource, Hfind. cbn [attempt_bind].
  rewrite Hloop. cbn [attempt_bind app]. rewrite Hb. cbn [lift attempt_bind].
  rewrite Hfinal. reflexivity.
Qed.

(** X18: when no source file is found, the run fails with the
    [UserInputError] 'No files to process', and [writeManifest] is not
    reached. *)
Theorem run_without_files config :
  truthy (field "help" config) = false →
  findSourceFiles (field "sourcePath" config) = Done [] →
  run parse keys isFlow text basename relative now findSourceFiles readFile writeManifest
    (VObj config) = Failed (Raised (UserInputError "No files to process")).
Proof.
  intros Hhelp Hfind. unfold Index.run. rewrite !getProp_obj. cbn [lift attempt_bind].
  rewrite Hhelp, Hfind. reflexivity.
Qed.

(** X19: the first file that cannot be read or parsed ends the run with
    its failure: the files after it are not looked at, no manifest is built
    of the files before it, and [writeManifest] is not reached. *)
Theorem run_stops_at_first_failure config before bad after f :
  truthy (field "help" config) = false →
  findSourceFiles (field "sourcePath" config) = Done (before ++ bad :: after) →
  Forall (goes_through parse keys isFlow text readFile) before →
  breaks_with parse keys isFlow text readFile f bad →
  run parse keys isFlow text basename relative now findSourceFiles readFile writeManifest
    (VObj config) = Failed f.
Proof.
  intros Hhelp Hfind Hbefore Hbad. unfold Index.run. rewrite !getProp_obj.
  cbn [lift attempt_bind]. rewrite Hhelp, Hfind. cbn [attempt_bind].
  rewrite (processPaths_broken before bad after f [] Hbefore Hbad). reflexivity.
Qed.

End Run.
End Parsed.

Lemma extracted_typeStats_total_witness :
  ∃ manifest f c k e,
    buildManifest (λ s, s) (λ _ s, s) "2024-01-01T00:00:00.000Z"
      (VArr [file_result "/repo/add.js" (metadata_value add_metadata)]) (VStr "/repo")
    = Ok manifest
    ∧ typeStat manifest "functions" = VNum f
    ∧ typeStat manifest "classes" = VNum c
    ∧ typeStat manifest "constants" = VNum k
    ∧ typeStat manifest "exports" = VNum e
    ∧ stat manifest "totalSymbols" = VNum (f + c + k + e).
Proof.
  apply (extracted_typeStats_total babel_VISITOR_KEYS babel_isFlowTypeAnnotation); [discriminate|].
  constructor; [|constructor].
  exists "/repo/add.js", add_tree, add_metadata. split; reflexivity.
Defined.

Lemma parseFile_throws_ParseError_witness :
  ∃ caught,
    ParseError "Failed to parse /repo/notes.js: Unexpected token (1:0)" "/repo/notes.js"
      (VObj [("line", VNum 1); ("column", VNum 0)])
    = ParseError
        ("Failed to parse " +:+ "/repo/notes.js" +:+ ": "
         +:+ exn_message not_a_function caught)
        "/repo/notes.js" (js_or (exn_loc caught) VNull)
    ∧ (add_front_end "not javascript {" (plugins "/repo/notes.js") = Throw caught
       ∨ ∃ ast, add_front_end "not javascript {" (plugins "/repo/notes.js") = Ok ast
                ∧ extract babel_VISITOR_KEYS babel_isFlowTypeAnnotation ast = Throw caught).
Proof.
  apply (parseFile_throws_ParseError add_front_end babel_VISITOR_KEYS
           babel_isFlowTypeAnnotation not_a_function "not javascript {" "/repo/notes.js").
  reflexivity.
Defined.

Lemma run_reaches_writeManifest_witness :
  ∃ processedFiles manifest final,
    length processedFiles = length ["/repo/add.js"]
    ∧ buildManifest (λ s, s) (λ _ s, s) "2024-01-01T00:00:00.000Z"
        (VArr processedFiles) (VStr "/repo") = Ok manifest
    ∧ finalManifest (VObj add_config) manifest = Ok final
    ∧ run add_front_end babel_VISITOR_KEYS babel_isFlowTypeAnnotation not_a_function (λ s, s) (λ _ s, s)
        "2024-01-01T00:00:00.000Z" add_project disk write_anywhere (VObj add_config) =
      attempt_bind
        (write_anywhere final (field "outputPath" add_config) (field "compress" add_config))
        (λ written, Done (ManifestWritten written)).
Proof.
  apply (run_reaches_writeManifest add_front_end babel_VISITOR_KEYS babel_isFlowTypeAnnotation not_a_function
           (λ s, s) (λ _ s, s) "2024-01-01T00:00:00.000Z" add_project disk write_anywhere
           add_config "/repo" ["/repo/add.js"]);
    try reflexivity; [discriminate|].
  constructor; [|constructor].
  exists add_source. eexists. split; reflexivity.
Defined.

Lemma run_without_files_witness :
  run add_front_end babel_VISITOR_KEYS babel_isFlowTypeAnnotation not_a_function (λ s, s) (λ _ s, s)
    "2024-01-01T00:00:00.000Z" empty_project disk write_anywhere (VObj add_config)
  = Failed (Raised (UserInputError "No files to process")).
Proof.
  apply (run_without_files add_front_end babel_VISITOR_KEYS babel_isFlowTypeAnnotation not_a_function
           (λ s, s) (λ _ s, s) "2024-01-01T00:00:00.000Z" empty_project disk
           write_anywhere add_config); reflexivity.
Defined.

Lemma run_stops_at_first_failure_witness :
  run add_front_end babel_VISITOR_KEYS babel_isFlowTypeAnnotation not_a_function (λ s, s) (λ _ s, s)
    "2024-01-01T00:00:00.000Z" mixed_project disk write_anywhere (VObj add_config)
  = Failed (Raised
      (ParseError "Failed to parse /repo/notes.js: Unexpected token (1:0)"
         "/repo/notes.js" (VObj [("line", VNum 1); ("column", VNum 0)]))).
Proof.
  apply (run_stops_at_first_failure add_front_end babel_VISITOR_KEYS babel_isFlowTypeAnnotation not_a_function
           (λ s, s) (λ _ s, s) "2024-01-01T00:00:00.000Z" mixed_project disk
           write_anywhere add_config ["/repo/add.js"] "/repo/notes.js" ["/repo/zzz.js"]).
  - reflexivity.
  - reflexivity.
  - constructor; [|constructor]. exists add_source. eexists. split; reflexivity.
  - right. exists "not javascript {". eexists. repeat split; reflexivity.
Defined.

End Pipeline.
(** * Further properties of the string table *)

Module InternMore.
Import Trees Notions Views Facts ManifestSpec.

Lemma consistent_has st s :
  consistent st → (is_Some (stringMap st !! s) ↔ s ∈ stringTable st).
Proof.
  intros Hc. rewrite list_elem_of_lookup. split.
  - intros [i Hi]. exists i. apply Hc, Hi.
  - intros [i Hi]. exists i. apply Hc, Hi.
Qed.

Lemma internString_table s st :
  consistent st →
  stringTable (internString (VStr s) st).2 = add_string (stringTable st) s.
Proof.
  intros Hc. cbn [internString]. unfold add_string.
  destruct (bool_decide (is_Some (stringMap st !! s))) eqn:Hhas.
  - apply bool_decide_eq_true in Hhas. apply (consistent_has _ _ Hc) in Hhas.
    rewrite bool_decide_eq_true_2 by exact Hhas. reflexivity.
  - apply bool_decide_eq_false in Hhas.
    rewrite bool_decide_eq_false_2; [reflexivity|].
    intros Hin. apply Hhas, (consistent_has _ _ Hc), Hin.
Qed.

Lemma internString_consistent s st :
  consistent st → consistent (internString (VStr s) st).2.
Proof.
  intros Hc. destruct (internString (VStr s) st) as [r st'] eqn:E.
  exact (proj1 (internString_spec _ _ _ _ Hc E)).
Qed.

Lemma process_items_tabled items :
  Forall tabled items →
  ∀ st, consistent st →
    consistent (process_items processObject items st).2
    ∧ stringTable (process_items processObject items st).2
      = foldl add_string (stringTable st) (flat_map interned items).
Proof.
  induction 1 as [|x items Hx _ IH]; intros st Hc; cbn [process_items flat_map].
  - auto.
  - destruct (Hx st Hc) as [Hc1 Ht1].
    destruct (processObject x st) as [r st1]. cbn [snd] in *.
    destruct (IH st1 Hc1) as [Hc2 Ht2].
    destruct (process_items processObject items st1) as [rs st2]. cbn [snd] in *.
    split; [exact Hc2|]. rewrite foldl_app, <- Ht1. exact Ht2.
Qed.

Lemma map_entries_tabled fs :
  Forall (λ kv, tabled kv.2) fs →
  ∀ st, consistent st →
    consistent (map_entries processObject fs st).2
    ∧ stringTable (map_entries processObject fs st).2
      = foldl add_string (stringTable st) (interned (VObj fs)).
Proof.
  induction 1 as [|[k x] fs Hx _ IH]; intros st Hc; cbn [map_entries interned flat_map].
  - auto.
  - cbn [fst snd] in *. unfold entry_value.
    assert (∀ (st1 : interner) (new : list string),
              consistent st1 →
              stringTable st1 = foldl add_string (stringTable st) new →
              consistent (map_entries processObject fs st1).2
              ∧ stringTable (map_entries processObject fs st1).2
                = foldl add_string (stringTable st)
                    (new ++ flat_map (λ kv, if excluded kv.1 then []
                                            else if is_string kv.2 then string_held kv.2
                                            else interned kv.2) fs)) as Hrest.
    { intros st1 new Hc1 Ht1. destruct (IH st1 Hc1) as [Hc2 Ht2].
      split; [exact Hc2|]. rewrite foldl_app, <- Ht1. exact Ht2. }
    destruct (excluded k).
    { destruct (Hrest st [] Hc eq_refl) as [Hc2 Ht2].
      destruct (map_entries processObject fs st) as [out st2]. auto. }
    destruct (is_string x) eqn:Hs.
    { destruct x; try discriminate Hs.
      pose proof (internString_consistent s st Hc) as Hc1.
      pose proof (internString_table s st Hc) as Ht1.
      destruct (internString (VStr s) st) as [r st1]. cbn [snd] in *.
      destruct (Hrest st1 [s] Hc1 Ht1) as [Hc2 Ht2].
      destruct (map_entries processObject fs st1) as [out st2]. auto. }
    destruct (Hx st Hc) as [Hc1 Ht1].
    destruct (processObject x st) as [r st1]. cbn [snd] in *.
    destruct (Hrest st1 (interned x) Hc1 Ht1) as [Hc2 Ht2].
    destruct (map_entries processObject fs st1) as [out st2]. auto.
Qed.

Lemma processObject_tabled v : tabled v.
Proof.
  induction v as [| | | | | |items IH|fs IH] using value_ind;
    try (intros st Hc; split; [exact Hc | reflexivity]).
  - intros st Hc. cbn [processObject interned].
    pose proof (process_items_tabled items IH st Hc) as H.
    destruct (process_items processObject items st) as [rs st']. exact H.
  - intros st Hc. cbn [processObject].
    pose proof (process_entries_state processObject fs [] st) as Hstate.
    destruct (process_entries processObject fs [] st) as [out st']. cbn [snd] in *.
    rewrite Hstate. apply map_entries_tabled; assumption.
Qed.

Lemma field_obj_set k v fs : field k (obj_set k v fs) = v.
Proof.
  unfold field. induction fs as [|[k' v'] fs IH]; cbn [obj_set find_field].
  - rewrite String.eqb_refl. reflexivity.
  - destruct (String.eqb k' k) eqn:E; cbn [find_field]; rewrite E; [reflexivity | exact IH].
Qed.

Lemma optimizeManifest_table manifest :
  ∃ st, consistent st
        ∧ stringTable st = foldl add_string [] (interned manifest)
        ∧ prop (optimizeManifest manifest) "stringTable" = VArr (VStr <$> stringTable st).
Proof.
  unfold optimizeManifest.
  destruct (processObject_tabled manifest (Interner [] ∅) consistent_empty) as [Hc Ht].
  destruct (processObject manifest (Interner [] ∅)) as [optimized st]. cbn [snd] in *.
  exists st. split; [exact Hc|]. split; [exact Ht|].
  rewrite prop_node. apply field_obj_set.
Qed.

(** X20: the string table lists, in the order of their first occurrence
    and each once, the strings held by the fields whose key is not
    [version], [generated] or [rootPath], at any depth of the manifest, and
    nothing else: a string that occurs only as an array element or under an
    excluded key is not in the table. *)
Theorem stringTable_first_occurrences manifest :
  strings_of (prop (optimizeManifest manifest) "stringTable")
  = foldl add_string [] (interned manifest).
Proof.
  destruct (optimizeManifest_table manifest) as (st & _ & Ht & ->).
  rewrite strings_of_table. exact Ht.
Qed.

(** X21: no string occurs twice in the string table, whatever the manifest
    is. *)
Theorem stringTable_NoDup manifest :
  NoDup (strings_of (prop (optimizeManifest manifest) "stringTable")).
Proof.
  destruct (optimizeManifest_table manifest) as (st & Hc & _ & ->).
  rewrite strings_of_table. apply NoDup_alt. intros i j s Hi Hj.
  apply Hc in Hi, Hj. congruence.
Qed.

(** X22: on an object without a [stringTable] key, the result has the keys
    of the manifest, in their order, followed by [stringTable]. *)
Theorem optimizeManifest_keys manifest :
  interning_input manifest = true →
  record_fields (optimizeManifest manifest) = record_fields manifest ++ ["stringTable"].
Proof.
  intros H. destruct manifest as [| | | | | | |fs]; try discriminate H.
  destruct (optimizeManifest_obj fs H) as (out & st & Hmap & _ & ->).
  pose proof (map_entries_keys processObject fs (Interner [] ∅)) as Hkeys.
  rewrite Hmap in Hkeys. cbn [fst] in Hkeys.
  cbn [record_fields]. rewrite fmap_app, Hkeys. reflexivity.
Qed.

Lemma optimizeManifest_keys_witness :
  record_fields (optimizeManifest sample_manifest)
  = record_fields sample_manifest ++ ["stringTable"].
Proof. apply (optimizeManifest_keys sample_manifest). reflexivity. Defined.
End InternMore.
(** * Properties of the command line *)

Module CliMore.
Import Trees Notions Views Facts ManifestSpec InternMore.
Import Cli.

Lemma field_obj_set_other k k' v fs : k' ≠ k → field k (obj_set k' v fs) = field k fs.
Proof.
  intros Hne. unfold field.
  induction fs as [|[k0 v0] fs IH]; cbn [obj_set find_field].
  - rewrite String_eqb_false by exact Hne. reflexivity.
  - destruct (String.eqb k0 k') eqn:E; cbn [find_field].
    + apply String.eqb_eq in E. subst k0.
      rewrite (String_eqb_false _ _ Hne). reflexivity.
    + destruct (String.eqb k0 k); [reflexivity | exact IH].
Qed.

Ltac fields :=
  repeat first
    [ rewrite field_obj_set
    | rewrite field_obj_set_other by discriminate ].

(** Induction on the argument list the way the loop consumes it. *)
Lemma args_ind (P : list string → Prop) :
  P [] →
  (∀ arg rest, P rest → (∀ out rest', rest = out :: rest' → P rest') → P (arg :: rest)) →
  ∀ args, P args.
Proof.
  intros Hnil Hstep args.
  assert (P args ∧ ∀ out rest', args = out :: rest' → P rest') as [H _]; [|exact H].
  induction args as [|arg rest [IH1 IH2]].
  - split; [exact Hnil | discriminate].
  - split; [apply Hstep; assumption|]. intros out rest' [= -> ->]. exact IH1.
Qed.

Ltac in_keys := repeat first [apply list_elem_of_here | apply list_elem_of_further].

Ltac flag_value E :=
  apply orb_true_iff in E as [E|E]; apply String.eqb_eq in E; subst.

Ltac settle_fields :=
  repeat match goal with
         | H : field _ _ = _ |- _ => rewrite H; clear H
         end;
  fields;
  repeat match goal with
         | |- context [if ?c then _ else _] => destruct c
         | |- context [match ?c with Some _ => _ | None => _ end] => destruct c
         end;
  try reflexivity.

Section Reading.
Context (resolve : string → string).

Lemma last_cons_cons {A} (x y : A) l : last (x :: y :: l) = last (y :: l).
Proof. reflexivity. Qed.

(** What the loop of the later cli.js leaves in the configuration. *)
Lemma scan_reads args : ∀ config config',
  CliFormat.scan args config = Ok config' →
  field "replayMode" config' = field "replayMode" config
  ∧ field "compress" config'
    = (if has_flag "--compress" "-c" args then VBool true else field "compress" config)
  ∧ field "fullFormat" config'
    = (if has_flag "--full-format" "-f" args then VBool true else field "fullFormat" config)
  ∧ field "llmOptimized" config'
    = (if has_flag "--full-format" "-f" args then VBool false
       else field "llmOptimized" config)
  ∧ field "help" config'
    = (if has_flag "--help" "-h" args then VBool true else field "help" config)
  ∧ field "outputPath" config'
    = (match last (outputs args) with
       | Some out => VStr out
       | None => field "outputPath" config
       end)
  ∧ field "sourcePath" config'
    = foldl pick_source (field "sourcePath" config) (positionals args).
Proof.
  induction args as [| arg rest IH IH2] using args_ind; intros config config' H.
  - injection H as <-. repeat split.
  - cbn [CliFormat.scan] in H. unfold has_flag, positionals. cbn [words outputs].
    destruct (is_flag "--out" "-o" arg) eqn:E1.
    { destruct rest as [|out rest']; [discriminate H|].
      destruct (IH2 out rest' eq_refl _ _ H) as (R1 & R2 & R3 & R4 & R5 & R6 & R7).
      unfold has_flag, positionals in *.
      flag_value E1; cbn; rewrite last_cons; repeat split; settle_fields. }
    destruct (is_flag "--compress" "-c" arg) eqn:E2.
    { destruct (IH _ _ H) as (R1 & R2 & R3 & R4 & R5 & R6 & R7).
      unfold has_flag, positionals in *. flag_value E2; cbn; repeat split; settle_fields. }
    destruct (is_flag "--full-format" "-f" arg) eqn:E3.
    { destruct (IH _ _ H) as (R1 & R2 & R3 & R4 & R5 & R6 & R7).
      unfold has_flag, positionals in *. flag_value E3; cbn; repeat split; settle_fields. }
    destruct (is_flag "--help" "-h" arg) eqn:E4.
    { destruct (IH _ _ H) as (R1 & R2 & R3 & R4 & R5 & R6 & R7).
      unfold has_flag, positionals in *. flag_value E4; cbn; repeat split; settle_fields. }
    destruct (startsWith_dash arg) eqn:E5; [discriminate H|].
    cbn [existsb List.filter]. rewrite E2, E3, E4, E5. cbn [orb negb foldl].
    unfold pick_source at 2.
    destruct (truthy (field "sourcePath" config)) eqn:Hs; cbn [negb] in H;
      destruct (IH _ _ H) as (R1 & R2 & R3 & R4 & R5 & R6 & R7);
      unfold has_flag, positionals in *; repeat split; settle_fields.
Qed.

Lemma pick_source_kept current l :
  truthy current = true → foldl pick_source current l = current.
Proof.
  intros H. induction l as [|a l IH]; cbn [foldl]; [reflexivity|].
  unfold pick_source at 2. rewrite H. exact IH.
Qed.

Lemma pick_source_first current l :
  truthy current = false →
  foldl pick_source current l
  = match List.filter nonempty l with
    | s :: _ => VStr s
    | [] => match l with [] => current | _ :: _ => VStr "" end
    end.
Proof.
  revert current. induction l as [|a l IH]; intros current H; cbn [foldl List.filter].
  - reflexivity.
  - unfold pick_source at 2. rewrite H. unfold nonempty at 1.
    destruct (String.eqb a "") eqn:E; cbn [negb].
    + apply String.eqb_eq in E. subst a. rewrite IH by reflexivity.
      destruct (List.filter nonempty l); [destruct l|]; reflexivity.
    + apply pick_source_kept. cbn [truthy]. rewrite E. reflexivity.
Qed.

Lemma source_first args :
  foldl pick_source VNull (positionals args)
  = match List.filter nonempty (positionals args) with
    | s :: _ => VStr s
    | [] => match positionals args with [] => VNull | _ :: _ => VStr "" end
    end.
Proof. apply pick_source_first. reflexivity. Qed.

Lemma filter_nonempty_truthy l s rest :
  List.filter nonempty l = s :: rest → truthy (VStr s) = true.
Proof.
  intros H. assert (In s (List.filter nonempty l)) as Hin by (rewrite H; left; reflexivity).
  apply filter_In in Hin as [_ Hs]. exact Hs.
Qed.

(** X23: outside the replay mode, the configuration the later cli.js
    returns can be read off the argument list, whatever the order of the
    arguments: [compress] and [fullFormat] tell whether their option occurs,
    [llmOptimized] is the negation of [fullFormat], [help] is set when its
    option occurs, [outputPath] is the value of the last [--out] (the
    default when there is none or it is empty), and [sourcePath] is the
    first positional that is not empty, resolved; the value that follows
    [--out] is never read as an option or a positional. *)
Theorem parseCliArguments_reads args config :
  existsb (String.eqb "--replay-errors") args = false →
  CliFormat.parseCliArguments resolve args = Ok config →
  prop config "replayMode" = VBool false
  ∧ prop config "sourcePath" = source_of resolve args
  ∧ prop config "outputPath" = VStr (output_of args)
  ∧ prop config "compress" = VBool (has_flag "--compress" "-c" args)
  ∧ prop config "fullFormat" = VBool (has_flag "--full-format" "-f" args)
  ∧ prop config "llmOptimized" = VBool (negb (has_flag "--full-format" "-f" args))
  ∧ truthy (prop config "help") = has_flag "--help" "-h" args.
Proof.
  intros Hreplay H. unfold CliFormat.parseCliArguments in H. rewrite Hreplay in H.
  apply bind_ok in H as (scanned & Hscan & H).
  destruct (scan_reads _ _ _ Hscan) as (R1 & R2 & R3 & R4 & R5 & R6 & R7).
  cbn in R1, R2, R3, R4, R5, R6. rewrite source_first in R7.
  destruct (negb (truthy (field "sourcePath" scanned))
            && negb (truthy (field "help" scanned))); [discriminate H|].
  apply bind_ok in H as (resolved & Hres & H). injection H as <-.
  assert (field "sourcePath" resolved = source_of resolve args
          ∧ ∀ k, k ≠ "sourcePath" → field k resolved = field k scanned) as [S1 S2].
  { unfold CliFormat.resolve_source in Hres. unfold source_of. rewrite R7 in Hres.
    destruct (List.filter nonempty (positionals args)) as [|s l] eqn:Hf.
    - destruct (positionals args); cbn in Hres; injection Hres as <-;
        rewrite R7; auto.
    - rewrite (filter_nonempty_truthy _ _ _ Hf) in Hres. cbn [path_resolve bind] in Hres.
      injection Hres as <-. split; [apply field_obj_set|].
      intros k Hk. apply field_obj_set_other. congruence. }
  assert (field "outputPath" (default_output resolved) = VStr (output_of args)
          ∧ ∀ k, k ≠ "outputPath" →
                 field k (default_output resolved) = field k resolved) as [O1 O2].
  { unfold default_output, output_of. rewrite (S2 "outputPath") by discriminate.
    rewrite R6. destruct (last (outputs args)) as [out|]; cbn [truthy negb].
    - unfold nonempty. destruct (String.eqb out "") eqn:E; cbn [negb].
      + split; [apply field_obj_set|]. intros k Hk. apply field_obj_set_other. congruence.
      + rewrite (S2 "outputPath"), R6 by discriminate. auto.
    - split; [apply field_obj_set|]. intros k Hk. apply field_obj_set_other. congruence. }
  rewrite !prop_node.
  rewrite (O2 "replayMode"), (O2 "sourcePath"), (O2 "compress"), (O2 "fullFormat"),
    (O2 "llmOptimized"), (O2 "help") by discriminate.
  rewrite (S2 "replayMode"), (S2 "compress"), (S2 "fullFormat"),
    (S2 "llmOptimized"), (S2 "help") by discriminate.
  rewrite R1, R2, R3, R4, R5, S1, O1.
  repeat split;
    match goal with |- context [has_flag ?l ?s args] => destruct (has_flag l s args) end;
    reflexivity.
Qed.



Lemma obj_set_app k v fs extra :
  k ∈ fs.*1 → obj_set k v (fs ++ extra) = obj_set k v fs ++ extra.
Proof.
  induction fs as [|[k' v'] fs IH]; cbn [obj_set app fmap list_fmap fst].
  - intros H. inversion H.
  - intros H. destruct (String.eqb k' k) eqn:E; [reflexivity|].
    apply elem_of_cons in H as [->|H]; [rewrite String.eqb_refl in E; discriminate|].
    cbn [app]. rewrite IH by exact H. reflexivity.
Qed.

Lemma obj_set_keys k v fs : k ∈ fs.*1 → (obj_set k v fs).*1 = fs.*1.
Proof.
  induction fs as [|[k' v'] fs IH]; cbn [obj_set fmap list_fmap fst].
  - intros H. inversion H.
  - intros H. destruct (String.eqb k' k) eqn:E; [reflexivity|].
    apply elem_of_cons in H as [->|H]; [rewrite String.eqb_refl in E; discriminate|].
    cbn [fmap list_fmap fst]. f_equal. apply IH, H.
Qed.

Lemma field_app_l k fs extra : k ∈ fs.*1 → field k (fs ++ extra) = field k fs.
Proof.
  intros H. unfold field.
  destruct (find_field k fs) as [v|] eqn:E.
  - rewrite (find_field_app_l _ _ _ _ E). reflexivity.
  - apply find_field_None in E. contradiction.
Qed.

Lemma known_flag_dash long short arg :
  is_flag long short arg = true →
  startsWith_dash long = true → startsWith_dash short = true →
  startsWith_dash arg = true.
Proof. intros H Hl Hs. flag_value H; assumption. Qed.

(** The loop of src/modules/cli.js, followed by the loop of the later
    one. *)
Lemma scan_compat extra args : ∀ config config',
  Cli.scan args config = Ok config' →
  config.*1 = ["replayMode"; "sourcePath"; "outputPath"; "compress"] →
  config'.*1 = ["replayMode"; "sourcePath"; "outputPath"; "compress"]
  ∧ CliFormat.scan args (config ++ extra) = Ok (config' ++ extra).
Proof.
  induction args as [| arg rest IH IH2] using args_ind; intros config config' H Hkeys.
  - injection H as <-. auto.
  - cbn [Cli.scan CliFormat.scan] in *.
    assert (∀ k v, k ∈ ["replayMode"; "sourcePath"; "outputPath"; "compress"] →
                   (obj_set k v config).*1
                   = ["replayMode"; "sourcePath"; "outputPath"; "compress"]
                   ∧ obj_set k v (config ++ extra) = obj_set k v config ++ extra)
      as Hset.
    { intros k v Hk. rewrite <- Hkeys in Hk.
      rewrite obj_set_keys, obj_set_app by exact Hk. auto. }
    destruct (is_flag "--out" "-o" arg).
    { destruct rest as [|out rest']; [discriminate H|].
      destruct (Hset "outputPath" (VStr out)) as [K ->]; [in_keys|].
      exact (IH2 out rest' eq_refl _ _ H K). }
    destruct (is_flag "--compress" "-c" arg).
    { destruct (Hset "compress" (VBool true)) as [K ->]; [in_keys|].
      exact (IH _ _ H K). }
    destruct (startsWith_dash arg) eqn:E; [discriminate H|].
    destruct (is_flag "--full-format" "-f" arg) eqn:E3.
    { rewrite (known_flag_dash _ _ _ E3) in E by reflexivity. discriminate E. }
    destruct (is_flag "--help" "-h" arg) eqn:E4.
    { rewrite (known_flag_dash _ _ _ E4) in E by reflexivity. discriminate E. }
    rewrite field_app_l by (rewrite Hkeys; in_keys).
    destruct (negb (truthy (field "sourcePath" config))).
    + destruct (Hset "sourcePath" (VStr arg)) as [K ->]; [in_keys|].
      exact (IH _ _ H K).
    + exact (IH _ _ H Hkeys).
Qed.

(** X25: the later cli.js accepts every argument list that
    src/modules/cli.js accepts, and returns the same configuration with the
    two format fields at their defaults ([llmOptimized: true],
    [fullFormat: false]) added; in the replay mode both return
    [{replayMode: true}]. *)
Theorem parseCliArguments_compatible args config :
  Cli.parseCliArguments resolve args = Ok config →
  CliFormat.parseCliArguments resolve args = Ok (with_format_defaults config).
Proof.
  unfold Cli.parseCliArguments, CliFormat.parseCliArguments. intros H.
  destruct (existsb (String.eqb "--replay-errors") args).
  { injection H as <-. reflexivity. }
  apply bind_ok in H as (scanned & Hscan & H).
  destruct (scan_compat [("llmOptimized", VBool true); ("fullFormat", VBool false)]
              _ _ _ Hscan eq_refl) as [Hkeys Hscan'].
  change CliFormat.initial_config
    with ([("replayMode", VBool false); ("sourcePath", VNull);
           ("outputPath", VNull); ("compress", VBool false)]
          ++ [("llmOptimized", VBool true); ("fullFormat", VBool false)]).
  rewrite Hscan'. cbn [bind].
  rewrite field_app_l by (rewrite Hkeys; in_keys).
  destruct (truthy (field "sourcePath" scanned)) eqn:Hs; cbn [negb andb] in *;
    [|discriminate H].
  apply bind_ok in H as (resolved & Hres & H). injection H as <-.
  unfold CliFormat.resolve_source.
  rewrite field_app_l by (rewrite Hkeys; in_keys).
  rewrite Hs, Hres. cbn [bind].
  rewrite obj_set_app by (rewrite Hkeys; in_keys).
  assert ((obj_set "sourcePath" resolved scanned).*1
          = ["replayMode"; "sourcePath"; "outputPath"; "compress"]) as Hkeys1.
  { rewrite obj_set_keys; [exact Hkeys | rewrite Hkeys; in_keys]. }
  unfold default_output.
  rewrite field_app_l by (rewrite Hkeys1; in_keys).
  unfold with_format_defaults.
  destruct (negb (truthy (field "outputPath" (obj_set "sourcePath" resolved scanned)))).
  - rewrite obj_set_app by (rewrite Hkeys1; in_keys).
    rewrite bool_decide_eq_false_2; [reflexivity|].
    rewrite obj_set_keys by (rewrite Hkeys1; in_keys). rewrite Hkeys1. discriminate.
  - rewrite bool_decide_eq_false_2; [reflexivity|]. rewrite Hkeys1. discriminate.
Qed.
End Reading.

Lemma parseCliArguments_reads_witness :
  ∃ config,
    CliFormat.parseCliArguments resolve_in_work sample_args = Ok config
    ∧ prop config "replayMode" = VBool false
    ∧ prop config "sourcePath" = source_of resolve_in_work sample_args
    ∧ prop config "outputPath" = VStr (output_of sample_args)
    ∧ prop config "compress" = VBool (has_flag "--compress" "-c" sample_args)
    ∧ prop config "fullFormat" = VBool (has_flag "--full-format" "-f" sample_args)
    ∧ prop config "llmOptimized" = VBool (negb (has_flag "--full-format" "-f" sample_args))
    ∧ truthy (prop config "help") = has_flag "--help" "-h" sample_args.
Proof.
  eexists. split; [reflexivity|].
  apply (parseCliArguments_reads resolve_in_work sample_args); reflexivity.
Defined.


Lemma parseCliArguments_compatible_witness :
  CliFormat.parseCliArguments resolve_in_work ["./src"; "-c"]
  = Ok (with_format_defaults
          (VObj [("replayMode", VBool false); ("sourcePath", VStr "/work/./src");
                 ("outputPath", VStr "project.manifest.json");
                 ("compress", VBool true)])).
Proof.
  apply (parseCliArguments_compatible resolve_in_work ["./src"; "-c"]). reflexivity.
Defined.
End CliMore.
